(** * Stock volume / relative-strength analysis: a shallow embedding

    The development follows the two programs of the repository:

    - [Server] embeds [src/API/server.js]: the quote reduction
      [getStockDataAPI] (target index, ten-session average volume, volume
      ratio, price change) and the [POST /api/analyze] handler (validation,
      benchmark union, fetch fan-out, benchmark comparisons, rounding);
    - [Client] embeds [sortData] of [src/Static/VL-ratio-comparison.js]
      (benchmarks pinned first, the other rows sorted by a column).

    Numbers.  An ECMAScript number is modelled by [JS.num]: an exact
    rational, or one of the three special values [+Infinity], [-Infinity],
    [NaN].  Arithmetic follows the IEEE rules for the special values
    (division by zero, [Infinity - Infinity], ...) and is exact on
    rationals: rounding of binary64 results, overflow and the sign of zero
    are not modelled. *)

From Stdlib Require Import ZArith QArith Qround Qabs List String Bool Lia Lqa.
From Stdlib Require Import DecimalString.
From Stdlib Require Import Permutation Sorted SetoidList SetoidPermutation OrdersEx.
Import ListNotations.
Open Scope Z_scope.

(* ================================================================== *)
(** * ECMAScript values and operators used by the programs *)
(* ================================================================== *)

Module JS.

(** Number values. *)
Inductive num : Type :=
| Fin (q : Q)
| PInf
| NInf
| NaN.

(** The values an element of a parsed JSON array of numbers, or an
    out-of-range index, can evaluate to. *)
Inductive value : Type :=
| VUndef
| VNull
| VNum (n : num).

(** [ToNumber]: [undefined] is [NaN], [null] is [+0]. *)
Definition toNumber (v : value) : num :=
  match v with
  | VUndef => NaN
  | VNull => Fin 0
  | VNum n => n
  end.

(** [ToBoolean]: [undefined], [null], [0] and [NaN] are falsy. *)
Definition truthy (v : value) : bool :=
  match v with
  | VUndef | VNull => false
  | VNum (Fin q) => negb (Qeq_bool q 0)
  | VNum NaN => false
  | VNum _ => true
  end.

(** [a || b]. *)
Definition orElse (a b : value) : value := if truthy a then a else b.

Definition neg (a : num) : num :=
  match a with
  | Fin q => Fin (- q)
  | PInf => NInf
  | NInf => PInf
  | NaN => NaN
  end.

Definition add (a b : num) : num :=
  match a, b with
  | NaN, _ | _, NaN => NaN
  | Fin x, Fin y => Fin (x + y)
  | PInf, NInf | NInf, PInf => NaN
  | PInf, _ | _, PInf => PInf
  | NInf, _ | _, NInf => NInf
  end.

Definition sub (a b : num) : num := add a (neg b).

(** Sign of a number as the multiplication and division tables need it;
    zero counts as positive zero. *)
Definition isNeg (a : num) : bool :=
  match a with
  | Fin q => negb (Qle_bool 0 q)
  | NInf => true
  | _ => false
  end.

Definition isZero (a : num) : bool :=
  match a with
  | Fin q => Qeq_bool q 0
  | _ => false
  end.

Definition signedInf (negative : bool) : num := if negative then NInf else PInf.

Definition mul (a b : num) : num :=
  match a, b with
  | NaN, _ | _, NaN => NaN
  | Fin x, Fin y => Fin (x * y)
  | _, _ => if isZero a || isZero b then NaN
            else signedInf (xorb (isNeg a) (isNeg b))
  end.

Definition div (a b : num) : num :=
  match a, b with
  | NaN, _ | _, NaN => NaN
  | Fin x, Fin y =>
      if Qeq_bool y 0
      then (if Qeq_bool x 0 then NaN else signedInf (isNeg a))
      else Fin (x / y)
  | Fin _, _ => Fin 0
  | _, Fin _ => signedInf (xorb (isNeg a) (isNeg b))
  | _, _ => NaN
  end.

(** [a > b]; every comparison with [NaN] is false. *)
Definition gt (a b : num) : bool :=
  match a, b with
  | NaN, _ | _, NaN => false
  | Fin x, Fin y => negb (Qle_bool x y)
  | PInf, PInf | NInf, _ => false
  | PInf, _ => true
  | Fin _, NInf => true
  | Fin _, PInf => false
  end.

(** [a !== b] on numbers; [NaN] differs from everything. *)
Definition strictNeq (a b : num) : bool :=
  match a, b with
  | Fin x, Fin y => negb (Qeq_bool x y)
  | PInf, PInf | NInf, NInf => false
  | _, _ => true
  end.

(** [v !== null]. *)
Definition notNull (v : value) : bool :=
  match v with
  | VNull => false
  | _ => true
  end.

(** [arr[i]]: [undefined] outside [0 .. length-1]. *)
Definition get (arr : list value) (i : Z) : value :=
  if 0 <=? i then nth (Z.to_nat i) arr VUndef else VUndef.

(** [arr.slice(start, end)], with the relative-index rules of
    [Array.prototype.slice]. *)
Definition slice {A : Type} (arr : list A) (start end_ : Z) : list A :=
  let len := Z.of_nat (List.length arr) in
  let k := if start <? 0 then Z.max (len + start) 0 else Z.min start len in
  let final := if end_ <? 0 then Z.max (len + end_) 0 else Z.min end_ len in
  firstn (Z.to_nat (final - k)) (skipn (Z.to_nat k) arr).

(** [arr.findIndex(p)]: the first index whose element satisfies [p],
    [-1] when there is none. *)
Fixpoint findIndexFrom {A : Type} (p : A -> bool) (arr : list A) (i : Z) : Z :=
  match arr with
  | [] => -1
  | x :: rest => if p x then i else findIndexFrom p rest (i + 1)
  end.

Definition findIndex {A : Type} (p : A -> bool) (arr : list A) : Z :=
  findIndexFrom p arr 0.

(** [arr.find(p)]. *)
Definition find {A : Type} (p : A -> bool) (arr : list A) : option A :=
  List.find p arr.

(** [arr.reduce((sum, vol) => sum + vol, 0)]. *)
Definition reduceSum (arr : list value) : num :=
  fold_left (fun acc v => add acc (toNumber v)) arr (Fin 0).

(** [10^d] as a rational. *)
Definition pow10 (d : nat) : Q := inject_Z (10 ^ Z.of_nat d).

(** The integer nearest to a non-negative [q], the larger one on a tie. *)
Definition nearestUp (q : Q) : Z := Qfloor (q + (1 # 2)).

(** [parseFloat(x.toFixed(d))].  [toFixed] works on the absolute value
    and picks the integer [n] with [n / 10^d] nearest to it, the larger
    on a tie; the sign is put back in front.  For magnitudes of [10^21]
    and above ECMAScript prints the number itself, and every binary64
    number of that size is an integer, so the value is the same as the
    one given here.  [NaN] and the infinities print and parse back as
    themselves. *)
Definition toFixed (d : nat) (x : num) : num :=
  match x with
  | Fin q =>
      if Qle_bool 0 q
      then Fin (inject_Z (nearestUp (q * pow10 d)) / pow10 d)
      else Fin (- (inject_Z (nearestUp ((- q) * pow10 d)) / pow10 d))
  | other => other
  end.

(** [Math.round(x)]: nearest integer, ties towards [+Infinity]. *)
Definition round (x : num) : num :=
  match x with
  | Fin q => Fin (inject_Z (Qfloor (q + (1 # 2))))
  | other => other
  end.

(** [new Set(xs)] spread back into an array: first occurrences, in
    insertion order. *)
Fixpoint dedupe (seen xs : list string) : list string :=
  match xs with
  | [] => []
  | x :: rest =>
      if existsb (String.eqb x) seen then dedupe seen rest
      else x :: dedupe (x :: seen) rest
  end.

Definition uniq (xs : list string) : list string := dedupe [] xs.

(** [Array.prototype.sort(cmp)].  ECMAScript requires the sort to be
    stable, and for a consistent comparator the result is then unique;
    it is computed here by stable insertion: an element stays in front
    of a later one unless the comparator returns a positive number for
    the pair (a [NaN] result counts as [0]). *)
Fixpoint insert {A : Type} (cmp : A -> A -> num) (x : A) (l : list A) : list A :=
  match l with
  | [] => [x]
  | y :: rest =>
      if gt (cmp x y) (Fin 0) then y :: insert cmp x rest else x :: l
  end.

Definition sort {A : Type} (cmp : A -> A -> num) (l : list A) : list A :=
  fold_right (insert cmp) [] l.

(** [arr.indexOf(s)] and [arr.includes(s)] on an array of strings. *)
Fixpoint indexOfFrom (s : string) (arr : list string) (i : Z) : Z :=
  match arr with
  | [] => -1
  | x :: rest => if String.eqb x s then i else indexOfFrom s rest (i + 1)
  end.

Definition indexOf (arr : list string) (s : string) : Z := indexOfFrom s arr 0.

Definition includes (arr : list string) (s : string) : bool :=
  existsb (String.eqb s) arr.

End JS.

(* ================================================================== *)
(** * The server: [src/API/server.js] *)
(* ================================================================== *)

(** The object [getStockDataAPI] returns. *)
Module Stock.
Record t : Type := {
  symbol : string;
  currentVolume : JS.value;
  avgVolume : JS.num;
  vlRatio : JS.num;
  price : JS.value;
  priceChange : JS.num;
  timestamp : JS.num;
  date : string
}.
End Stock.

Inductive Status : Type := stronger | weaker.

Module Comparison.
Record t : Type := {
  ratio : JS.num;
  status : Status
}.
End Comparison.

(** An object literal as the list of its properties, in source order. *)
Definition object (A : Type) : Type := list (string * A).

Fixpoint property {A : Type} (key : string) (o : object A) : option A :=
  match o with
  | [] => None
  | (k, v) :: rest => if String.eqb k key then Some v else property key rest
  end.

(** One element of the [data] array of the response. *)
Module Result.
Record t : Type := {
  symbol : string;
  vlRatio : JS.num;
  currentVolume : JS.value;
  avgVolume : JS.num;
  price : JS.value;
  priceChange : JS.num;
  date : string;
  comparisons : object Comparison.t
}.
End Result.

Module Server.
Import JS.

(** The part of a chart response [getStockDataAPI] reads:
    [data.timestamp], [data.indicators.quote[0].volume] and
    [data.indicators.quote[0].close]. *)
Record ChartData : Type := {
  timestamps : list Z;
  volumes : list value;
  closes : list value
}.

(** What the handler does not control: the quote service ([None] when the
    request fails or the payload lacks the arrays, so that the [try]
    block throws), the date functions of the runtime, the browser launch
    ([Some msg] when [puppeteer.launch] rejects with message [msg]) and
    the clock. *)
Record Env : Type := {
  yahoo : string -> option ChartData;
  dateParse : string -> num;
  toDateString : num -> string;
  launchError : option string;
  now : string
}.

(** ** Effects of the handler

    The handler reads and sets [scraper.browser], sends requests, and may
    throw into its [catch] block: a state and exception monad that also
    records the requests sent. *)

Record Scraper : Type := { browser : bool }.

Inductive event : Type :=
| Launch
| HttpGet (sym : string).

Inductive outcome (A : Type) : Type :=
| Done (a : A)
| Threw (message : string).
Arguments Done {A} a.
Arguments Threw {A} message.

Definition M (A : Type) : Type := Scraper -> Scraper * list event * outcome A.

Definition ret {A : Type} (a : A) : M A := fun s => (s, [], Done a).

Definition bind {A B : Type} (m : M A) (k : A -> M B) : M B :=
  fun s =>
    match m s with
    | (s1, t1, Done a) =>
        match k a s1 with
        | (s2, t2, r) => (s2, t1 ++ t2, r)
        end
    | (s1, t1, Threw msg) => (s1, t1, Threw msg)
    end.

Definition emit (e : event) : M unit := fun s => (s, [e], Done tt).
Definition throw {A : Type} (msg : string) : M A := fun s => (s, [], Threw msg).
Definition getBrowser : M bool := fun s => (s, [], Done (browser s)).
Definition setBrowser (b : bool) : M unit := fun _ => ({| browser := b |}, [], Done tt).

Definition tryCatch {A : Type} (m : M A) (handler : string -> M A) : M A :=
  fun s =>
    match m s with
    | (s1, t1, Done a) => (s1, t1, Done a)
    | (s1, t1, Threw msg) =>
        match handler msg s1 with
        | (s2, t2, r) => (s2, t1 ++ t2, r)
        end
    end.

Notation "x <- m ;; k" := (bind m (fun x => k))
  (at level 61, m at next level, right associativity).
Notation "m ;;; k" := (bind m (fun _ => k))
  (at level 61, right associativity).

(** [await Promise.all(xs.map(f))]: the calls start in array order. *)
Fixpoint mapM {A B : Type} (f : A -> M B) (xs : list A) : M (list B) :=
  match xs with
  | [] => ret []
  | x :: rest => y <- f x ;; ys <- mapM f rest ;; ret (y :: ys)
  end.

(** [if (date)]: a missing, [null] or empty date is falsy. *)
Definition dateGiven (date : option string) : option string :=
  match date with
  | Some EmptyString => None
  | other => other
  end.

(** ** [getStockDataAPI] *)

Section Reduction.
Variable env : Env.

(** Lines 90-98: the target index. *)
Definition targetIndexOf (ts : list Z) (date : option string) : Z :=
  let last := Z.of_nat (List.length ts) - 1 in
  match dateGiven date with
  | None => last
  | Some d =>
      let targetDate := dateParse env d in
      let i := findIndex
                 (fun t => String.eqb (toDateString env (Fin (inject_Z (t * 1000))))
                                      (toDateString env targetDate)) ts in
      if i =? -1 then last else i
  end.

(** Lines 101-102. *)
Definition volumeSlice (vols : list value) (targetIndex : Z) : list value :=
  let start := Z.max 0 (targetIndex - 9) in
  filter notNull (slice vols start (targetIndex + 1)).

(** Lines 103-104. *)
Definition avgVolumeOf (vols : list value) (targetIndex : Z) : num :=
  let vs := volumeSlice vols targetIndex in
  if (0 <? Z.of_nat (List.length vs))
  then div (reduceSum vs) (Fin (inject_Z (Z.of_nat (List.length vs))))
  else Fin 0.

(** Line 106. *)
Definition currentVolumeOf (vols : list value) (targetIndex : Z) : value :=
  orElse (get vols targetIndex) (VNum (Fin 0)).

(** Line 107. *)
Definition vlRatioOf (vols : list value) (targetIndex : Z) : num :=
  let avg := avgVolumeOf vols targetIndex in
  if gt avg (Fin 0)
  then div (toNumber (currentVolumeOf vols targetIndex)) avg
  else Fin 0.

(** Lines 110-112: the local [priceChange], before line 120 rounds it. *)
Definition previousPriceOf (cls : list value) (targetIndex : Z) : value :=
  orElse (get cls (targetIndex - 1)) (get cls targetIndex).

Definition priceChangeOf (cls : list value) (targetIndex : Z) : num :=
  let currentPrice := get cls targetIndex in
  let previousPrice := previousPriceOf cls targetIndex in
  if gt (toNumber previousPrice) (Fin 0)
  then mul (div (sub (toNumber currentPrice) (toNumber previousPrice))
                (toNumber previousPrice))
           (Fin 100)
  else Fin 0.

Definition timestampOf (ts : list Z) (targetIndex : Z) : num :=
  if 0 <=? targetIndex then
    match nth_error ts (Z.to_nat targetIndex) with
    | Some t => Fin (inject_Z (t * 1000))
    | None => NaN
    end
  else NaN.

(** Lines 83-123, once the response has arrived. *)
Definition reduceChart (sym : string) (date : option string) (data : ChartData)
  : Stock.t :=
  let targetIndex := targetIndexOf (timestamps data) date in
  {| Stock.symbol := sym;
     Stock.currentVolume := currentVolumeOf (volumes data) targetIndex;
     Stock.avgVolume := avgVolumeOf (volumes data) targetIndex;
     Stock.vlRatio := vlRatioOf (volumes data) targetIndex;
     Stock.price := get (closes data) targetIndex;
     Stock.priceChange := toFixed 2 (priceChangeOf (closes data) targetIndex);
     Stock.timestamp := timestampOf (timestamps data) targetIndex;
     Stock.date := toDateString env (timestampOf (timestamps data) targetIndex) |}.

(** What one call yields: [null] when the request or the reduction
    throws. *)
Definition stockOf (sym : string) (date : option string) : option Stock.t :=
  match yahoo env sym with
  | Some data => Some (reduceChart sym date data)
  | None => None
  end.

(** [getStockDataAPI(symbol, date)]: one request, then the reduction. *)
Definition getStockDataAPI (sym : string) (date : option string)
  : M (option Stock.t) :=
  emit (HttpGet sym) ;;; ret (stockOf sym date).

(** [scraper.initialize()]. *)
Definition initialize : M unit :=
  emit Launch ;;;
  match launchError env with
  | Some msg => throw msg
  | None => setBrowser true
  end.

End Reduction.

(** ** The [POST /api/analyze] handler *)

(** The [symbols] property of the request body, by the cases the
    validation distinguishes; the elements of an array are the ticker
    strings. *)
Inductive SymbolsField : Type :=
| SymMissing
| SymNull
| SymBool (b : bool)
| SymNumber (n : num)
| SymString (s : string)
| SymObject
| SymArray (items : list string).

Record Body : Type := {
  symbols : SymbolsField;
  date : option string
}.

Inductive ResponseBody : Type :=
| ErrorBody (error : string) (details : option string)
| AnalysisBody (data : list Result.t) (timestamp : string) (requestDate : string).

Record Response : Type := {
  statusCode : Z;
  body : ResponseBody
}.

(** [!symbols]. *)
Definition symbolsFalsy (f : SymbolsField) : bool :=
  match f with
  | SymMissing | SymNull => true
  | SymBool b => negb b
  | SymNumber n => negb (truthy (VNum n))
  | SymString s => match s with EmptyString => true | _ => false end
  | SymObject | SymArray _ => false
  end.

Definition isArray (f : SymbolsField) : bool :=
  match f with
  | SymArray _ => true
  | _ => false
  end.

Definition benchmarks : list string := ["QQQ"; "SPY"; "IWM"]%string.

(** Lines 180-182: [b && b.priceChange !== 0 ? stock.priceChange /
    b.priceChange : 1]. *)
Definition compareTo (bench : option Stock.t) (stock : Stock.t) : num :=
  match bench with
  | Some b =>
      if strictNeq (Stock.priceChange b) (Fin 0)
      then div (Stock.priceChange stock) (Stock.priceChange b)
      else Fin 1
  | None => Fin 1
  end.

(** Lines 193-204: one entry of [comparisons]. *)
Definition comparison (c : num) : Comparison.t :=
  {| Comparison.ratio := toFixed 3 c;
     Comparison.status := if gt c (Fin 1) then stronger else weaker |}.

Definition findSymbol (sym : string) (rs : list Stock.t) : option Stock.t :=
  find (fun r => String.eqb (Stock.symbol r) sym) rs.

(** Lines 179-207: the callback of [validResults.map]. *)
Definition analysisOf (qqq spy iwm : option Stock.t) (stock : Stock.t) : Result.t :=
  let compareToQQQ := compareTo qqq stock in
  let compareToSPY := compareTo spy stock in
  let compareToIWM := compareTo iwm stock in
  {| Result.symbol := Stock.symbol stock;
     Result.vlRatio := toFixed 3 (Stock.vlRatio stock);
     Result.currentVolume := Stock.currentVolume stock;
     Result.avgVolume := round (Stock.avgVolume stock);
     Result.price := Stock.price stock;
     Result.priceChange := Stock.priceChange stock;
     Result.date := Stock.date stock;
     Result.comparisons :=
       [ ("vs_QQQ", comparison compareToQQQ);
         ("vs_SPY", comparison compareToSPY);
         ("vs_IWM", comparison compareToIWM) ]%string |}.

(** [results.filter(result => result !== null)]. *)
Fixpoint nonNull {A : Type} (rs : list (option A)) : list A :=
  match rs with
  | [] => []
  | Some r :: rest => r :: nonNull rest
  | None :: rest => nonNull rest
  end.

Definition json (code : Z) (b : ResponseBody) : Response :=
  {| statusCode := code; body := b |}.

Section Handler.
Variable env : Env.

Definition analyzeBody (req : Body) : M Response :=
  if symbolsFalsy (symbols req) || negb (isArray (symbols req))
  then ret (json 400 (ErrorBody "Symbols array is required" None))
  else
    let items := match symbols req with SymArray l => l | _ => [] end in
    let allSymbols := uniq (benchmarks ++ items) in
    b <- getBrowser ;;
    (if negb b then initialize env else ret tt) ;;;
    results <- mapM (fun sym => getStockDataAPI env sym (date req)) allSymbols ;;
    let validResults := nonNull results in
    if (Z.of_nat (List.length validResults) =? 0)
    then ret (json 500 (ErrorBody "Failed to fetch data for any symbols" None))
    else
      let qqq := findSymbol "QQQ" validResults in
      let spy := findSymbol "SPY" validResults in
      let iwm := findSymbol "IWM" validResults in
      let analysisResults := map (analysisOf qqq spy iwm) validResults in
      ret (json 200 (AnalysisBody analysisResults (now env)
                       (match dateGiven (date req) with
                        | Some d => d
                        | None => "latest"%string
                        end))).

(** The handler with its [try]/[catch]. *)
Definition analyze (req : Body) : M Response :=
  tryCatch (analyzeBody req)
    (fun msg => ret (json 500 (ErrorBody "Internal server error" (Some msg)))).

End Handler.

Section Settled.
Variable env : Env.

(** The symbols fetched for an array [items], and what came back. *)
Definition allSymbolsOf (items : list string) : list string :=
  uniq (benchmarks ++ items).

Definition validResultsOf (d : option string) (items : list string) : list Stock.t :=
  nonNull (map (fun sym => stockOf env sym d) (allSymbolsOf items)).

Definition requestDateOf (d : option string) : string :=
  match dateGiven d with
  | Some x => x
  | None => "latest"%string
  end.

(** The response once every fetch has settled. *)
Definition settled (d : option string) (items : list string) : Response :=
  let valid := validResultsOf d items in
  if (Z.of_nat (List.length valid) =? 0)
  then json 500 (ErrorBody "Failed to fetch data for any symbols" None)
  else json 200 (AnalysisBody
                   (map (analysisOf (findSymbol "QQQ" valid)
                                    (findSymbol "SPY" valid)
                                    (findSymbol "IWM" valid)) valid)
                   (now env) (requestDateOf d)).

End Settled.

Definition isFetch (e : event) : bool :=
  match e with
  | HttpGet _ => true
  | Launch => false
  end.

(** What a run of the handler sent and answered. *)
Definition traceOf {A : Type} (r : Scraper * list event * outcome A) : list event :=
  snd (fst r).

Definition answerOf {A : Type} (r : Scraper * list event * outcome A) : option A :=
  match snd r with
  | Done a => Some a
  | Threw _ => None
  end.

Definition responseOf (env : Env) (req : Body) (s : Scraper) : option Response :=
  answerOf (analyze env req s).

Definition dataOf (resp : Response) : list Result.t :=
  match body resp with
  | AnalysisBody data _ _ => data
  | ErrorBody _ _ => []
  end.

(** The property of [comparisons] that holds the comparison with
    benchmark [B]. *)
Definition vs (B : string) : string := ("vs_" ++ B)%string.

End Server.

(* ================================================================== *)
(** * The client: [sortData] of [src/Static/VL-ratio-comparison.js] *)
(* ================================================================== *)

Module Client.
Import JS.

(** A row as the table code reads it from the parsed response: the
    properties [sortData] touches.  A numeric property of a parsed JSON
    document is a finite number or [null]. *)
Record RowComparison : Type := { ratio : value }.

Record RowComparisons : Type := {
  vs_QQQ : RowComparison;
  vs_SPY : RowComparison;
  vs_IWM : RowComparison
}.

Record Row : Type := {
  symbol : string;
  priceChange : value;
  vlRatio : value;
  comparisons : RowComparisons;
  price : value;
  currentVolume : value
}.

(** The names in [columns] of [sortTable]; [c_other] is any other value
    of [column], which the [switch] sends to [default]. *)
Inductive Column : Type :=
| c_symbol | c_priceChange | c_vlRatio | c_vsQQQ | c_vsSPY | c_vsIWM
| c_price | c_volume | c_other.

(** [direction]: ['asc'], or anything else. *)
Inductive Direction : Type := asc | desc.

(** [this.benchmarks]. *)
Definition benchmarks : list string := ["QQQ"; "SPY"; "IWM"]%string.

Definition isBenchmark (stock : Row) : bool := includes benchmarks (symbol stock).

Section SortData.
(** [String.prototype.localeCompare] is left to the runtime's
    collation. *)
Variable localeCompare : string -> string -> Z.

(** The last [if] of the comparator, for a string column. *)
Definition compareStrings (direction : Direction) (aValue bValue : string) : num :=
  match direction with
  | asc => Fin (inject_Z (localeCompare aValue bValue))
  | desc => Fin (inject_Z (localeCompare bValue aValue))
  end.

(** The last [if] of the comparator, for the other columns. *)
Definition compareNumbers (direction : Direction) (aValue bValue : value) : num :=
  match direction with
  | asc => sub (toNumber aValue) (toNumber bValue)
  | desc => sub (toNumber bValue) (toNumber aValue)
  end.

Definition zeroV : value := VNum (Fin 0).

(** The comparator given to [sort] for the regular stocks. *)
Definition compareRows (column : Column) (direction : Direction) (a b : Row) : num :=
  match column with
  | c_symbol => compareStrings direction (symbol a) (symbol b)
  | c_priceChange =>
      compareNumbers direction (orElse (priceChange a) zeroV)
                               (orElse (priceChange b) zeroV)
  | c_vlRatio => compareNumbers direction (vlRatio a) (vlRatio b)
  | c_vsQQQ =>
      compareNumbers direction (ratio (vs_QQQ (comparisons a)))
                               (ratio (vs_QQQ (comparisons b)))
  | c_vsSPY =>
      compareNumbers direction (ratio (vs_SPY (comparisons a)))
                               (ratio (vs_SPY (comparisons b)))
  | c_vsIWM =>
      compareNumbers direction (ratio (vs_IWM (comparisons a)))
                               (ratio (vs_IWM (comparisons b)))
  | c_price =>
      compareNumbers direction (orElse (price a) zeroV) (orElse (price b) zeroV)
  | c_volume => compareNumbers direction (currentVolume a) (currentVolume b)
  | c_other => Fin 0
  end.

(** The comparator given to [sort] for the benchmarks. *)
Definition compareBenchmarks (a b : Row) : num :=
  Fin (inject_Z (indexOf benchmarks (symbol a) - indexOf benchmarks (symbol b))).

Definition sortData (data : list Row) (column : Column) (direction : Direction)
  : list Row :=
  let benchmarkRows := filter isBenchmark data in
  let regularStocks := filter (fun stock => negb (isBenchmark stock)) data in
  let sortedBenchmarks := sort compareBenchmarks benchmarkRows in
  let sortedRegularStocks := sort (compareRows column direction) regularStocks in
  sortedBenchmarks ++ sortedRegularStocks.

End SortData.

End Client.

(* ================================================================== *)
(** * Specification-side notions *)
(* ================================================================== *)

Module Spec.
Import JS.

(** An element of a parsed JSON array of numbers: a finite number or
    [null]. *)
Definition jsonNumber (v : value) : Prop :=
  v = VNull \/ exists q : Q, v = VNum (Fin q).

(** A well-formed volume: [null], or finite and non-negative. *)
Definition volumeOk (v : value) : Prop :=
  v = VNull \/ exists q : Q, v = VNum (Fin q) /\ (0 <= q)%Q.

(** The indices [lo, lo+1, ..., hi]. *)
Definition indexRange (lo hi : Z) : list Z :=
  map (fun n => lo + Z.of_nat n) (seq 0 (Z.to_nat (hi - lo + 1))).

(** The window of the average: indices [max(0, i-9) .. i]. *)
Definition windowIndices (i : Z) : list Z := indexRange (Z.max 0 (i - 9)) i.

Definition windowVolumes (vols : list value) (i : Z) : list value :=
  map (get vols) (windowIndices i).

(** The finite numbers among some values. *)
Fixpoint finiteParts (vs : list value) : list Q :=
  match vs with
  | [] => []
  | VNum (Fin q) :: rest => q :: finiteParts rest
  | _ :: rest => finiteParts rest
  end.

Definition sumQ (qs : list Q) : Q := fold_right Qplus 0%Q qs.

(** The arithmetic mean of a list of rationals. *)
Definition meanQ (qs : list Q) : Q :=
  (sumQ qs / inject_Z (Z.of_nat (List.length qs)))%Q.

(** [y] is [x] rounded to [d] decimal places: a multiple of [10^-d] at
    distance at most half a unit of that place; special values are
    kept. *)
Definition roundedTo (d : nat) (x y : num) : Prop :=
  match x with
  | Fin q =>
      exists (r : Q) (n : Z),
        y = Fin r /\ (r == inject_Z n / pow10 d)%Q /\
        (Qabs (r - q) <= (1 # 2) / pow10 d)%Q
  | other => y = other
  end.

(** [y] is [x] rounded to the nearest integer. *)
Definition roundedToInteger (x y : num) : Prop :=
  match x with
  | Fin q =>
      exists n : Z, y = Fin (inject_Z n) /\ (Qabs (inject_Z n - q) <= 1 # 2)%Q
  | other => y = other
  end.

(** The closes of a chart as a parsed response has them: one per
    timestamp, each a finite number or [null]. *)
Definition closesOk (data : Server.ChartData) : Prop :=
  List.length (Server.closes data) = List.length (Server.timestamps data) /\
  Forall jsonNumber (Server.closes data).

(** A number is finite and equal, as a rational, to [q]. *)
Definition isQ (x : num) (q : Q) : Prop :=
  exists r : Q, x = Fin r /\ (r == q)%Q.

(** ** Statements that the code does not satisfy, as the specification
    words them *)

(** "When a benchmark's fetch fails, that benchmark's comparisons are
    omitted from every symbol's result." *)
Definition missingBenchmarkOmitted : Prop :=
  forall (env : Server.Env) (req : Server.Body) (s : Server.Scraper)
         (resp : Server.Response) (B : string) (r : Result.t),
    In B Server.benchmarks ->
    Server.stockOf env B (Server.date req) = None ->
    Server.responseOf env req s = Some resp ->
    In r (Server.dataOf resp) ->
    property (Server.vs B) (Result.comparisons r) = None.

(** "The status of a comparison is stronger if and only if its ratio is
    strictly greater than 1", read on the comparison that is sent. *)
Definition statusFollowsRatio : Prop :=
  forall (env : Server.Env) (req : Server.Body) (s : Server.Scraper)
         (resp : Server.Response) (B : string) (r : Result.t)
         (c : Comparison.t) (q : Q),
    In B Server.benchmarks ->
    Server.responseOf env req s = Some resp ->
    In r (Server.dataOf resp) ->
    property (Server.vs B) (Result.comparisons r) = Some c ->
    Comparison.ratio c = Fin q ->
    (Comparison.status c = stronger <-> (1 < q)%Q).

(** "A request whose symbols are missing, not an array, or an empty
    array gets a validation error, and no fetch is performed." *)
Definition emptySymbolsRejected : Prop :=
  forall (env : Server.Env) (req : Server.Body) (s : Server.Scraper),
    Server.isArray (Server.symbols req) = false \/
    Server.symbols req = Server.SymArray [] ->
    filter Server.isFetch (Server.traceOf (Server.analyze env req s)) = [] /\
    exists resp : Server.Response,
      Server.responseOf env req s = Some resp /\ Server.statusCode resp = 400.

(** "The price change is [((c - p) / p) * 100] for the close [p] at
    the previous index, and [0] when there is no previous index or that
    close is absent or [0]." *)
Definition priceChangeAsStated : Prop :=
  forall (env : Server.Env) (date : option string) (data : Server.ChartData)
         (c p : Q),
    let i := Server.targetIndexOf env (Server.timestamps data) date in
    Server.timestamps data <> [] ->
    get (Server.closes data) i = VNum (Fin c) ->
    get (Server.closes data) (i - 1) = VNum (Fin p) ->
    ~ (p == 0)%Q ->
    isQ (Server.priceChangeOf (Server.closes data) i) ((c - p) / p * 100).

End Spec.

(** Specification-side notions for the table sort. *)
Module SortSpec.
Import JS Client Spec.

(** A row of a parsed response: every numeric property is a finite
    number or [null]. *)
Definition rowOk (r : Row) : Prop :=
  jsonNumber (priceChange r) /\ jsonNumber (vlRatio r) /\
  jsonNumber (ratio (vs_QQQ (comparisons r))) /\
  jsonNumber (ratio (vs_SPY (comparisons r))) /\
  jsonNumber (ratio (vs_IWM (comparisons r))) /\
  jsonNumber (price r) /\ jsonNumber (currentVolume r).

(** The rows of [data] for one symbol, in the order of [data]. *)
Definition rowsOf (sym : string) (data : list Row) : list Row :=
  filter (fun r => String.eqb (symbol r) sym) data.

Definition benchmarkRows (data : list Row) : list Row :=
  rowsOf "QQQ" data ++ rowsOf "SPY" data ++ rowsOf "IWM" data.

Definition otherRows (data : list Row) : list Row :=
  filter (fun r => negb (isBenchmark r)) data.

(** The key of a row in a column: a string, a number ([null] counts as
    [0], as it does in a subtraction), or none for an unknown column. *)
Inductive key : Type :=
| KStr (s : string)
| KNum (q : Q)
| KNone.

Definition numKey (v : value) : Q :=
  match toNumber v with
  | Fin q => q
  | _ => 0%Q
  end.

Definition sortKey (column : Column) (r : Row) : key :=
  match column with
  | c_symbol => KStr (symbol r)
  | c_priceChange => KNum (numKey (priceChange r))
  | c_vlRatio => KNum (numKey (vlRatio r))
  | c_vsQQQ => KNum (numKey (ratio (vs_QQQ (comparisons r))))
  | c_vsSPY => KNum (numKey (ratio (vs_SPY (comparisons r))))
  | c_vsIWM => KNum (numKey (ratio (vs_IWM (comparisons r))))
  | c_price => KNum (numKey (price r))
  | c_volume => KNum (numKey (currentVolume r))
  | c_other => KNone
  end.

Definition keyEq (k1 k2 : key) : Prop :=
  match k1, k2 with
  | KStr a, KStr b => a = b
  | KNum a, KNum b => (a == b)%Q
  | KNone, KNone => True
  | _, _ => False
  end.

Definition sameKey (column : Column) (a b : Row) : Prop :=
  keyEq (sortKey column a) (sortKey column b).

(** What the sort may assume of the collation: it is a consistent
    comparator. *)
Record Collation (localeCompare : string -> string -> Z) : Prop := {
  collation_antisym : forall a b, localeCompare a b < 0 <-> 0 < localeCompare b a;
  collation_trans : forall a b c,
    localeCompare a b <= 0 -> localeCompare b c <= 0 -> localeCompare a c <= 0
}.

(** Two rows tie in a column when the comparator of [sortData] returns
    zero on them: the sort cannot tell them apart. *)
Definition ties (localeCompare : string -> string -> Z) (column : Column)
    (a b : Row) : Prop :=
  Spec.isQ (compareRows localeCompare column asc a b) 0.

Section Order.
Variable localeCompare : string -> string -> Z.

Definition keyLe (k1 k2 : key) : Prop :=
  match k1, k2 with
  | KStr a, KStr b => localeCompare a b <= 0
  | KNum a, KNum b => (a <= b)%Q
  | _, _ => True
  end.

(** Row [a] may stand before row [b] in the chosen column and
    direction. *)
Definition inOrder (column : Column) (direction : Direction) (a b : Row) : Prop :=
  match direction with
  | asc => keyLe (sortKey column a) (sortKey column b)
  | desc => keyLe (sortKey column b) (sortKey column a)
  end.

(** Row [a] stands strictly before row [b]: in order, and the
    comparator tells them apart. *)
Definition strictly (column : Column) (direction : Direction) (a b : Row) : Prop :=
  inOrder column direction a b /\ ~ ties localeCompare column a b.
End Order.

(** Code-point order of strings, a collation for plain tickers. *)
Definition codePointCompare (a b : string) : Z :=
  match OrdersEx.String_as_OT.compare a b with
  | Lt => -1
  | Eq => 0
  | Gt => 1
  end.

(** Canonical composition of one pair, on UTF-8 text: [A] (byte 65)
    followed by the combining ring above (U+030A, bytes 204 138) is the
    letter U+00C5 (bytes 195 133). *)
Fixpoint compose (s : string) : string :=
  match s with
  | EmptyString => EmptyString
  | String c rest =>
      match rest with
      | String c1 (String c2 rest') =>
          if (Ascii.eqb c (Ascii.ascii_of_N 65) && Ascii.eqb c1 (Ascii.ascii_of_N 204) &&
              Ascii.eqb c2 (Ascii.ascii_of_N 138))%bool
          then String (Ascii.ascii_of_N 195)
                      (String (Ascii.ascii_of_N 133) (compose rest'))
          else String c (compose rest)
      | _ => String c (compose rest)
      end
  end.

(** A collation that honours this canonical equivalence, as ECMAScript
    requires [localeCompare] to: the two spellings compare as equal. *)
Definition canonicalCompare (a b : string) : Z :=
  codePointCompare (compose a) (compose b).

(** "For every set of non-benchmark rows whose keys in the chosen column
    are pairwise distinct, sorting by that column ascending and then
    descending yields exactly the reversed order of the ascending
    result", the keys being the values of the column, and the descending
    sort being applied to the same rows or to the ascending result. *)
Definition reversalAsStated (localeCompare : string -> string -> Z) : Prop :=
  forall (rows : list Row) (column : Column),
    Forall rowOk rows ->
    Forall (fun r => isBenchmark r = false) rows ->
    NoDupA (sameKey column) rows ->
    sortData localeCompare rows column desc =
      rev (sortData localeCompare rows column asc) \/
    sortData localeCompare (sortData localeCompare rows column asc) column desc =
      rev (sortData localeCompare rows column asc).

End SortSpec.

(* ================================================================== *)
(** * Concrete inputs *)
(* ================================================================== *)

Module Examples.
Import JS Server.

Definition numbers (qs : list Q) : list value := map (fun q => VNum (Fin q)) qs.

(** Two sessions: close 100 then 110, volume 1000 then 3000. *)
Definition twoSessions : ChartData :=
  {| timestamps := [86400; 172800];
     volumes := numbers [1000; 3000]%Q;
     closes := numbers [100; 110]%Q |}.

(** A flat benchmark: the close does not move. *)
Definition flat : ChartData :=
  {| timestamps := [86400; 172800];
     volumes := numbers [500; 500]%Q;
     closes := numbers [50; 50]%Q |}.

(** Up 30.00 percent. *)
Definition up30 : ChartData :=
  {| timestamps := [86400; 172800];
     volumes := [VNull; VNum (Fin 700)];
     closes := numbers [100; 130]%Q |}.

(** Up 30.01 percent. *)
Definition up3001 : ChartData :=
  {| timestamps := [86400; 172800];
     volumes := numbers [0; 0]%Q;
     closes := numbers [100; 130.01]%Q |}.

(** Closes below zero, as a futures contract can have them. *)
Definition negativeCloses : ChartData :=
  {| timestamps := [86400; 172800];
     volumes := numbers [10; 20]%Q;
     closes := numbers [-4; -2]%Q |}.

(** The quote service: [QQQ] fails, [SPY] is flat, [IWM] is up 30.00
    percent, [AAPL] is up 30.01 percent, [MSFT] has the two sessions
    above; any other symbol fails. *)
Definition quotes (sym : string) : option ChartData :=
  if String.eqb sym "SPY" then Some flat
  else if String.eqb sym "IWM" then Some up30
  else if String.eqb sym "AAPL" then Some up3001
  else if String.eqb sym "MSFT" then Some twoSessions
  else None.

(** Days since the epoch stand for calendar days. *)
Definition dayString (x : num) : string :=
  match x with
  | Fin q => ("day " ++ NilZero.string_of_int (Z.to_int (Qfloor (q / 86400000))))%string
  | _ => "Invalid Date"%string
  end.

Definition env0 : Env :=
  {| yahoo := quotes;
     dateParse := fun _ => NaN;
     toDateString := dayString;
     launchError := None;
     now := "1970-01-03T00:00:00.000Z" |}.

Definition idle : Scraper := {| browser := false |}.

Definition request (items : list string) : Body :=
  {| symbols := SymArray items; date := None |}.

Definition emptyResponse : Response := json 0 (ErrorBody "" None).

(** The response to a request for [AAPL] and [MSFT]. *)
Definition response0 : Response :=
  match responseOf env0 (request ["AAPL"; "MSFT"]%string) idle with
  | Some resp => resp
  | None => emptyResponse
  end.

Definition emptyResult : Result.t :=
  {| Result.symbol := ""; Result.vlRatio := NaN; Result.currentVolume := VUndef;
     Result.avgVolume := NaN; Result.price := VUndef; Result.priceChange := NaN;
     Result.date := ""; Result.comparisons := [] |}.

(** Its results, by position: [SPY], [IWM], [AAPL], [MSFT]. *)
Definition resultAt (n : nat) : Result.t := nth n (dataOf response0) emptyResult.

(** Rows of a parsed response, for the table. *)
Definition row (sym : string) (change vl q sp iw pr vol : Q) : Client.Row :=
  {| Client.symbol := sym;
     Client.priceChange := VNum (Fin change);
     Client.vlRatio := VNum (Fin vl);
     Client.comparisons :=
       {| Client.vs_QQQ := {| Client.ratio := VNum (Fin q) |};
          Client.vs_SPY := {| Client.ratio := VNum (Fin sp) |};
          Client.vs_IWM := {| Client.ratio := VNum (Fin iw) |} |};
     Client.price := VNum (Fin pr);
     Client.currentVolume := VNum (Fin vol) |}.

Definition rowTSLA : Client.Row := row "TSLA" 2.5 1.2 2 3 4 250 900.
Definition rowSPY : Client.Row := row "SPY" 0.8 0.9 0.8 1 0.5 500 3000.
Definition rowAAPL : Client.Row := row "AAPL" (-1.5) 0.7 (-1) (-2) (-3) 190 800.
Definition rowQQQ : Client.Row := row "QQQ" 1 1.1 1 1.25 0.6 400 2000.
Definition rowNVDA : Client.Row := row "NVDA" 4 2.3 4 5 6 120 700.
Definition rowIWM : Client.Row := row "IWM" 1.6 1 1.6 2 1 200 1000.

Definition table : list Client.Row :=
  [rowTSLA; rowSPY; rowAAPL; rowQQQ; rowNVDA; rowIWM].

End Examples.

(* ================================================================== *)
(** * The rest of the page script: [src/Static/VL-ratio-comparison.js] *)
(* ================================================================== *)

(** Strings of the page, for ASCII text: [split], [trim], [toUpperCase]
    and [join] as ECMAScript defines them on such text. *)
Module Text.
Import Ascii.

(** The ASCII characters that [trim] removes: tab, line feed, vertical
    tab, form feed, carriage return and space. *)
Definition isWhiteSpace (c : ascii) : bool :=
  let n := N_of_ascii c in
  (N.eqb n 32 || (N.leb 9 n && N.leb n 13))%bool.

Definition isLowerCase (c : ascii) : bool :=
  let n := N_of_ascii c in (N.leb 97 n && N.leb n 122)%bool.

Definition toUpperChar (c : ascii) : ascii :=
  if isLowerCase c then ascii_of_N (N_of_ascii c - 32) else c.

Fixpoint toUpperCase (s : string) : string :=
  match s with
  | EmptyString => EmptyString
  | String c rest => String (toUpperChar c) (toUpperCase rest)
  end.

Fixpoint trimStart (s : string) : string :=
  match s with
  | EmptyString => EmptyString
  | String c rest => if isWhiteSpace c then trimStart rest else s
  end.

Fixpoint trimEnd (s : string) : string :=
  match s with
  | EmptyString => EmptyString
  | String c rest =>
      match trimEnd rest with
      | EmptyString => if isWhiteSpace c then EmptyString else String c EmptyString
      | kept => String c kept
      end
  end.

Definition trim (s : string) : string := trimEnd (trimStart s).

(** [s.split(sep)] for a one-character separator: the pieces between the
    separators, the empty ones included; the empty string gives one empty
    piece. *)
Fixpoint split (sep : ascii) (s : string) : list string :=
  match s with
  | EmptyString => [EmptyString]
  | String c rest =>
      if Ascii.eqb c sep then EmptyString :: split sep rest
      else match split sep rest with
           | piece :: pieces => String c piece :: pieces
           | [] => [String c EmptyString]
           end
  end.

(** [arr.join(sep)]. *)
Fixpoint join (sep : string) (arr : list string) : string :=
  match arr with
  | [] => EmptyString
  | [x] => x
  | x :: rest => (x ++ sep ++ join sep rest)%string
  end.

Definition comma : ascii := ascii_of_N 44.

(** A text all of whose characters are ASCII. *)
Fixpoint asciiText (s : string) : Prop :=
  match s with
  | EmptyString => True
  | String c rest => (N_of_ascii c < 128)%N /\ asciiText rest
  end.

Fixpoint allChars (p : ascii -> bool) (s : string) : bool :=
  match s with
  | EmptyString => true
  | String c rest => p c && allChars p rest
  end.

Definition firstChar (s : string) : option ascii :=
  match s with
  | EmptyString => None
  | String c _ => Some c
  end.

Fixpoint lastChar (s : string) : option ascii :=
  match s with
  | EmptyString => None
  | String c EmptyString => Some c
  | String _ rest => lastChar rest
  end.

Definition notComma (c : ascii) : bool := negb (Ascii.eqb c comma).

(** A character of a ticker as the page writes it: ASCII, not a comma,
    not white space, not a lower-case letter. *)
Definition isTickerChar (c : ascii) : bool :=
  (N.ltb (N_of_ascii c) 128 && notComma c &&
   negb (isWhiteSpace c) && negb (isLowerCase c))%bool.

Definition edgeOk (c : option ascii) : Prop :=
  match c with
  | Some x => isWhiteSpace x = false
  | None => True
  end.

End Text.

Module Frontend.
Import JS Client.

(** ** [getSymbolsFromInput] and [prefillStockSymbols] *)

(** Lines 124-130, on the value of the input field. *)
Definition getSymbolsFromInput (input : string) : list string :=
  filter (fun symbol => negb (Nat.eqb (String.length symbol) 0))
         (map (fun symbol => Text.toUpperCase (Text.trim symbol))
              (Text.split Text.comma input)).

(** Line 81: the value [prefillStockSymbols] writes into the field. *)
Definition prefill (stocks : list string) : string := Text.join ", " stocks.

(** [this.defaultStocks]. *)
Definition defaultStocks : list string :=
  [ "VSAT"; "UUUU"; "UPST"; "TEM"; "ROG"; "PKE";
    "OSS"; "ONTO"; "MP"; "LUMN"; "LITE"; "LEU"; "GLW";
    "CRDO"; "COHR"; "CLS"; "BE"; "AVAV" ]%string.

(** A symbol that is not empty and has ticker characters only. *)
Definition cleanSymbol (symbol : string) : Prop :=
  symbol <> EmptyString /\ Text.allChars Text.isTickerChar symbol = true.

(** What every symbol read from the field satisfies. *)
Definition readSymbol (symbol : string) : Prop :=
  symbol <> EmptyString /\
  Text.allChars Text.notComma symbol = true /\
  Text.allChars (fun c => negb (Text.isLowerCase c)) symbol = true /\
  Text.edgeOk (Text.firstChar symbol) /\
  Text.edgeOk (Text.lastChar symbol).

(** ** [createComparisonBadge] *)

(** A comparison as the page reads it from the parsed response. *)
Module Cell.
Record t : Type := {
  ratio : value;
  status : string
}.
End Cell.

(** What the returned markup shows: the dash of a benchmark against
    itself, or a badge - its CSS class, icon and text - above the ratio. *)
Inductive Badge : Type :=
| NoCompare
| Shown (badgeClass icon text : string) (ratio : value).

(** [ratio === 1]. *)
Definition isOne (v : value) : bool :=
  match v with
  | VNum (Fin q) => Qeq_bool q 1
  | _ => false
  end.

(** Lines 229-268. *)
Definition createComparisonBadge
    (comparison : Cell.t) (stockSymbol benchmarkType : string) : Badge :=
  let ratio := Cell.ratio comparison in
  let status := Cell.status comparison in
  if String.eqb stockSymbol benchmarkType then NoCompare
  else
    let adjustedStatus := if isOne ratio then "neutral"%string else status in
    if String.eqb adjustedStatus "stronger"
    then Shown "badge-stronger" "fas fa-arrow-up" "Stronger" ratio
    else if String.eqb adjustedStatus "weaker"
    then Shown "badge-weaker" "fas fa-arrow-down" "Weaker" ratio
    else Shown "badge-neutral" "fas fa-minus" "Neutral" ratio.

(** A number after [JSON.stringify] and [JSON.parse]: [NaN] and the
    infinities are sent as [null]. *)
Definition numberOverJSON (x : num) : value :=
  match x with
  | Fin q => VNum (Fin q)
  | _ => VNull
  end.

(** A comparison of the server after the same transport. *)
Definition cellOverJSON (c : Comparison.t) : Cell.t :=
  {| Cell.ratio := numberOverJSON (Comparison.ratio c);
     Cell.status := match Comparison.status c with
                    | stronger => "stronger"%string
                    | weaker => "weaker"%string
                    end |}.

(** ** The table state: [displayResults] and [sortTable] *)

(** The parsed response kept in [this.lastAnalysisData]. *)
Record AnalysisData : Type := {
  data : list Row;
  timestamp : string;
  requestDate : string
}.

(** The values [this.currentSort.column] takes: [null] at first, then
    [columns[columnIndex]], which is [undefined] for an index outside the
    array. *)
Inductive SortColumn : Type :=
| col_null
| col_undefined
| col_named (c : Column).

Record SortState : Type := {
  column : SortColumn;
  direction : Direction
}.

Record Analyzer : Type := {
  lastAnalysisData : option AnalysisData;
  currentSort : SortState
}.

(** The state the constructor leaves. *)
Definition initial : Analyzer :=
  {| lastAnalysisData := None;
     currentSort := {| column := col_null; direction := asc |} |}.

(** [columns] of [sortTable]. *)
Definition columns : list Column :=
  [c_symbol; c_priceChange; c_vlRatio; c_vsQQQ; c_vsSPY; c_vsIWM; c_price; c_volume].

(** [columns[columnIndex]]. *)
Definition columnAt (columnIndex : Z) : SortColumn :=
  if 0 <=? columnIndex then
    match nth_error columns (Z.to_nat columnIndex) with
    | Some c => col_named c
    | None => col_undefined
    end
  else col_undefined.

Definition columnEqb (a b : Column) : bool :=
  match a, b with
  | c_symbol, c_symbol | c_priceChange, c_priceChange | c_vlRatio, c_vlRatio
  | c_vsQQQ, c_vsQQQ | c_vsSPY, c_vsSPY | c_vsIWM, c_vsIWM
  | c_price, c_price | c_volume, c_volume | c_other, c_other => true
  | _, _ => false
  end.

(** [a === b] on these values. *)
Definition sortColumnEqb (a b : SortColumn) : bool :=
  match a, b with
  | col_null, col_null | col_undefined, col_undefined => true
  | col_named x, col_named y => columnEqb x y
  | _, _ => false
  end.

(** The branch the [switch] of [sortData] takes for a value of
    [column]. *)
Definition switchColumn (c : SortColumn) : Column :=
  match c with
  | col_named x => x
  | _ => c_other
  end.

Definition toggle (d : Direction) : Direction :=
  match d with
  | asc => desc
  | desc => asc
  end.

Section Table.
Variable localeCompare : string -> string -> Z.

(** The comparator of [sortDataWithBenchmarksFirst], lines 165-178. *)
Definition compareInitial (a b : Row) : num :=
  let aIsBenchmark := includes benchmarks (symbol a) in
  let bIsBenchmark := includes benchmarks (symbol b) in
  if aIsBenchmark && negb bIsBenchmark then Fin (-1)
  else if negb aIsBenchmark && bIsBenchmark then Fin 1
  else if aIsBenchmark && bIsBenchmark
  then Fin (inject_Z (indexOf benchmarks (symbol a) - indexOf benchmarks (symbol b)))
  else Fin (inject_Z (localeCompare (symbol a) (symbol b))).

Definition sortDataWithBenchmarksFirst (rows : list Row) : list Row :=
  sort compareInitial rows.

(** [displayResults], lines 132-162: the response is kept, and its
    [data] array is sorted in place - the array kept in
    [this.lastAnalysisData] is that same array, so it is the sorted one -
    and rendered.  The sort state is not touched. *)
Definition displayResults (response : AnalysisData) (st : Analyzer)
  : Analyzer * list Row :=
  let sortedData := sortDataWithBenchmarksFirst (data response) in
  ({| lastAnalysisData :=
        Some {| data := sortedData;
                timestamp := timestamp response;
                requestDate := requestDate response |};
      currentSort := currentSort st |},
   sortedData).

(** [sortTable], lines 303-324: the new state and the rows given to
    [renderTableData]; nothing is rendered when there is no data yet. *)
Definition sortTable (columnIndex : Z) (st : Analyzer)
  : Analyzer * option (list Row) :=
  match lastAnalysisData st with
  | None => (st, None)
  | Some response =>
      let col := columnAt columnIndex in
      let sortState :=
        if sortColumnEqb (column (currentSort st)) col
        then {| column := column (currentSort st);
                direction := toggle (direction (currentSort st)) |}
        else {| column := col; direction := asc |} in
      let sortedData :=
        sortData localeCompare (data response) (switchColumn col)
                 (direction sortState) in
      ({| lastAnalysisData := Some response; currentSort := sortState |},
       Some sortedData)
  end.

(** Two rows the comparator of a column does not tell apart. *)
Definition comparesEqual (col : Column) (a b : Row) : bool :=
  negb (gt (compareRows localeCompare col asc a b) (Fin 0)) &&
  negb (gt (compareRows localeCompare col asc b a) (Fin 0)).

End Table.

End Frontend.

(** Notions for the properties of the server beyond the claims. *)
Module ServerSpec.
Import JS Server.

(** The fetch of a symbol succeeds. *)
Definition fetched (env : Env) (sym : string) : bool :=
  match yahoo env sym with
  | Some _ => true
  | None => false
  end.

(** The requests of a run, and whether the browser was launched. *)
Definition fetchesOf {A : Type} (r : Scraper * list event * outcome A) : list event :=
  filter isFetch (traceOf r).

Definition stateOf {A : Type} (r : Scraper * list event * outcome A) : Scraper :=
  fst (fst r).

Definition launches {A : Type} (r : Scraper * list event * outcome A) : nat :=
  List.length (filter (fun e => negb (isFetch e)) (traceOf r)).

(** A chart as a parsed response has it: one close per timestamp, and
    closes and volumes that are finite numbers or [null]. *)
Definition chartOk (data : ChartData) : Prop :=
  Spec.closesOk data /\ Forall Spec.jsonNumber (volumes data).

Definition finite (x : num) : Prop := exists q : Q, x = Fin q.

(** A volume as the quote service reports it: [null] or a whole number
    of shares, zero or more. *)
Definition wholeVolume (v : value) : Prop :=
  v = VNull \/ exists n : Z, v = VNum (Fin (inject_Z n)) /\ 0 <= n.

End ServerSpec.

(** More concrete inputs. *)
Module MoreExamples.
Import JS Server Frontend.

(** A chart without sessions whose other arrays are not empty. *)
Definition noSessions : ChartData :=
  {| timestamps := [];
     volumes := Examples.numbers [5]%Q;
     closes := Examples.numbers [7]%Q |}.

(** The volume and the close of the latest session are [null]. *)
Definition openSession : ChartData :=
  {| timestamps := [86400; 172800];
     volumes := [VNum (Fin 700); VNull];
     closes := [VNum (Fin 100); VNull] |}.

(** The date functions for days since the epoch: only the second of
    January 1970 is parsed. *)
Definition parseDay (d : string) : num :=
  if String.eqb d "1970-01-02"%string then Fin 86400000 else NaN.

Definition env1 : Env :=
  {| yahoo := Examples.quotes;
     dateParse := parseDay;
     toDateString := Examples.dayString;
     launchError := None;
     now := "1970-01-03T00:00:00.000Z"%string |}.

(** Every fetch fails. *)
Definition envDown : Env :=
  {| yahoo := fun _ => None;
     dateParse := parseDay;
     toDateString := Examples.dayString;
     launchError := None;
     now := "1970-01-03T00:00:00.000Z"%string |}.

(** The browser cannot be launched. *)
Definition envNoBrowser : Env :=
  {| yahoo := Examples.quotes;
     dateParse := parseDay;
     toDateString := Examples.dayString;
     launchError := Some "Failed to launch the browser process"%string;
     now := "1970-01-03T00:00:00.000Z"%string |}.

(** A response as the page receives it, and the page once it is shown. *)
Definition received : AnalysisData :=
  {| data := Examples.table;
     timestamp := "1970-01-03T00:00:00.000Z"%string;
     requestDate := "latest"%string |}.

Definition shownPage : Analyzer :=
  fst (displayResults SortSpec.codePointCompare received initial).

(** Two spellings of one symbol, in UTF-8: the letter U+00C5, and [A]
    followed by the combining ring above, U+030A. *)
Definition ringComposed : string :=
  String (Ascii.ascii_of_N 195) (String (Ascii.ascii_of_N 133) EmptyString).

Definition ringDecomposed : string :=
  String (Ascii.ascii_of_N 65) (String (Ascii.ascii_of_N 204)
                     (String (Ascii.ascii_of_N 138) EmptyString)).

Definition rowComposed : Client.Row := Examples.row ringComposed 1 1 1 1 1 10 100.
Definition rowDecomposed : Client.Row := Examples.row ringDecomposed 2 2 2 2 2 20 200.

Definition spellings : list Client.Row := [rowDecomposed; rowComposed].

(** A table with ties: [TSLA] and [MSFT] moved by the same 2.5 percent,
    [AAPL] and [AMD] by the same -1.5 percent. *)
Definition rowMSFT : Client.Row := Examples.row "MSFT" 2.5 0.4 2 3 4 410 600.
Definition rowAMD : Client.Row := Examples.row "AMD" (-1.5) 1.9 (-1) (-2) (-3) 160 500.

Definition tiedTable : list Client.Row :=
  [Examples.rowTSLA; Examples.rowSPY; Examples.rowAAPL; rowMSFT;
   Examples.rowQQQ; rowAMD].

End MoreExamples.

Module ReductionFacts.
Import JS Server Spec.

Lemma Qeq_bool_false (x y : Q) : ~ (x == y)%Q -> Qeq_bool x y = false.
Proof.
  intro H. destruct (Qeq_bool x y) eqn:E; [|reflexivity].
  apply Qeq_bool_iff in E. contradiction.
Qed.

Lemma Qle_bool_false (x y : Q) : (y < x)%Q -> Qle_bool x y = false.
Proof.
  intro H. destruct (Qle_bool x y) eqn:E; [|reflexivity].
  apply Qle_bool_iff in E. exfalso. apply (Qlt_not_le _ _ H E).
Qed.

Lemma Qle_bool_true (x y : Q) : (x <= y)%Q -> Qle_bool x y = true.
Proof. intro H. now apply Qle_bool_iff. Qed.

Lemma gt_Fin (x y : Q) : gt (Fin x) (Fin y) = true <-> (y < x)%Q.
Proof.
  simpl. split; intro H.
  - destruct (Qle_bool x y) eqn:E; [discriminate|].
    apply Qnot_le_lt. intro C. apply Qle_bool_iff in C. congruence.
  - now rewrite Qle_bool_false.
Qed.

(** *** Slices as index ranges *)

Lemma firstn_skipn_nth {A : Type} (d : A) (l : list A) (n k : nat) :
  (k + n <= List.length l)%nat ->
  firstn n (skipn k l) = map (fun j => nth (k + j) l d) (seq 0 n).
Proof.
  revert k. induction n as [|n IH]; intros k Hk; [reflexivity|].
  assert (Hlt : (k < List.length l)%nat) by lia.
  destruct (skipn k l) as [|x rest] eqn:E.
  - apply (f_equal (@List.length A)) in E. rewrite length_skipn in E.
    simpl in E. lia.
  - assert (Hx : x = nth k l d).
    { rewrite <- (firstn_skipn k l) at 1.
      rewrite app_nth2; rewrite length_firstn; [|lia].
      replace (k - Nat.min k (List.length l))%nat with 0%nat by lia.
      now rewrite E. }
    assert (Hrest : rest = skipn (S k) l).
    { replace (S k) with (1 + k)%nat by lia.
      rewrite <- skipn_skipn. now rewrite E. }
    cbn [firstn seq map]. rewrite Nat.add_0_r, <- Hx. f_equal.
    rewrite Hrest, IH by lia.
    rewrite <- seq_shift, map_map. apply map_ext. intro j.
    f_equal. lia.
Qed.

Lemma slice_indexRange (vols : list value) (lo hi : Z) :
  0 <= lo -> lo <= hi + 1 -> hi < Z.of_nat (List.length vols) ->
  slice vols lo (hi + 1) = map (get vols) (indexRange lo hi).
Proof.
  intros H0 H1 H2. unfold slice, indexRange.
  replace (lo <? 0) with false by (symmetry; apply Z.ltb_ge; lia).
  replace (hi + 1 <? 0) with false by (symmetry; apply Z.ltb_ge; lia).
  rewrite !Z.min_l by lia.
  replace (hi + 1 - lo) with (hi - lo + 1) by lia.
  rewrite (firstn_skipn_nth VUndef) by lia.
  rewrite map_map. apply map_ext_in. intros j Hj. apply in_seq in Hj.
  unfold get. replace (0 <=? lo + Z.of_nat j) with true
    by (symmetry; apply Z.leb_le; lia).
  f_equal. lia.
Qed.

Lemma in_slice {A : Type} (l : list A) (lo hi : Z) (x : A) :
  In x (slice l lo hi) -> In x l.
Proof.
  unfold slice. intro H.
  match type of H with In _ (firstn ?n (skipn ?k _)) =>
    rewrite <- (firstn_skipn k l); apply in_or_app; right;
    rewrite <- (firstn_skipn n (skipn k l)); apply in_or_app; now left
  end.
Qed.

Lemma indexRange_length (lo hi : Z) :
  List.length (indexRange lo hi) = Z.to_nat (hi - lo + 1).
Proof. unfold indexRange. now rewrite length_map, length_seq. Qed.

Lemma in_indexRange (lo hi k : Z) :
  In k (indexRange lo hi) <-> lo <= k <= hi.
Proof.
  unfold indexRange. rewrite in_map_iff. split.
  - intros [n [<- Hn]]. apply in_seq in Hn. lia.
  - intros Hk. exists (Z.to_nat (k - lo)). split; [lia|].
    apply in_seq. lia.
Qed.

(** *** The target index *)

Lemma findIndexFrom_range {A : Type} (p : A -> bool) (arr : list A) (i : Z) :
  findIndexFrom p arr i = -1 \/
  i <= findIndexFrom p arr i < i + Z.of_nat (List.length arr).
Proof.
  revert i. induction arr as [|x rest IH]; intro i; simpl; [now left|].
  destruct (p x); [right; lia|].
  destruct (IH (i + 1)) as [H|H]; [now left | right; lia].
Qed.

Lemma targetIndexOf_range (env : Env) (ts : list Z) (date : option string) :
  -1 <= targetIndexOf env ts date < Z.of_nat (List.length ts).
Proof.
  unfold targetIndexOf. destruct (dateGiven date) as [d|]; [|lia].
  unfold findIndex.
  match goal with |- context [findIndexFrom ?p ts 0] =>
    destruct (findIndexFrom_range p ts 0) as [H|H];
    destruct (findIndexFrom p ts 0 =? -1) eqn:E
  end; lia.
Qed.

Lemma targetIndexOf_nonneg (env : Env) (ts : list Z) (date : option string) :
  ts <> [] -> 0 <= targetIndexOf env ts date.
Proof.
  intro Hne.
  assert (Hlen : 0 < Z.of_nat (List.length ts)) by (destruct ts; [congruence | simpl; lia]).
  unfold targetIndexOf. destruct (dateGiven date) as [d|]; [|lia].
  unfold findIndex.
  match goal with |- context [findIndexFrom ?p ts 0] =>
    destruct (findIndexFrom_range p ts 0) as [H|H];
    destruct (findIndexFrom p ts 0 =? -1) eqn:E
  end; lia.
Qed.

(** *** Sums and means of finite values *)

Lemma jsonNumber_notNull_finite (vs : list value) :
  Forall jsonNumber vs ->
  filter notNull vs = map (fun q => VNum (Fin q)) (finiteParts vs).
Proof.
  induction 1 as [|v rest Hv _ IH]; [reflexivity|].
  destruct Hv as [-> | [q ->]]; simpl; [exact IH | now rewrite IH].
Qed.

Lemma finiteParts_filter_notNull (vs : list value) :
  finiteParts (filter notNull vs) = finiteParts vs.
Proof.
  induction vs as [|v rest IH]; [reflexivity|].
  destruct v as [| |[q| | |]]; simpl; rewrite ?IH; reflexivity.
Qed.

Lemma fold_add_finite (qs : list Q) (a : Q) :
  isQ (fold_left (fun acc v => add acc (toNumber v))
                 (map (fun q => VNum (Fin q)) qs) (Fin a))
      (a + sumQ qs)%Q.
Proof.
  revert a. induction qs as [|q rest IH]; intro a; simpl.
  - exists a. split; [reflexivity | unfold sumQ; simpl; ring].
  - destruct (IH (a + q)%Q) as [r [Hr Hq]]. exists r. split; [exact Hr|].
    rewrite Hq. unfold sumQ. simpl. ring.
Qed.

Lemma reduceSum_finite (qs : list Q) :
  isQ (reduceSum (map (fun q => VNum (Fin q)) qs)) (sumQ qs).
Proof.
  destruct (fold_add_finite qs 0) as [r [Hr Hq]].
  exists r. split; [exact Hr | rewrite Hq; ring].
Qed.

Lemma inject_Z_length_pos {A : Type} (l : list A) :
  l <> [] -> (0 < inject_Z (Z.of_nat (List.length l)))%Q.
Proof.
  intro H. destruct l; [congruence|].
  replace 0%Q with (inject_Z 0) by reflexivity.
  rewrite <- Zlt_Qlt. simpl. lia.
Qed.

(** The average of line 103 over any slice of finite-or-null values. *)
Lemma avgVolumeOf_mean (vols : list value) (i : Z) :
  Forall jsonNumber vols ->
  let present := finiteParts (slice vols (Z.max 0 (i - 9)) (i + 1)) in
  (present = [] -> avgVolumeOf vols i = Fin 0) /\
  (present <> [] -> isQ (avgVolumeOf vols i) (meanQ present)).
Proof.
  intros Hjson present. unfold avgVolumeOf, volumeSlice.
  assert (Hs : Forall jsonNumber (slice vols (Z.max 0 (i - 9)) (i + 1))).
  { apply Forall_forall. intros v Hv. apply in_slice in Hv.
    revert v Hv. now apply Forall_forall. }
  rewrite (jsonNumber_notNull_finite _ Hs). fold present.
  rewrite length_map. split; intro Hp.
  - now rewrite Hp.
  - assert (Hpos := inject_Z_length_pos present Hp).
    replace (0 <? Z.of_nat (List.length present)) with true
      by (symmetry; apply Z.ltb_lt; destruct present; [congruence | simpl; lia]).
    destruct (reduceSum_finite present) as [r [-> Hr]].
    simpl. rewrite Qeq_bool_false by (intro C; rewrite C in Hpos; apply (Qlt_irrefl _ Hpos)).
    exists (r / inject_Z (Z.of_nat (List.length present)))%Q.
    split; [reflexivity|]. unfold meanQ. now rewrite Hr.
Qed.

(** *** Rounding *)

Lemma pow10_pos (d : nat) : (0 < pow10 d)%Q.
Proof.
  unfold pow10. replace 0%Q with (inject_Z 0) by reflexivity.
  rewrite <- Zlt_Qlt. apply Z.pow_pos_nonneg; lia.
Qed.

Lemma nearestUp_close (x : Q) :
  (Qabs (inject_Z (nearestUp x) - x) <= 1 # 2)%Q.
Proof.
  unfold nearestUp.
  assert (H1 := Qfloor_le (x + (1 # 2))).
  assert (H2 := Qlt_floor (x + (1 # 2))).
  rewrite inject_Z_plus in H2. change (inject_Z 1) with 1%Q in H2.
  apply (proj2 (Qabs_Qle_condition _ _)). split; lra.
Qed.

Lemma scaled_close (P a x : Q) :
  (0 < P)%Q -> (Qabs (a - x * P) <= 1 # 2)%Q ->
  (Qabs (a / P - x) <= (1 # 2) / P)%Q.
Proof.
  intros HP H. apply Qabs_Qle_condition in H. destruct H as [H1 H2].
  apply (proj2 (Qabs_Qle_condition _ _)).
  assert (Hi : (0 < / P)%Q) by now apply Qinv_lt_0_compat.
  assert (E1 : (a / P - x == (a - x * P) * / P)%Q) by (field; lra).
  assert (E2 : ((1 # 2) / P == (1 # 2) * / P)%Q) by (field; lra).
  rewrite E1, E2. split.
  - setoid_replace (- ((1 # 2) * / P))%Q with ((- (1 # 2)) * / P)%Q by ring.
    apply Qmult_le_compat_r; lra.
  - apply Qmult_le_compat_r; lra.
Qed.

Lemma toFixed_roundedTo (d : nat) (x : num) : roundedTo d x (toFixed d x).
Proof.
  destruct x as [q| | |]; cbn [roundedTo toFixed]; try reflexivity.
  assert (HP := pow10_pos d).
  destruct (Qle_bool 0 q) eqn:E.
  - exists (inject_Z (nearestUp (q * pow10 d)) / pow10 d)%Q,
           (nearestUp (q * pow10 d)).
    split; [reflexivity|]. split; [reflexivity|].
    apply scaled_close; [exact HP | apply nearestUp_close].
  - exists (- (inject_Z (nearestUp (- q * pow10 d)) / pow10 d))%Q,
           (- nearestUp (- q * pow10 d)).
    split; [reflexivity|]. split.
    + rewrite inject_Z_opp. field. lra.
    + assert (H := scaled_close (pow10 d) (inject_Z (nearestUp (- q * pow10 d)))
                     (- q) HP (nearestUp_close _)).
      apply Qabs_Qle_condition in H. apply (proj2 (Qabs_Qle_condition _ _)).
      destruct H as [H1 H2]. split; lra.
Qed.

Lemma round_roundedToInteger (x : num) : roundedToInteger x (round x).
Proof.
  destruct x as [q| | |]; cbn [roundedToInteger round]; try reflexivity.
  exists (Qfloor (q + (1 # 2))). split; [reflexivity|].
  apply (nearestUp_close q).
Qed.

(** *** Average volume *)

Lemma windowVolumes_slice (vols : list value) (i : Z) :
  0 <= i < Z.of_nat (List.length vols) ->
  slice vols (Z.max 0 (i - 9)) (i + 1) = windowVolumes vols i.
Proof.
  intro Hi. unfold windowVolumes, windowIndices.
  apply slice_indexRange; lia.
Qed.

(** C1.  For a non-empty series whose volumes are finite numbers or
    [null], the [avgVolume] that [getStockDataAPI] computes at the
    resolved target index [i] is the arithmetic mean of the non-null
    volumes at the indices [max(0, i-9) .. i] (there are [min(10, i+1)]
    of them), and is [0] when all of these are [null]. *)
Theorem avgVolume_window_mean
    (env : Env) (sym : string) (date : option string) (data : ChartData) :
  timestamps data <> [] ->
  List.length (volumes data) = List.length (timestamps data) ->
  Forall jsonNumber (volumes data) ->
  let i := targetIndexOf env (timestamps data) date in
  let window := windowVolumes (volumes data) i in
  let present := finiteParts (filter notNull window) in
  0 <= i < Z.of_nat (List.length (timestamps data)) /\
  Z.of_nat (List.length window) = Z.min 10 (i + 1) /\
  (present = [] ->
   Stock.avgVolume (reduceChart env sym date data) = Fin 0) /\
  (present <> [] ->
   isQ (Stock.avgVolume (reduceChart env sym date data)) (meanQ present)).
Proof.
  intros Hne Hlen Hjson i window present.
  assert (Hi : 0 <= i < Z.of_nat (List.length (timestamps data))).
  { split; [now apply targetIndexOf_nonneg | apply targetIndexOf_range]. }
  split; [exact Hi|]. split.
  - unfold window, windowVolumes, windowIndices.
    rewrite length_map, indexRange_length. lia.
  - unfold present, window. rewrite finiteParts_filter_notNull.
    rewrite <- windowVolumes_slice by (rewrite Hlen; exact Hi).
    cbn [reduceChart Stock.avgVolume]. fold i.
    now apply avgVolumeOf_mean.
Qed.

(** *** Volume ratio *)

Lemma get_cases (arr : list value) (i : Z) :
  get arr i = VUndef \/ In (get arr i) arr.
Proof.
  unfold get. destruct (0 <=? i); [|now left].
  destruct (nth_in_or_default (Z.to_nat i) arr VUndef) as [H|H]; auto.
Qed.

Lemma volumeOk_jsonNumber (v : value) : volumeOk v -> jsonNumber v.
Proof. intros [H | [q [H _]]]; [now left | right; now exists q]. Qed.

Lemma currentVolume_nonneg (vols : list value) (i : Z) :
  Forall volumeOk vols ->
  exists c : Q, toNumber (currentVolumeOf vols i) = Fin c /\ (0 <= c)%Q.
Proof.
  intro Hok. unfold currentVolumeOf, orElse.
  destruct (get_cases vols i) as [-> | Hin].
  - exists 0%Q. split; [reflexivity | lra].
  - rewrite Forall_forall in Hok. destruct (Hok _ Hin) as [-> | [q [-> Hq]]].
    + exists 0%Q. split; [reflexivity | lra].
    + simpl. destruct (Qeq_bool q 0); simpl.
      * exists 0%Q. split; [reflexivity | lra].
      * now exists q.
Qed.

Lemma avgVolumeOf_finite (vols : list value) (i : Z) :
  Forall jsonNumber vols -> exists a : Q, avgVolumeOf vols i = Fin a.
Proof.
  intro Hjson. destruct (avgVolumeOf_mean vols i Hjson) as [H0 H1].
  destruct (finiteParts (slice vols (Z.max 0 (i - 9)) (i + 1))) as [|q rest] eqn:E.
  - exists 0%Q. now apply H0.
  - destruct H1 as [a [Ha _]]; [discriminate | now exists a].
Qed.

Lemma vlRatioOf_nonneg (vols : list value) (i : Z) :
  Forall volumeOk vols ->
  exists r : Q, vlRatioOf vols i = Fin r /\ (0 <= r)%Q.
Proof.
  intro Hok. unfold vlRatioOf.
  destruct (avgVolumeOf_finite vols i) as [a Ha].
  { eapply Forall_impl; [|exact Hok]. apply volumeOk_jsonNumber. }
  destruct (currentVolume_nonneg vols i Hok) as [c [Hc Hc0]].
  rewrite Ha, Hc. destruct (gt (Fin a) (Fin 0)) eqn:G.
  - apply gt_Fin in G. cbn [div].
    rewrite Qeq_bool_false by lra.
    exists (c / a)%Q. split; [reflexivity|].
    apply Qle_shift_div_l; lra.
  - exists 0%Q. split; [reflexivity | lra].
Qed.

(** C7.  When every volume of the series is [null] or a finite
    non-negative number, the volume ratio is a finite number (neither
    [NaN] nor an infinity) and is not negative; when the average volume
    is [0] the ratio is the constant [0], no division takes place. *)
Theorem vlRatio_finite_nonneg
    (env : Env) (sym : string) (date : option string) (data : ChartData) :
  Forall volumeOk (volumes data) ->
  (exists r : Q,
      Stock.vlRatio (reduceChart env sym date data) = Fin r /\ (0 <= r)%Q) /\
  (forall a : Q,
      Stock.avgVolume (reduceChart env sym date data) = Fin a -> (a == 0)%Q ->
      Stock.vlRatio (reduceChart env sym date data) = Fin 0).
Proof.
  intro Hok. split.
  - now apply vlRatioOf_nonneg.
  - intros a Ha Hz. cbn [reduceChart Stock.avgVolume Stock.vlRatio] in *.
    unfold vlRatioOf. rewrite Ha.
    destruct (gt (Fin a) (Fin 0)) eqn:G; [|reflexivity].
    apply gt_Fin in G. lra.
Qed.

(** *** Price change *)

Lemma ratio_of_equal (c : Q) : (0 < c)%Q -> ((c - c) / c * 100 == 0)%Q.
Proof. intro H. field. lra. Qed.

Lemma priceChangeOf_fallback (cls : list value) (i : Z) (c : Q) :
  get cls i = VNum (Fin c) ->
  truthy (get cls (i - 1)) = false ->
  isQ (priceChangeOf cls i) 0.
Proof.
  intros Hc Hp. unfold priceChangeOf, previousPriceOf, orElse.
  rewrite Hp, Hc. cbn [toNumber].
  destruct (gt (Fin c) (Fin 0)) eqn:G.
  - apply gt_Fin in G. cbn [sub neg add div mul].
    rewrite Qeq_bool_false by lra.
    eexists. split; [reflexivity|].
    setoid_replace (c + - c)%Q with (c - c)%Q by ring.
    now apply ratio_of_equal.
  - exists 0%Q. split; reflexivity.
Qed.

(** C6, as the code has it.  With a finite current close [c] at the
    resolved target index [i], the price change of line 112 is
    [((c - p) / p) * 100] when the close [p] at [i - 1] is positive, and
    [0] when [i = 0] or that close is [null], zero or negative; the
    [priceChange] that is returned is this value rounded to two
    decimals. *)
Theorem priceChange_formula
    (env : Env) (sym : string) (date : option string) (data : ChartData) (c : Q) :
  let i := targetIndexOf env (timestamps data) date in
  let raw := priceChangeOf (closes data) i in
  get (closes data) i = VNum (Fin c) ->
  roundedTo 2 raw (Stock.priceChange (reduceChart env sym date data)) /\
  (forall p : Q,
      get (closes data) (i - 1) = VNum (Fin p) -> (0 < p)%Q ->
      isQ raw ((c - p) / p * 100)) /\
  (i = 0 \/ get (closes data) (i - 1) = VNull \/
   (exists p : Q, get (closes data) (i - 1) = VNum (Fin p) /\ (p <= 0)%Q) ->
   isQ raw 0).
Proof.
  intros i raw Hc. split; [apply toFixed_roundedTo|]. split.
  - intros p Hp Hpos. unfold raw, priceChangeOf, previousPriceOf, orElse.
    rewrite Hp, Hc. cbn [truthy toNumber].
    rewrite Qeq_bool_false by lra. cbn [negb toNumber].
    rewrite (proj2 (gt_Fin p 0) Hpos). cbn [sub neg add div mul].
    rewrite Qeq_bool_false by lra.
    eexists. split; [reflexivity|]. field. lra.
  - intros [H0 | [Hnull | [p [Hp Hle]]]].
    + apply (priceChangeOf_fallback _ _ c Hc). rewrite H0. reflexivity.
    + apply (priceChangeOf_fallback _ _ c Hc). now rewrite Hnull.
    + destruct (Qeq_bool p 0) eqn:E.
      * apply (priceChangeOf_fallback _ _ c Hc). rewrite Hp. simpl. now rewrite E.
      * unfold raw, priceChangeOf, previousPriceOf, orElse.
        rewrite Hp. cbn [truthy toNumber]. rewrite E. cbn [negb toNumber].
        replace (gt (Fin p) (Fin 0)) with false.
        -- exists 0%Q. split; reflexivity.
        -- symmetry. simpl. now rewrite Qle_bool_true.
Qed.

(** *** The theorems at concrete inputs *)

Ltac json_list :=
  repeat first
    [ apply Forall_nil
    | apply Forall_cons; [first [now left | right; eexists; reflexivity]|] ].

Ltac volume_list :=
  repeat first
    [ apply Forall_nil
    | apply Forall_cons;
      [first [now left | right; eexists; split; [reflexivity | lra]]|] ].

(** The scenario of the specification: closes 100 and 110, volumes 1000
    and 3000, latest session. *)
Example twoSessions_metrics :
  let s := reduceChart Examples.env0 "MSFT" None Examples.twoSessions in
  isQ (Stock.priceChange s) 10 /\ Stock.currentVolume s = VNum (Fin 3000) /\
  isQ (Stock.avgVolume s) 2000 /\ isQ (Stock.vlRatio s) (3 # 2).
Proof.
  cbv zeta. repeat split; try (eexists; split; [reflexivity|]); reflexivity.
Qed.

(** C1 at the two sessions: the window has both volumes and their mean
    is 2000. *)
Lemma avgVolume_window_mean_witness :
  let data := Examples.twoSessions in
  let i := targetIndexOf Examples.env0 (timestamps data) None in
  let window := windowVolumes (volumes data) i in
  let present := finiteParts (filter notNull window) in
  0 <= i < Z.of_nat (List.length (timestamps data)) /\
  Z.of_nat (List.length window) = Z.min 10 (i + 1) /\
  (present = [] ->
   Stock.avgVolume (reduceChart Examples.env0 "MSFT" None data) = Fin 0) /\
  (present <> [] ->
   isQ (Stock.avgVolume (reduceChart Examples.env0 "MSFT" None data))
       (meanQ present)).
Proof.
  apply (avgVolume_window_mean Examples.env0 "MSFT" None Examples.twoSessions);
    [discriminate | reflexivity | json_list].
Defined.

(** C7 at a series with a [null] volume. *)
Lemma vlRatio_finite_nonneg_witness :
  (exists r : Q,
      Stock.vlRatio (reduceChart Examples.env0 "IWM" None Examples.up30) = Fin r /\
      (0 <= r)%Q) /\
  (forall a : Q,
      Stock.avgVolume (reduceChart Examples.env0 "IWM" None Examples.up30) = Fin a ->
      (a == 0)%Q ->
      Stock.vlRatio (reduceChart Examples.env0 "IWM" None Examples.up30) = Fin 0).
Proof.
  apply (vlRatio_finite_nonneg Examples.env0 "IWM" None Examples.up30).
  volume_list.
Defined.

(** C6 as stated fails on a series with negative closes: from -4 to -2
    the formula gives -50, the code gives 0. *)
Lemma priceChange_negative_previous_close : ~ priceChangeAsStated.
Proof.
  intro H.
  specialize (H Examples.env0 None Examples.negativeCloses (-2) (-4))%Q.
  cbv zeta in H.
  destruct H as [r [Hr Hq]];
    [discriminate | reflexivity | reflexivity | intro C; discriminate C |].
  vm_compute in Hr. injection Hr as <-. vm_compute in Hq. discriminate Hq.
Qed.

(** The same series through the whole reduction: the target index is 1,
    the previous close is -4, and the [priceChange] returned is 0. *)
Example negativeCloses_metrics :
  let data := Examples.negativeCloses in
  let i := targetIndexOf Examples.env0 (timestamps data) None in
  i = 1 /\ get (closes data) (i - 1) = VNum (Fin (-4)) /\
  get (closes data) i = VNum (Fin (-2)) /\
  priceChangeOf (closes data) i = Fin 0 /\
  isQ (Stock.priceChange (reduceChart Examples.env0 "CL=F" None data)) 0.
Proof.
  cbv zeta. repeat split; try reflexivity.
  eexists. split; reflexivity.
Qed.

(** C6, amended, at the two sessions: from 100 to 110. *)
Lemma priceChange_formula_witness :
  isQ (priceChangeOf (closes Examples.twoSessions) 1) ((110 - 100) / 100 * 100) /\
  roundedTo 2 (priceChangeOf (closes Examples.twoSessions) 1)
    (Stock.priceChange (reduceChart Examples.env0 "MSFT" None Examples.twoSessions)).
Proof.
  destruct (priceChange_formula Examples.env0 "MSFT" None Examples.twoSessions
              110 eq_refl) as (Hround & Hpos & _).
  split; [|exact Hround].
  apply (Hpos 100%Q eq_refl). reflexivity.
Defined.

End ReductionFacts.

Module HandlerFacts.
Import JS Server Spec ReductionFacts.

Section Run.
Variable env : Env.

Lemma mapM_getStockDataAPI (d : option string) (l : list string) (s : Scraper) :
  mapM (fun sym => getStockDataAPI env sym d) l s =
  (s, map HttpGet l, Done (map (fun sym => stockOf env sym d) l)).
Proof.
  induction l as [|x rest IH]; [reflexivity|].
  cbn [mapM]. unfold bind at 1. unfold getStockDataAPI at 1.
  unfold bind at 1, emit, ret. cbn [app].
  unfold bind at 1. rewrite IH. unfold ret. rewrite app_nil_r. reflexivity.
Qed.

Lemma analyze_rejected (req : Body) (s : Scraper) :
  isArray (symbols req) = false ->
  analyze env req s =
  (s, [], Done (json 400 (ErrorBody "Symbols array is required" None))).
Proof.
  intro H. unfold analyze, tryCatch, analyzeBody.
  rewrite H. rewrite orb_true_r. reflexivity.
Qed.

Lemma analyze_array (items : list string) (d : option string) (s : Scraper) :
  analyze env {| symbols := SymArray items; date := d |} s =
  if browser s
  then (s, map HttpGet (allSymbolsOf items), Done (settled env d items))
  else match launchError env with
       | Some msg =>
           (s, [Launch],
            Done (json 500 (ErrorBody "Internal server error" (Some msg))))
       | None =>
           ({| browser := true |}, Launch :: map HttpGet (allSymbolsOf items),
            Done (settled env d items))
       end.
Proof.
  unfold analyze, tryCatch, analyzeBody.
  cbn [symbols date symbolsFalsy isArray orb negb].
  unfold bind at 1. unfold getBrowser.
  destruct (browser s) eqn:Hb; cbn [negb].
  - unfold bind at 1. unfold ret at 1.
    unfold bind at 1. rewrite mapM_getStockDataAPI.
    fold (allSymbolsOf items). fold (validResultsOf env d items).
    unfold settled, requestDateOf.
    destruct (Z.of_nat (List.length (validResultsOf env d items)) =? 0);
      unfold ret; cbn [app]; rewrite app_nil_r; reflexivity.
  - unfold bind at 1. unfold initialize. unfold bind at 1. unfold emit.
    destruct (launchError env) as [msg|].
    + reflexivity.
    + unfold setBrowser. unfold bind at 1. rewrite mapM_getStockDataAPI.
      fold (allSymbolsOf items). fold (validResultsOf env d items).
      unfold settled, requestDateOf.
      destruct (Z.of_nat (List.length (validResultsOf env d items)) =? 0);
        unfold ret; cbn [app]; rewrite app_nil_r; reflexivity.
Qed.

(** *** The fetched symbols and the valid results *)

Lemma existsb_eqb_In (x : string) (l : list string) :
  existsb (String.eqb x) l = true <-> In x l.
Proof.
  rewrite existsb_exists. split.
  - intros [y [Hy E]]. apply String.eqb_eq in E. now subst.
  - intro H. exists x. split; [exact H | apply String.eqb_refl].
Qed.

Lemma in_dedupe (x : string) (xs seen : list string) :
  In x (dedupe seen xs) <-> In x xs /\ ~ In x seen.
Proof.
  revert seen. induction xs as [|y rest IH]; intro seen; cbn [dedupe].
  - simpl. tauto.
  - destruct (existsb (String.eqb y) seen) eqn:E.
    + apply existsb_eqb_In in E. rewrite IH. simpl. split.
      * tauto.
      * intros [[-> | H] Hn]; [contradiction | tauto].
    + assert (Hy : ~ In y seen).
      { intro C. apply existsb_eqb_In in C. congruence. }
      cbn [In]. rewrite IH. cbn [In]. split.
      * intros [-> | [H Hn]]; [tauto|]. split; [tauto|]. tauto.
      * intros [[-> | H] Hn]; [tauto|].
        destruct (String.eqb_spec y x) as [->|Hne]; [tauto|].
        right. split; [exact H|]. intros [C|C]; [congruence | contradiction].
Qed.

Lemma in_allSymbolsOf (x : string) (items : list string) :
  In x (allSymbolsOf items) <-> In x benchmarks \/ In x items.
Proof.
  unfold allSymbolsOf, uniq. rewrite in_dedupe, in_app_iff. simpl. tauto.
Qed.

Lemma stockOf_symbol (sym : string) (d : option string) (r : Stock.t) :
  stockOf env sym d = Some r -> Stock.symbol r = sym.
Proof.
  unfold stockOf. destruct (yahoo env sym); [|discriminate].
  intro H. injection H as <-. reflexivity.
Qed.

Lemma in_nonNull {A : Type} (x : A) (rs : list (option A)) :
  In x (nonNull rs) <-> In (Some x) rs.
Proof.
  induction rs as [|[y|] rest IH]; simpl; [tauto | |].
  - rewrite IH. split; intros [H|H]; auto; left; congruence.
  - rewrite IH. split; [auto | intros [H|H]; [discriminate | exact H]].
Qed.

Lemma in_validResultsOf (d : option string) (items : list string) (r : Stock.t) :
  In r (validResultsOf env d items) <->
  In (Stock.symbol r) (allSymbolsOf items) /\
  stockOf env (Stock.symbol r) d = Some r.
Proof.
  unfold validResultsOf. rewrite in_nonNull, in_map_iff. split.
  - intros [sym [H Hin]]. rewrite (stockOf_symbol _ _ _ H). now split.
  - intros [Hin H]. now exists (Stock.symbol r).
Qed.

Lemma findSymbol_nonNull (B : string) (d : option string) (l : list string) :
  findSymbol B (nonNull (map (fun sym => stockOf env sym d) l)) =
  if existsb (String.eqb B) l then stockOf env B d else None.
Proof.
  induction l as [|x rest IH]; [reflexivity|].
  cbn [map existsb]. destruct (stockOf env x d) as [r|] eqn:Hx; cbn [nonNull].
  - unfold findSymbol, find in *. cbn [List.find].
    rewrite (stockOf_symbol _ _ _ Hx).
    rewrite (String.eqb_sym B x).
    destruct (String.eqb_spec x B) as [->|Hne]; [now rewrite Hx | exact IH].
  - rewrite IH. destruct (String.eqb_spec B x) as [->|Hne]; [|reflexivity].
    cbn [orb]. rewrite Hx. now destruct (existsb (String.eqb x) rest).
Qed.

Lemma findSymbol_benchmark (B : string) (d : option string) (items : list string) :
  In B benchmarks ->
  findSymbol B (validResultsOf env d items) = stockOf env B d.
Proof.
  intro HB. unfold validResultsOf. rewrite findSymbol_nonNull.
  replace (existsb (String.eqb B) (allSymbolsOf items)) with true; [reflexivity|].
  symmetry. apply existsb_eqb_In, in_allSymbolsOf. now left.
Qed.

(** Every element of a response's [data] is the analysis of a fetched
    symbol against the three benchmark fetches. *)
Lemma data_inv (req : Body) (s : Scraper) (resp : Response) (r : Result.t) :
  responseOf env req s = Some resp ->
  In r (dataOf resp) ->
  exists stock : Stock.t,
    stockOf env (Result.symbol r) (date req) = Some stock /\
    r = analysisOf (stockOf env "QQQ" (date req))
                   (stockOf env "SPY" (date req))
                   (stockOf env "IWM" (date req)) stock.
Proof.
  intros Hresp Hin. destruct req as [sy d]. cbn [date].
  assert (Hsettled : forall items, In r (dataOf (settled env d items)) ->
    exists stock : Stock.t,
      stockOf env (Result.symbol r) d = Some stock /\
      r = analysisOf (stockOf env "QQQ" d) (stockOf env "SPY" d)
                     (stockOf env "IWM" d) stock).
  { intros items H. unfold settled in H.
    destruct (Z.of_nat (List.length (validResultsOf env d items)) =? 0);
      [destruct H|].
    cbn [dataOf json body] in H. apply in_map_iff in H.
    destruct H as [stock [<- Hs]].
    rewrite !findSymbol_benchmark by (simpl; auto).
    apply in_validResultsOf in Hs. destruct Hs as [_ Hs].
    exists stock. split; [exact Hs | reflexivity]. }
  unfold responseOf in Hresp.
  destruct sy as [| | b | n | str | | items];
    try (rewrite analyze_rejected in Hresp by reflexivity;
         injection Hresp as <-; destruct Hin).
  rewrite analyze_array in Hresp.
  destruct (browser s).
  - injection Hresp as <-. eauto.
  - destruct (launchError env).
    + injection Hresp as <-. destruct Hin.
    + injection Hresp as <-. eauto.
Qed.

Lemma success_inv (req : Body) (s : Scraper) (resp : Response)
    (data : list Result.t) (t rd : string) :
  responseOf env req s = Some resp ->
  body resp = AnalysisBody data t rd ->
  exists items : list string,
    symbols req = SymArray items /\
    data = map (analysisOf (stockOf env "QQQ" (date req))
                           (stockOf env "SPY" (date req))
                           (stockOf env "IWM" (date req)))
               (validResultsOf env (date req) items).
Proof.
  intros Hresp Hbody. destruct req as [sy d]. cbn [date symbols].
  assert (Hsettled : forall items, resp = settled env d items ->
    data = map (analysisOf (stockOf env "QQQ" d) (stockOf env "SPY" d)
                           (stockOf env "IWM" d)) (validResultsOf env d items)).
  { intros items ->. unfold settled in Hbody.
    destruct (Z.of_nat (List.length (validResultsOf env d items)) =? 0);
      [discriminate|].
    cbn [json body] in Hbody. injection Hbody as <- _ _.
    now rewrite !findSymbol_benchmark by (simpl; auto). }
  unfold responseOf in Hresp.
  destruct sy as [| | b | n | str | | items];
    try (rewrite analyze_rejected in Hresp by reflexivity;
         injection Hresp as <-; discriminate).
  exists items. split; [reflexivity|].
  rewrite analyze_array in Hresp.
  destruct (browser s).
  - injection Hresp as <-. now apply Hsettled.
  - destruct (launchError env).
    + injection Hresp as <-. discriminate.
    + injection Hresp as <-. now apply Hsettled.
Qed.

Lemma property_vs (B : string) (qqq spy iwm : option Stock.t) (stock : Stock.t) :
  In B benchmarks ->
  exists bench : option Stock.t,
    property (vs B) (Result.comparisons (analysisOf qqq spy iwm stock)) =
    Some (comparison (compareTo bench stock)) /\
    ((B = "QQQ" /\ bench = qqq) \/ (B = "SPY" /\ bench = spy) \/
     (B = "IWM" /\ bench = iwm))%string.
Proof.
  intros [<- | [<- | [<- | []]]].
  - exists qqq. split; [reflexivity | tauto].
  - exists spy. split; [reflexivity | tauto].
  - exists iwm. split; [reflexivity | tauto].
Qed.

(** What an element of [data] holds, in terms of the fetches. *)
Lemma result_inv (req : Body) (s : Scraper) (resp : Response) (r : Result.t) :
  responseOf env req s = Some resp ->
  In r (dataOf resp) ->
  exists stock : Stock.t,
    stockOf env (Result.symbol r) (date req) = Some stock /\
    Result.vlRatio r = toFixed 3 (Stock.vlRatio stock) /\
    Result.avgVolume r = round (Stock.avgVolume stock) /\
    forall B : string, In B benchmarks ->
      property (vs B) (Result.comparisons r) =
      Some (comparison (compareTo (stockOf env B (date req)) stock)).
Proof.
  intros Hresp Hin.
  destruct (data_inv req s resp r Hresp Hin) as [stock [Hs ->]].
  exists stock. split; [exact Hs|]. split; [reflexivity|].
  split; [reflexivity|]. intros B HB.
  destruct (property_vs B (stockOf env "QQQ" (date req))
              (stockOf env "SPY" (date req)) (stockOf env "IWM" (date req))
              stock HB) as [bench [Hp Hb]].
  rewrite Hp. destruct Hb as [[-> ->] | [[-> ->] | [-> ->]]]; reflexivity.
Qed.

End Run.

(** *** Comparisons *)

Lemma toFixed_one (d : nat) (q : Q) : (q == 1)%Q -> isQ (toFixed d (Fin q)) 1.
Proof.
  intro H. cbn [toFixed]. rewrite Qle_bool_true by lra.
  eexists. split; [reflexivity|].
  assert (HP := pow10_pos d).
  assert (Hn : nearestUp (q * pow10 d) = (10 ^ Z.of_nat d)%Z).
  { unfold nearestUp. rewrite H, Qmult_1_l. unfold pow10.
    rewrite <- (Qfloor_Z (10 ^ Z.of_nat d)) at 2.
    apply Z.le_antisymm.
    - rewrite Qfloor_Z.
      assert (L := Qfloor_le (inject_Z (10 ^ Z.of_nat d) + (1 # 2))).
      assert (Hlt : (inject_Z (Qfloor (inject_Z (10 ^ Z.of_nat d) + (1 # 2)))
                     < inject_Z (10 ^ Z.of_nat d + 1))%Q).
      { rewrite inject_Z_plus. change (inject_Z 1) with 1%Q. lra. }
      rewrite <- Zlt_Qlt in Hlt. lia.
    - apply Qfloor_resp_le. lra. }
  rewrite Hn. fold (pow10 d). field. lra.
Qed.

Lemma comparison_of_one (q : Q) :
  (q == 1)%Q ->
  isQ (Comparison.ratio (comparison (Fin q))) 1 /\
  Comparison.status (comparison (Fin q)) = weaker.
Proof.
  intro H. unfold comparison. cbn [Comparison.ratio Comparison.status]. split.
  - now apply toFixed_one.
  - replace (gt (Fin q) (Fin 1)) with false; [reflexivity|].
    symmetry. simpl. rewrite Qle_bool_true by lra. reflexivity.
Qed.

Lemma comparison_status (c : num) :
  Comparison.status (comparison c) = stronger <-> gt c (Fin 1) = true.
Proof.
  unfold comparison. cbn [Comparison.status].
  destruct (gt c (Fin 1)); split; congruence.
Qed.

(** C2, as the code has it.  When the fetch of a benchmark [B] fails,
    every result of the response still carries the comparison with [B]:
    its ratio is the default [1] and its status is [weaker]. *)
Theorem missing_benchmark_defaults
    (env : Env) (req : Body) (s : Scraper) (resp : Response)
    (B : string) (r : Result.t) :
  In B benchmarks ->
  stockOf env B (date req) = None ->
  responseOf env req s = Some resp ->
  In r (dataOf resp) ->
  exists c : Comparison.t,
    property (vs B) (Result.comparisons r) = Some c /\
    isQ (Comparison.ratio c) 1 /\
    Comparison.status c = weaker.
Proof.
  intros HB Hmiss Hresp Hin.
  destruct (result_inv env req s resp r Hresp Hin) as [stock [_ [_ [_ Hc]]]].
  rewrite (Hc B HB), Hmiss. cbn [compareTo].
  eexists. split; [reflexivity|].
  apply comparison_of_one. reflexivity.
Qed.

(** C5, as the code has it.  In every result, the comparison with a
    benchmark [B] whose price change is [0] has ratio [1] and status
    [weaker]; and the status of a comparison is [stronger] exactly when
    the ratio computed for it (lines 180-182), before it is rounded to
    three decimals, is greater than [1], and [weaker] otherwise: for
    finite price changes [ps] of the symbol and [pb <> 0] of the
    benchmark, exactly when [ps / pb > 1]. *)
Theorem comparison_ratio_and_status
    (env : Env) (req : Body) (s : Scraper) (resp : Response)
    (B : string) (r : Result.t) :
  In B benchmarks ->
  responseOf env req s = Some resp ->
  In r (dataOf resp) ->
  exists (stock : Stock.t) (c : Comparison.t),
    stockOf env (Result.symbol r) (date req) = Some stock /\
    property (vs B) (Result.comparisons r) = Some c /\
    (forall (b : Stock.t) (z : Q),
        stockOf env B (date req) = Some b ->
        Stock.priceChange b = Fin z -> (z == 0)%Q ->
        isQ (Comparison.ratio c) 1 /\ Comparison.status c = weaker) /\
    (Comparison.status c = stronger <->
     gt (compareTo (stockOf env B (date req)) stock) (Fin 1) = true) /\
    (Comparison.status c = weaker <->
     gt (compareTo (stockOf env B (date req)) stock) (Fin 1) = false) /\
    (forall (b : Stock.t) (ps pb : Q),
        stockOf env B (date req) = Some b ->
        Stock.priceChange stock = Fin ps ->
        Stock.priceChange b = Fin pb -> ~ (pb == 0)%Q ->
        (Comparison.status c = stronger <-> (1 < ps / pb)%Q)).
Proof.
  intros HB Hresp Hin.
  destruct (result_inv env req s resp r Hresp Hin) as [stock [Hs [_ [_ Hc]]]].
  exists stock. eexists. split; [exact Hs|]. split; [apply (Hc B HB)|].
  split; [|split; [|split]].
  - intros b z Hb Hz Hz0. rewrite Hb. cbn [compareTo]. rewrite Hz.
    replace (strictNeq (Fin z) (Fin 0)) with false.
    + apply comparison_of_one. reflexivity.
    + symmetry. simpl. apply negb_false_iff. now apply Qeq_bool_iff.
  - apply comparison_status.
  - unfold comparison. cbn [Comparison.status].
    destruct (gt _ (Fin 1)); split; congruence.
  - intros b ps pb Hb Hps Hpb Hne.
    rewrite comparison_status, Hb. cbn [compareTo]. rewrite Hps, Hpb.
    cbn [strictNeq]. rewrite (Qeq_bool_false _ _ Hne). cbn [negb div].
    rewrite (Qeq_bool_false _ _ Hne). apply gt_Fin.
Qed.

(** C9.  In every result, [vlRatio] is the computed volume ratio rounded
    to three decimals, [avgVolume] is the computed mean rounded to the
    nearest integer, each comparison ratio is the computed comparison
    rounded to three decimals, and each status is decided by the computed
    comparison itself, not by its rounding. *)
Theorem result_rounding
    (env : Env) (req : Body) (s : Scraper) (resp : Response) (r : Result.t) :
  responseOf env req s = Some resp ->
  In r (dataOf resp) ->
  exists stock : Stock.t,
    stockOf env (Result.symbol r) (date req) = Some stock /\
    roundedTo 3 (Stock.vlRatio stock) (Result.vlRatio r) /\
    roundedToInteger (Stock.avgVolume stock) (Result.avgVolume r) /\
    forall B : string, In B benchmarks ->
      exists c : Comparison.t,
        property (vs B) (Result.comparisons r) = Some c /\
        roundedTo 3 (compareTo (stockOf env B (date req)) stock)
                    (Comparison.ratio c) /\
        (Comparison.status c = stronger <->
         gt (compareTo (stockOf env B (date req)) stock) (Fin 1) = true).
Proof.
  intros Hresp Hin.
  destruct (result_inv env req s resp r Hresp Hin) as [stock [Hs [Hv [Ha Hc]]]].
  exists stock. split; [exact Hs|].
  split; [rewrite Hv; apply toFixed_roundedTo|].
  split; [rewrite Ha; apply round_roundedToInteger|].
  intros B HB. eexists. split; [apply (Hc B HB)|]. split.
  - apply toFixed_roundedTo.
  - apply comparison_status.
Qed.

(** *** A benchmark against itself *)

Lemma get_in_range (arr : list value) (i : Z) :
  0 <= i < Z.of_nat (List.length arr) -> In (get arr i) arr.
Proof.
  intro H. unfold get.
  replace (0 <=? i) with true by (symmetry; apply Z.leb_le; lia).
  apply nth_In. lia.
Qed.

Lemma truthy_finite (arr : list value) (i : Z) :
  Forall jsonNumber arr -> truthy (get arr i) = true ->
  0 <= i /\ exists p : Q, get arr i = VNum (Fin p) /\ ~ (p == 0)%Q.
Proof.
  intros Hjson Ht. split.
  - unfold get in Ht. destruct (0 <=? i) eqn:E; [|discriminate].
    now apply Z.leb_le.
  - destruct (get_cases arr i) as [H | Hin]; [rewrite H in Ht; discriminate|].
    rewrite Forall_forall in Hjson.
    destruct (Hjson _ Hin) as [H | [p Hp]]; [rewrite H in Ht; discriminate|].
    exists p. split; [exact Hp|]. rewrite Hp in Ht. simpl in Ht.
    intro C. apply Qeq_bool_iff in C. rewrite C in Ht. discriminate.
Qed.

Lemma priceChangeOf_finite (cls : list value) (i : Z) :
  Forall jsonNumber cls -> i < Z.of_nat (List.length cls) ->
  exists z : Q, priceChangeOf cls i = Fin z.
Proof.
  intros Hjson Hi. unfold priceChangeOf, previousPriceOf, orElse.
  destruct (truthy (get cls (i - 1))) eqn:Ht.
  - destruct (truthy_finite cls (i - 1) Hjson Ht) as [H0 [p [Hp Hne]]].
    rewrite Hp. cbn [toNumber].
    destruct (gt (Fin p) (Fin 0)); [|now exists 0%Q].
    assert (Hin : In (get cls i) cls) by (apply get_in_range; lia).
    rewrite Forall_forall in Hjson.
    destruct (Hjson _ Hin) as [-> | [c ->]]; cbn [toNumber sub neg add div];
      rewrite Qeq_bool_false by exact Hne; cbn [mul]; eexists; reflexivity.
  - destruct (get_cases cls i) as [-> | Hin]; [now exists 0%Q|].
    rewrite Forall_forall in Hjson.
    destruct (Hjson _ Hin) as [-> | [c ->]]; [now exists 0%Q|].
    cbn [toNumber]. destruct (gt (Fin c) (Fin 0)) eqn:G; [|now exists 0%Q].
    apply gt_Fin in G. cbn [sub neg add div].
    rewrite Qeq_bool_false by lra. cbn [mul]. eexists; reflexivity.
Qed.

Lemma toFixed_finite (d : nat) (q : Q) : exists z : Q, toFixed d (Fin q) = Fin z.
Proof. cbn [toFixed]. destruct (Qle_bool 0 q); eexists; reflexivity. Qed.

Lemma priceChange_finite
    (env : Env) (sym : string) (d : option string) (data : ChartData) :
  closesOk data ->
  exists z : Q, Stock.priceChange (reduceChart env sym d data) = Fin z.
Proof.
  intros [Hlen Hjson]. cbn [reduceChart Stock.priceChange].
  destruct (priceChangeOf_finite (closes data)
              (targetIndexOf env (timestamps data) d) Hjson) as [z ->].
  - rewrite Hlen. apply targetIndexOf_range.
  - apply toFixed_finite.
Qed.

Lemma compareTo_self (stock : Stock.t) (z : Q) :
  Stock.priceChange stock = Fin z ->
  exists q : Q, compareTo (Some stock) stock = Fin q /\ (q == 1)%Q.
Proof.
  intro Hz. cbn [compareTo]. rewrite Hz. cbn [strictNeq].
  destruct (Qeq_bool z 0) eqn:E; cbn [negb].
  - exists 1%Q. split; reflexivity.
  - cbn [div]. rewrite E. exists (z / z)%Q. split; [reflexivity|].
    field. intro C. apply Qeq_bool_iff in C. congruence.
Qed.

(** C10.  When the fetch of a benchmark [B] succeeds with closes that are
    finite numbers or [null], an analysis response has a result for [B],
    and in every result for [B] the comparison with [B] itself has ratio
    [1] and status [weaker], whatever [B]'s price change is. *)
Theorem benchmark_self_comparison
    (env : Env) (req : Body) (s : Scraper) (resp : Response)
    (data : list Result.t) (t rd : string) (B : string) (chart : ChartData) :
  In B benchmarks ->
  yahoo env B = Some chart ->
  closesOk chart ->
  responseOf env req s = Some resp ->
  body resp = AnalysisBody data t rd ->
  (exists r : Result.t, In r data /\ Result.symbol r = B) /\
  (forall r : Result.t, In r data -> Result.symbol r = B ->
     exists c : Comparison.t,
       property (vs B) (Result.comparisons r) = Some c /\
       isQ (Comparison.ratio c) 1 /\
       Comparison.status c = weaker).
Proof.
  intros HB Hchart Hok Hresp Hbody.
  assert (Hdata : dataOf resp = data) by (unfold dataOf; now rewrite Hbody).
  split.
  - destruct (success_inv env req s resp data t rd Hresp Hbody)
      as [items [_ ->]].
    exists (analysisOf (stockOf env "QQQ" (date req)) (stockOf env "SPY" (date req))
              (stockOf env "IWM" (date req)) (reduceChart env B (date req) chart)).
    split; [|reflexivity].
    apply in_map. apply in_validResultsOf. cbn [reduceChart Stock.symbol].
    split; [apply in_allSymbolsOf; now left|].
    unfold stockOf. now rewrite Hchart.
  - intros r Hin Hsym. rewrite <- Hdata in Hin.
    destruct (result_inv env req s resp r Hresp Hin) as [stock [Hs [_ [_ Hc]]]].
    rewrite Hsym in Hs. rewrite (Hc B HB), Hs.
    assert (Hstock : stock = reduceChart env B (date req) chart).
    { unfold stockOf in Hs. rewrite Hchart in Hs. now injection Hs. }
    destruct (priceChange_finite env B (date req) chart Hok) as [z Hz].
    rewrite <- Hstock in Hz.
    destruct (compareTo_self stock z Hz) as [q [-> Hq]].
    eexists. split; [reflexivity|]. now apply comparison_of_one.
Qed.

(** *** Validation *)

(** C3, as the code has it.  A request whose [symbols] is missing or is
    not an array is answered with status 400 and the validation error,
    and nothing is launched or fetched.  An empty array passes the
    validation: when the browser is available the three benchmarks are
    fetched and the answer is not the validation error. *)
Theorem validation_rejects_non_arrays (env : Env) (req : Body) (s : Scraper) :
  (isArray (symbols req) = false ->
   analyze env req s =
   (s, [], Done (json 400 (ErrorBody "Symbols array is required" None)))) /\
  (symbols req = SymArray [] ->
   browser s = true \/ launchError env = None ->
   filter isFetch (traceOf (analyze env req s)) = map HttpGet benchmarks /\
   exists resp : Response,
     responseOf env req s = Some resp /\ statusCode resp <> 400).
Proof.
  split; [apply analyze_rejected|].
  intros Hsym Hlaunch. destruct req as [sy d]. cbn [symbols] in Hsym. subst sy.
  unfold responseOf. rewrite analyze_array.
  assert (Hstatus : statusCode (settled env d []) <> 400).
  { unfold settled. destruct (_ =? 0); cbn [json statusCode]; lia. }
  destruct (browser s) eqn:Hb.
  - split; [reflexivity|]. exists (settled env d []). now split.
  - destruct Hlaunch as [C | ->]; [discriminate|].
    split; [reflexivity|]. exists (settled env d []). now split.
Qed.

(** *** The theorems at a concrete request

    The request asks for [AAPL] and [MSFT]; [QQQ] fails, [SPY] is flat,
    [IWM] is up 30.00 percent and [AAPL] up 30.01 percent. *)

Lemma response0_eq :
  responseOf Examples.env0 (Examples.request ["AAPL"; "MSFT"]%string) Examples.idle
  = Some Examples.response0.
Proof. vm_compute. reflexivity. Defined.

Lemma resultAt_in (n : nat) :
  (n < 4)%nat -> In (Examples.resultAt n) (dataOf Examples.response0).
Proof.
  intro H. unfold Examples.resultAt. apply nth_In.
  replace (List.length (dataOf Examples.response0)) with 4%nat
    by (vm_compute; reflexivity).
  exact H.
Defined.

Lemma QQQ_in_benchmarks : In "QQQ"%string benchmarks.
Proof. left. reflexivity. Defined.

Lemma SPY_in_benchmarks : In "SPY"%string benchmarks.
Proof. right. left. reflexivity. Defined.

Lemma IWM_in_benchmarks : In "IWM"%string benchmarks.
Proof. right. right. left. reflexivity. Defined.

(** C2 as stated fails: [QQQ] is not fetched, and the result for [AAPL]
    has a [vs_QQQ] comparison all the same. *)
Lemma missing_benchmark_not_omitted : ~ missingBenchmarkOmitted.
Proof.
  intro H.
  specialize (H Examples.env0 (Examples.request ["AAPL"; "MSFT"]%string)
                Examples.idle Examples.response0 "QQQ"%string
                (Examples.resultAt 2) QQQ_in_benchmarks eq_refl response0_eq
                (resultAt_in 2 ltac:(lia))).
  vm_compute in H. discriminate H.
Qed.

(** C2, amended, at that request. *)
Lemma missing_benchmark_defaults_witness :
  exists c : Comparison.t,
    property (vs "QQQ") (Result.comparisons (Examples.resultAt 2)) = Some c /\
    isQ (Comparison.ratio c) 1 /\
    Comparison.status c = weaker.
Proof.
  apply (missing_benchmark_defaults Examples.env0
           (Examples.request ["AAPL"; "MSFT"]%string) Examples.idle
           Examples.response0 "QQQ"%string (Examples.resultAt 2)
           QQQ_in_benchmarks eq_refl response0_eq (resultAt_in 2 ltac:(lia))).
Defined.

(** C5 as stated fails on the comparison that is sent: [AAPL] (30.01)
    against [IWM] (30.00) has the ratio 1 and the status [stronger]. *)
Lemma stronger_with_ratio_one : ~ statusFollowsRatio.
Proof.
  intro H.
  destruct (H Examples.env0 (Examples.request ["AAPL"; "MSFT"]%string)
              Examples.idle Examples.response0 "IWM"%string
              (Examples.resultAt 2)
              (comparison (compareTo (stockOf Examples.env0 "IWM" None)
                             (reduceChart Examples.env0 "AAPL" None Examples.up3001)))
              (inject_Z 1000 / pow10 3)%Q
              IWM_in_benchmarks response0_eq (resultAt_in 2 ltac:(lia)))
    as [Hlt _]; [vm_compute; reflexivity | vm_compute; reflexivity |].
  assert (Hs : (1 < inject_Z 1000 / pow10 3)%Q)
    by (apply Hlt; vm_compute; reflexivity).
  vm_compute in Hs. discriminate Hs.
Qed.

(** C5, amended, at that request: [AAPL] against the flat [SPY]. *)
Lemma comparison_ratio_and_status_witness :
  exists (stock : Stock.t) (c : Comparison.t),
    stockOf Examples.env0 (Result.symbol (Examples.resultAt 2)) None = Some stock /\
    property (vs "SPY") (Result.comparisons (Examples.resultAt 2)) = Some c /\
    (forall (b : Stock.t) (z : Q),
        stockOf Examples.env0 "SPY" None = Some b ->
        Stock.priceChange b = Fin z -> (z == 0)%Q ->
        isQ (Comparison.ratio c) 1 /\ Comparison.status c = weaker) /\
    (Comparison.status c = stronger <->
     gt (compareTo (stockOf Examples.env0 "SPY" None) stock) (Fin 1) = true) /\
    (Comparison.status c = weaker <->
     gt (compareTo (stockOf Examples.env0 "SPY" None) stock) (Fin 1) = false) /\
    (forall (b : Stock.t) (ps pb : Q),
        stockOf Examples.env0 "SPY" None = Some b ->
        Stock.priceChange stock = Fin ps ->
        Stock.priceChange b = Fin pb -> ~ (pb == 0)%Q ->
        (Comparison.status c = stronger <-> (1 < ps / pb)%Q)).
Proof.
  apply (comparison_ratio_and_status Examples.env0
           (Examples.request ["AAPL"; "MSFT"]%string) Examples.idle
           Examples.response0 "SPY"%string (Examples.resultAt 2)
           SPY_in_benchmarks response0_eq (resultAt_in 2 ltac:(lia))).
Defined.

(** C9 at that request, for the result of [AAPL]. *)
Lemma result_rounding_witness :
  exists stock : Stock.t,
    stockOf Examples.env0 (Result.symbol (Examples.resultAt 2)) None = Some stock /\
    roundedTo 3 (Stock.vlRatio stock) (Result.vlRatio (Examples.resultAt 2)) /\
    roundedToInteger (Stock.avgVolume stock)
                     (Result.avgVolume (Examples.resultAt 2)) /\
    forall B : string, In B benchmarks ->
      exists c : Comparison.t,
        property (vs B) (Result.comparisons (Examples.resultAt 2)) = Some c /\
        roundedTo 3 (compareTo (stockOf Examples.env0 B None) stock)
                    (Comparison.ratio c) /\
        (Comparison.status c = stronger <->
         gt (compareTo (stockOf Examples.env0 B None) stock) (Fin 1) = true).
Proof.
  apply (result_rounding Examples.env0
           (Examples.request ["AAPL"; "MSFT"]%string) Examples.idle
           Examples.response0 (Examples.resultAt 2)
           response0_eq (resultAt_in 2 ltac:(lia))).
Defined.

(** The status is taken before the rounding: [AAPL] (30.01) against
    [IWM] (30.00) compares as 1.000333..., which is [stronger], and is
    sent as the ratio 1. *)
Example status_before_rounding :
  exists c : Comparison.t,
    property (vs "IWM") (Result.comparisons (Examples.resultAt 2)) = Some c /\
    isQ (Comparison.ratio c) 1 /\ Comparison.status c = stronger.
Proof.
  eexists. split; [vm_compute; reflexivity|]. split; [|reflexivity].
  eexists. split; reflexivity.
Qed.

(** C10 at that request, for [IWM]. *)
Lemma benchmark_self_comparison_witness :
  (exists r : Result.t,
      In r (dataOf Examples.response0) /\ Result.symbol r = "IWM"%string) /\
  (forall r : Result.t,
      In r (dataOf Examples.response0) -> Result.symbol r = "IWM"%string ->
      exists c : Comparison.t,
        property (vs "IWM") (Result.comparisons r) = Some c /\
        isQ (Comparison.ratio c) 1 /\
        Comparison.status c = weaker).
Proof.
  apply (benchmark_self_comparison Examples.env0
           (Examples.request ["AAPL"; "MSFT"]%string) Examples.idle
           Examples.response0 (dataOf Examples.response0)
           (now Examples.env0) "latest"%string "IWM"%string Examples.up30
           IWM_in_benchmarks eq_refl).
  - split; [reflexivity | ReductionFacts.json_list].
  - exact response0_eq.
  - vm_compute. reflexivity.
Defined.

(** C3 as stated fails on the empty array: the three benchmarks are
    fetched. *)
Lemma empty_symbols_are_fetched : ~ emptySymbolsRejected.
Proof.
  intro H.
  destruct (H Examples.env0 (Examples.request []) Examples.idle
              (or_intror eq_refl)) as [Hfetch _].
  vm_compute in Hfetch. discriminate Hfetch.
Qed.

(** C3, amended: a request without [symbols], and one with the empty
    array. *)
Lemma validation_rejects_non_arrays_witness :
  analyze Examples.env0 {| symbols := SymMissing; date := None |} Examples.idle =
    (Examples.idle, [],
     Done (json 400 (ErrorBody "Symbols array is required" None))) /\
  filter isFetch (traceOf (analyze Examples.env0 (Examples.request []) Examples.idle))
    = map HttpGet benchmarks.
Proof.
  destruct (validation_rejects_non_arrays Examples.env0
              {| symbols := SymMissing; date := None |} Examples.idle)
    as [Hreject _].
  destruct (validation_rejects_non_arrays Examples.env0
              (Examples.request []) Examples.idle) as [_ Hempty].
  split; [exact (Hreject eq_refl)|].
  exact (proj1 (Hempty eq_refl (or_intror eq_refl))).
Defined.

End HandlerFacts.

Module SortFacts.
Import JS Client Spec SortSpec ReductionFacts.

(** *** Stable insertion sort *)

Section Sorting.
Context {A : Type}.
Variable cmp : A -> A -> num.

Lemma insert_perm (x : A) (l : list A) : Permutation (insert cmp x l) (x :: l).
Proof.
  induction l as [|y rest IH]; cbn [insert]; [apply Permutation_refl|].
  destruct (gt (cmp x y) (Fin 0)); [|apply Permutation_refl].
  eapply Permutation_trans; [apply perm_skip, IH | apply perm_swap].
Qed.

Lemma sort_perm (l : list A) : Permutation (sort cmp l) l.
Proof.
  induction l as [|x rest IH]; [apply Permutation_refl|].
  cbn [sort fold_right]. eapply Permutation_trans; [apply insert_perm|].
  now apply perm_skip.
Qed.

Lemma insert_here (x : A) (l : list A) :
  Forall (fun y => gt (cmp x y) (Fin 0) = false) l -> insert cmp x l = x :: l.
Proof.
  intro H. destruct l as [|y rest]; [reflexivity|].
  cbn [insert]. inversion H as [|? ? Hy _]; subst. now rewrite Hy.
Qed.

Lemma insert_skip (x : A) (l1 l2 : list A) :
  Forall (fun y => gt (cmp x y) (Fin 0) = true) l1 ->
  insert cmp x (l1 ++ l2) = l1 ++ insert cmp x l2.
Proof.
  induction 1 as [|y rest Hy _ IH]; [reflexivity|].
  cbn [app insert]. now rewrite Hy, IH.
Qed.

(** Sortedness, for a comparator that decides a total preorder [R] on
    the elements satisfying [P]. *)
Variable P : A -> Prop.
Variable R : A -> A -> Prop.
Hypothesis cmp_spec :
  forall a b, P a -> P b -> (gt (cmp a b) (Fin 0) = false <-> R a b).
Hypothesis R_total : forall a b, P a -> P b -> R a b \/ R b a.
Hypothesis R_trans : forall a b c, P a -> P b -> P c -> R a b -> R b c -> R a c.

Lemma insert_sorted (x : A) (l : list A) :
  P x -> Forall P l -> StronglySorted R l -> StronglySorted R (insert cmp x l).
Proof.
  intros Hx HP Hs. induction Hs as [|y rest Hs IH Hy]; cbn [insert].
  - constructor; constructor.
  - inversion HP as [|? ? Py Prest]; subst.
    destruct (gt (cmp x y) (Fin 0)) eqn:G.
    + constructor; [now apply IH|].
      eapply Permutation_Forall; [apply Permutation_sym, insert_perm|].
      constructor; [|exact Hy].
      destruct (R_total x y Hx Py) as [C|C]; [|exact C].
      apply cmp_spec in C; congruence.
    + assert (Rxy : R x y) by now apply cmp_spec.
      constructor; [now constructor|].
      constructor; [exact Rxy|].
      rewrite Forall_forall in Hy, Prest |- *. intros z Hz.
      apply (R_trans x y z); auto.
Qed.

Lemma sort_sorted (l : list A) : Forall P l -> StronglySorted R (sort cmp l).
Proof.
  induction 1 as [|x rest Hx Hrest IH]; [constructor|].
  cbn [sort fold_right]. apply insert_sorted; auto.
  eapply Permutation_Forall; [apply Permutation_sym, sort_perm | exact Hrest].
Qed.

End Sorting.

(** *** Sorted lists are unique *)

Section Unique.
Context {A : Type}.
Variable R : A -> A -> Prop.

Lemma sorted_perm_unique (l1 l2 : list A) :
  (forall a b, In a l1 -> In b l1 -> R a b -> R b a -> False) ->
  StronglySorted R l1 -> StronglySorted R l2 -> Permutation l1 l2 ->
  l1 = l2.
Proof.
  revert l2. induction l1 as [|x t1 IH]; intros l2 Hasym H1 H2 Hp.
  - apply Permutation_nil in Hp. now subst.
  - destruct l2 as [|y t2].
    { apply Permutation_sym, Permutation_nil in Hp. discriminate. }
    inversion H1 as [|? ? S1 F1]; subst.
    inversion H2 as [|? ? S2 F2]; subst.
    assert (Hxy : x = y).
    { assert (Hx : In x (y :: t2))
        by (eapply Permutation_in; [exact Hp | now left]).
      destruct Hx as [E | Hx]; [now symmetry|].
      assert (Hy : In y (x :: t1))
        by (eapply Permutation_in; [apply Permutation_sym, Hp | now left]).
      rewrite Forall_forall in F1, F2.
      destruct Hy as [E | Hy]; [exact E|].
      exfalso. apply (Hasym x y); [now left | now right | auto | auto]. }
    subst y. f_equal. apply IH; auto.
    + intros a b Ha Hb. apply Hasym; now right.
    + now apply Permutation_cons_inv in Hp.
Qed.

End Unique.

Lemma StronglySorted_app {A : Type} (R : A -> A -> Prop) (l1 l2 : list A) :
  StronglySorted R l1 -> StronglySorted R l2 ->
  (forall a b, In a l1 -> In b l2 -> R a b) ->
  StronglySorted R (l1 ++ l2).
Proof.
  intros H1 H2 H. induction H1 as [|x t S IH F]; [exact H2|].
  cbn [app]. constructor.
  - apply IH. intros a b Ha Hb. apply H; [now right | exact Hb].
  - apply Forall_app. split; [exact F|].
    apply Forall_forall. intros b Hb. apply H; [now left | exact Hb].
Qed.

Lemma StronglySorted_rev {A : Type} (R : A -> A -> Prop) (l : list A) :
  StronglySorted R l -> StronglySorted (fun a b => R b a) (rev l).
Proof.
  induction 1 as [|x t S IH F]; [constructor|].
  cbn [rev]. apply StronglySorted_app; [exact IH | repeat constructor|].
  intros a b Ha [<- | []]. apply in_rev in Ha.
  rewrite Forall_forall in F. now apply F.
Qed.


(** *** The comparator of [sortData] *)

Lemma gt_zero_false (x : Q) : gt (Fin x) (Fin 0) = false <-> (x <= 0)%Q.
Proof.
  split; intro H.
  - apply Qnot_lt_le. intro C. apply gt_Fin in C. congruence.
  - destruct (gt (Fin x) (Fin 0)) eqn:G; [|reflexivity].
    apply gt_Fin in G. lra.
Qed.

Lemma json_toNumber (v : value) : jsonNumber v -> toNumber v = Fin (numKey v).
Proof. intros [-> | [q ->]]; reflexivity. Qed.

Lemma json_orElse (v : value) :
  jsonNumber v -> isQ (toNumber (orElse v zeroV)) (numKey v).
Proof.
  intros [-> | [q ->]]; unfold orElse; cbn [truthy].
  - exists 0%Q. split; reflexivity.
  - destruct (Qeq_bool q 0) eqn:E; cbn [negb].
    + exists 0%Q. split; [reflexivity|].
      apply Qeq_bool_iff in E. unfold numKey. cbn [toNumber]. now rewrite E.
    + exists q. split; reflexivity.
Qed.

Lemma compareNumbers_spec (direction : Direction) (x y : value) (qx qy : Q) :
  isQ (toNumber x) qx -> isQ (toNumber y) qy ->
  (gt (compareNumbers direction x y) (Fin 0) = false <->
   match direction with
   | asc => (qx <= qy)%Q
   | desc => (qy <= qx)%Q
   end).
Proof.
  intros [rx [Hx Ex]] [ry [Hy Ey]]. unfold compareNumbers.
  rewrite Hx, Hy. destruct direction; cbn [sub neg add];
    rewrite gt_zero_false, <- Ex, <- Ey; split; intro H; lra.
Qed.

Lemma isQ_refl (x : num) (q : Q) : x = Fin q -> isQ x q.
Proof. intros ->. exists q. split; reflexivity. Qed.

Section Comparator.
Variable localeCompare : string -> string -> Z.

Lemma compareStrings_spec (direction : Direction) (a b : string) :
  gt (compareStrings localeCompare direction a b) (Fin 0) = false <->
  match direction with
  | asc => localeCompare a b <= 0
  | desc => localeCompare b a <= 0
  end.
Proof.
  unfold compareStrings. destruct direction; rewrite gt_zero_false;
    change 0%Q with (inject_Z 0); now rewrite <- Zle_Qle.
Qed.

Lemma compareRows_spec (column : Column) (direction : Direction) (a b : Row) :
  rowOk a -> rowOk b ->
  (gt (compareRows localeCompare column direction a b) (Fin 0) = false <->
   inOrder localeCompare column direction a b).
Proof.
  intros (a1 & a2 & a3 & a4 & a5 & a6 & a7) (b1 & b2 & b3 & b4 & b5 & b6 & b7).
  unfold inOrder.
  destruct column; cbn [compareRows sortKey keyLe];
    try (rewrite compareNumbers_spec
           by (first [ apply json_orElse; assumption
                     | apply isQ_refl, json_toNumber; assumption ]);
         destruct direction; reflexivity).
  - rewrite compareStrings_spec. destruct direction; reflexivity.
  - destruct direction; cbn [keyLe]; split; auto.
Qed.

Hypothesis collation : Collation localeCompare.

Lemma inOrder_total (column : Column) (direction : Direction) (a b : Row) :
  inOrder localeCompare column direction a b \/
  inOrder localeCompare column direction b a.
Proof.
  assert (HS : forall x y : string,
             localeCompare x y <= 0 \/ localeCompare y x <= 0).
  { intros x y. destruct (Z_le_gt_dec (localeCompare x y) 0) as [H|H]; [now left|].
    right. assert (localeCompare y x < 0)
      by (apply (collation_antisym _ collation); lia). lia. }
  assert (HQ : forall x y : Q, (x <= y)%Q \/ (y <= x)%Q).
  { intros x y. destruct (Qlt_le_dec x y); [left; lra | now right]. }
  unfold inOrder.
  destruct direction, column; cbn [sortKey keyLe]; auto.
Qed.

Lemma inOrder_trans (column : Column) (direction : Direction) (a b c : Row) :
  inOrder localeCompare column direction a b ->
  inOrder localeCompare column direction b c ->
  inOrder localeCompare column direction a c.
Proof.
  unfold inOrder.
  destruct direction, column; cbn [sortKey keyLe]; intros H1 H2; auto;
    first [ eapply (collation_trans _ collation); eassumption
          | eapply Qle_trans; eassumption ].
Qed.

Lemma sort_rows_sorted (column : Column) (direction : Direction) (l : list Row) :
  Forall rowOk l ->
  StronglySorted (inOrder localeCompare column direction)
                 (sort (compareRows localeCompare column direction) l).
Proof.
  apply (sort_sorted _ rowOk).
  - intros a b. apply compareRows_spec.
  - intros a b _ _. apply inOrder_total.
  - intros a b c _ _ _. apply inOrder_trans.
Qed.

End Comparator.

Lemma Forall_otherRows (Q : Row -> Prop) (data : list Row) :
  Forall Q data -> Forall Q (otherRows data).
Proof.
  intro H. unfold otherRows. rewrite Forall_forall in H |- *.
  intros r Hr. apply filter_In in Hr. now apply H.
Qed.

(** *** The benchmark rows *)

Lemma isBenchmark_true (r : Row) :
  isBenchmark r = true ->
  (symbol r = "QQQ" \/ symbol r = "SPY" \/ symbol r = "IWM")%string.
Proof.
  unfold isBenchmark, includes, benchmarks. cbn [existsb].
  rewrite !orb_true_iff, !String.eqb_eq. intuition discriminate.
Qed.

Lemma isBenchmark_false (r : Row) :
  isBenchmark r = false ->
  (symbol r <> "QQQ" /\ symbol r <> "SPY" /\ symbol r <> "IWM")%string.
Proof.
  unfold isBenchmark, includes, benchmarks. cbn [existsb].
  rewrite !orb_false_iff, !String.eqb_neq. tauto.
Qed.

Lemma Forall_rowsOf (sym : string) (data : list Row) (Q : Row -> Prop) :
  (forall y, symbol y = sym -> Q y) -> Forall Q (rowsOf sym data).
Proof.
  intro H. apply Forall_forall. intros y Hy.
  apply filter_In in Hy. destruct Hy as [_ Hy]. apply String.eqb_eq in Hy. auto.
Qed.

Lemma rowsOf_cons (sym : string) (x : Row) (data : list Row) :
  rowsOf sym (x :: data) =
  if String.eqb (symbol x) sym then x :: rowsOf sym data else rowsOf sym data.
Proof. reflexivity. Qed.

Lemma compareBenchmarks_value (x y : Row) (sx sy : string) :
  symbol x = sx -> symbol y = sy ->
  compareBenchmarks x y =
  Fin (inject_Z (indexOf benchmarks sx - indexOf benchmarks sy)).
Proof. intros <- <-. reflexivity. Qed.

(** The benchmarks come out as the [QQQ] rows, then the [SPY] rows,
    then the [IWM] rows. *)
Lemma sort_benchmarks (data : list Row) :
  sort compareBenchmarks (filter isBenchmark data) = benchmarkRows data.
Proof.
  unfold benchmarkRows.
  induction data as [|x data IH]; [reflexivity|].
  cbn [filter]. rewrite !rowsOf_cons. destruct (isBenchmark x) eqn:Hb.
  - cbn [sort fold_right]. fold (sort compareBenchmarks (filter isBenchmark data)).
    rewrite IH.
    destruct (isBenchmark_true x Hb) as [Hx | [Hx | Hx]]; rewrite Hx.
    + change (if ("QQQ" =? "QQQ")%string then x :: rowsOf "QQQ" data
              else rowsOf "QQQ" data) with (x :: rowsOf "QQQ" data).
      change (if ("QQQ" =? "SPY")%string then x :: rowsOf "SPY" data
              else rowsOf "SPY" data) with (rowsOf "SPY" data).
      change (if ("QQQ" =? "IWM")%string then x :: rowsOf "IWM" data
              else rowsOf "IWM" data) with (rowsOf "IWM" data).
      apply insert_here. rewrite !Forall_app.
      repeat split; apply Forall_rowsOf; intros y Hy;
        rewrite (compareBenchmarks_value x y _ _ Hx Hy); reflexivity.
    + change (if ("SPY" =? "QQQ")%string then x :: rowsOf "QQQ" data
              else rowsOf "QQQ" data) with (rowsOf "QQQ" data).
      change (if ("SPY" =? "SPY")%string then x :: rowsOf "SPY" data
              else rowsOf "SPY" data) with (x :: rowsOf "SPY" data).
      change (if ("SPY" =? "IWM")%string then x :: rowsOf "IWM" data
              else rowsOf "IWM" data) with (rowsOf "IWM" data).
      rewrite insert_skip
        by (apply Forall_rowsOf; intros y Hy;
            rewrite (compareBenchmarks_value x y _ _ Hx Hy); reflexivity).
      f_equal. apply insert_here. rewrite !Forall_app.
      repeat split; apply Forall_rowsOf; intros y Hy;
        rewrite (compareBenchmarks_value x y _ _ Hx Hy); reflexivity.
    + change (if ("IWM" =? "QQQ")%string then x :: rowsOf "QQQ" data
              else rowsOf "QQQ" data) with (rowsOf "QQQ" data).
      change (if ("IWM" =? "SPY")%string then x :: rowsOf "SPY" data
              else rowsOf "SPY" data) with (rowsOf "SPY" data).
      change (if ("IWM" =? "IWM")%string then x :: rowsOf "IWM" data
              else rowsOf "IWM" data) with (x :: rowsOf "IWM" data).
      rewrite insert_skip
        by (apply Forall_rowsOf; intros y Hy;
            rewrite (compareBenchmarks_value x y _ _ Hx Hy); reflexivity).
      f_equal.
      rewrite insert_skip
        by (apply Forall_rowsOf; intros y Hy;
            rewrite (compareBenchmarks_value x y _ _ Hx Hy); reflexivity).
      f_equal. apply insert_here.
      apply Forall_rowsOf; intros y Hy;
        rewrite (compareBenchmarks_value x y _ _ Hx Hy); reflexivity.
  - destruct (isBenchmark_false x Hb) as (H1 & H2 & H3).
    apply String.eqb_neq in H1, H2, H3. rewrite H1, H2, H3. exact IH.
Qed.

(** C4.  For every result set, column and direction, [sortData] returns
    the benchmark rows first, in the fixed order [QQQ], [SPY], [IWM] -
    a prefix in which neither the column nor the direction occurs -
    followed by the other rows, rearranged so that they are in order for
    the chosen column and direction. *)
Theorem sortData_pins_benchmarks
    (localeCompare : string -> string -> Z)
    (data : list Row) (column : Column) (direction : Direction) :
  exists sortedOthers : list Row,
    sortData localeCompare data column direction =
      benchmarkRows data ++ sortedOthers /\
    Permutation sortedOthers (otherRows data) /\
    (Collation localeCompare -> Forall rowOk data ->
     StronglySorted (inOrder localeCompare column direction) sortedOthers).
Proof.
  exists (sort (compareRows localeCompare column direction) (otherRows data)).
  split; [|split].
  - unfold sortData. now rewrite sort_benchmarks.
  - apply sort_perm.
  - intros Hcoll Hok. apply sort_rows_sorted; [exact Hcoll|].
    now apply Forall_otherRows.
Qed.

(** *** Ascending against descending *)

Lemma StronglySorted_impl {A : Type} (R R' : A -> A -> Prop) (l : list A) :
  (forall a b, In a l -> In b l -> R a b -> R' a b) ->
  StronglySorted R l -> StronglySorted R' l.
Proof.
  intros H Hs. induction Hs as [|x t S IH F]; [constructor|].
  constructor.
  - apply IH. intros a b Ha Hb. apply H; now right.
  - rewrite Forall_forall in F |- *. intros y Hy.
    apply H; [now left | now right | now apply F].
Qed.

Lemma sorted_strict {A : Type} (R E : A -> A -> Prop) (l : list A) :
  StronglySorted R l -> NoDupA E l ->
  StronglySorted (fun a b => R a b /\ ~ E a b) l.
Proof.
  intros Hs Hn. induction Hs as [|x t S IH F]; [constructor|].
  inversion Hn as [|? ? Hx Ht]; subst. constructor; [now apply IH|].
  rewrite Forall_forall in F |- *. intros y Hy. split; [now apply F|].
  intro C. apply Hx. apply InA_alt. now exists y.
Qed.

(** Pairwise distinctness for a relation that is symmetric on the
    elements does not depend on the order of the list. *)
Lemma NoDupA_permutation {A : Type} (E : A -> A -> Prop) (P : A -> Prop)
    (l l' : list A) :
  (forall a b, P a -> P b -> E a b -> E b a) ->
  Permutation l l' -> Forall P l -> NoDupA E l -> NoDupA E l'.
Proof.
  intros Hsym Hp. induction Hp as [|x l l' Hp IH|x y l|l l' l'' Hp1 IH1 Hp2 IH2];
    intros HP Hn.
  - constructor.
  - inversion HP as [|? ? Px Pl]; subst. inversion Hn as [|? ? Hx Hl]; subst.
    constructor; [|now apply IH].
    intro C. apply Hx. apply InA_alt in C. destruct C as [y [Exy Hy]].
    apply InA_alt. exists y. split; [exact Exy|].
    eapply Permutation_in; [apply Permutation_sym, Hp | exact Hy].
  - inversion HP as [|? ? Py Pxl]; subst. inversion Pxl as [|? ? Px Pl]; subst.
    inversion Hn as [|? ? Hy Hxl]; subst. inversion Hxl as [|? ? Hx Hl]; subst.
    constructor; [|constructor; [|exact Hl]].
    + intro C. inversion C as [? ? Exy | ? ? Hin]; subst.
      * apply Hy. constructor. now apply Hsym.
      * now apply Hx.
    + intro C. apply Hy. now constructor 2.
  - apply IH2; [|now apply IH1].
    eapply Permutation_Forall; [exact Hp1 | exact HP].
Qed.

Lemma isQ_zero_Z (z : Z) : isQ (Fin (inject_Z z)) 0 <-> z = 0.
Proof.
  split.
  - intros [r [E Hr]]. injection E as <-.
    unfold Qeq in Hr. cbn [inject_Z Qnum Qden] in Hr. lia.
  - intros ->. exists (inject_Z 0). split; reflexivity.
Qed.

Lemma compareNumbers_tie (x y : value) (qx qy : Q) :
  isQ (toNumber x) qx -> isQ (toNumber y) qy ->
  (isQ (compareNumbers asc x y) 0 <-> (qx == qy)%Q).
Proof.
  intros [rx [Hx Ex]] [ry [Hy Ey]]. unfold compareNumbers.
  rewrite Hx, Hy. cbn [sub neg add]. split.
  - intros [r [E Hr]]. injection E as <-. lra.
  - intro H. eexists. split; [reflexivity | lra].
Qed.

Section Reversal.
Variable localeCompare : string -> string -> Z.
Variable column : Column.
Hypothesis collation : Collation localeCompare.

(** The comparator returns zero on two rows exactly when each may stand
    before the other. *)
Lemma ties_spec (a b : Row) :
  rowOk a -> rowOk b ->
  (ties localeCompare column a b <->
   inOrder localeCompare column asc a b /\ inOrder localeCompare column asc b a).
Proof.
  intros (a1 & a2 & a3 & a4 & a5 & a6 & a7) (b1 & b2 & b3 & b4 & b5 & b6 & b7).
  assert (HS : forall x y : string,
             localeCompare x y = 0 <->
             localeCompare x y <= 0 /\ localeCompare y x <= 0).
  { intros x y. assert (H1 := collation_antisym _ collation x y).
    assert (H2 := collation_antisym _ collation y x). lia. }
  assert (HQ : forall x y : Q, (x == y)%Q <-> (x <= y)%Q /\ (y <= x)%Q).
  { intros x y. split; [intro H; split; lra | intros [H1 H2]; lra]. }
  unfold ties, inOrder.
  destruct column; cbn [compareRows sortKey keyLe];
    try (rewrite compareNumbers_tie
           by (first [ apply json_orElse; assumption
                     | apply isQ_refl, json_toNumber; assumption ]);
         apply HQ).
  - unfold compareStrings. rewrite isQ_zero_Z. apply HS.
  - split; [auto|]. intros _. exists 0%Q. split; reflexivity.
Qed.

Lemma ties_sym (a b : Row) :
  rowOk a -> rowOk b ->
  ties localeCompare column a b -> ties localeCompare column b a.
Proof.
  intros Ha Hb H. apply (ties_spec b a Hb Ha).
  apply (ties_spec a b Ha Hb) in H. tauto.
Qed.

Lemma inOrder_tie (direction : Direction) (a b : Row) :
  rowOk a -> rowOk b ->
  inOrder localeCompare column direction a b ->
  inOrder localeCompare column direction b a ->
  ties localeCompare column a b.
Proof.
  intros Ha Hb H1 H2. apply (ties_spec a b Ha Hb).
  destruct direction; [now split | split; [exact H2 | exact H1]].
Qed.

Lemma sort_strictly (direction : Direction) (l : list Row) :
  Forall rowOk l -> NoDupA (ties localeCompare column) l ->
  StronglySorted (strictly localeCompare column direction)
                 (sort (compareRows localeCompare column direction) l).
Proof.
  intros Hok Hn. apply sorted_strict.
  - now apply sort_rows_sorted.
  - apply (NoDupA_permutation _ rowOk l); [apply ties_sym | | exact Hok | exact Hn].
    apply Permutation_sym, sort_perm.
Qed.

Lemma descending_is_reverse (l l' : list Row) :
  Forall rowOk l -> NoDupA (ties localeCompare column) l -> Permutation l' l ->
  sort (compareRows localeCompare column desc) l' =
  rev (sort (compareRows localeCompare column asc) l).
Proof.
  intros Hok Hn Hp.
  assert (Hok' : Forall rowOk l')
    by (eapply Permutation_Forall; [apply Permutation_sym, Hp | exact Hok]).
  assert (Hn' : NoDupA (ties localeCompare column) l').
  { apply (NoDupA_permutation _ rowOk l); [apply ties_sym | | exact Hok | exact Hn].
    now apply Permutation_sym. }
  assert (Hs' : Forall rowOk (sort (compareRows localeCompare column desc) l'))
    by (eapply Permutation_Forall; [apply Permutation_sym, sort_perm | exact Hok']).
  assert (Hs : Forall rowOk (rev (sort (compareRows localeCompare column asc) l))).
  { eapply Permutation_Forall; [|exact Hok].
    eapply Permutation_trans; [apply Permutation_sym, sort_perm|].
    apply Permutation_rev. }
  rewrite Forall_forall in Hs', Hs.
  apply (sorted_perm_unique (strictly localeCompare column desc)).
  - intros a b Ha Hb [H1 N1] [H2 _]. apply N1.
    apply (inOrder_tie desc); auto.
  - now apply sort_strictly.
  - apply StronglySorted_impl
      with (R := fun a b => strictly localeCompare column asc b a).
    + intros a b Ha Hb [H N]. split; [exact H|].
      intro C. apply N. apply ties_sym; auto.
    + apply StronglySorted_rev. now apply sort_strictly.
  - eapply Permutation_trans; [apply sort_perm|].
    eapply Permutation_trans; [exact Hp|].
    eapply Permutation_trans; [apply Permutation_sym, sort_perm|].
    apply Permutation_rev.
Qed.

End Reversal.

(** What a tie is, column by column: on the symbol column the collation
    returns zero; on the other columns the keys are equal, [null]
    counting as [0]. *)
Lemma ties_symbol (localeCompare : string -> string -> Z) (a b : Row) :
  ties localeCompare c_symbol a b <-> localeCompare (symbol a) (symbol b) = 0.
Proof. unfold ties. cbn [compareRows compareStrings]. apply isQ_zero_Z. Qed.

Lemma ties_numeric (localeCompare : string -> string -> Z) (column : Column)
    (a b : Row) :
  column <> c_symbol -> rowOk a -> rowOk b ->
  (ties localeCompare column a b <-> sameKey column a b).
Proof.
  intros Hcol (a1 & a2 & a3 & a4 & a5 & a6 & a7) (b1 & b2 & b3 & b4 & b5 & b6 & b7).
  unfold ties, sameKey.
  destruct column; cbn [compareRows sortKey keyEq]; try congruence;
    try (rewrite compareNumbers_tie
           by (first [ apply json_orElse; assumption
                     | apply isQ_refl, json_toNumber; assumption ]);
         reflexivity).
  split; [auto|]. intros _. exists 0%Q. split; reflexivity.
Qed.

Lemma filter_all {A : Type} (f : A -> bool) (l : list A) :
  Forall (fun x => f x = true) l -> filter f l = l.
Proof.
  induction 1 as [|x t Hx _ IH]; [reflexivity|].
  cbn [filter]. now rewrite Hx, IH.
Qed.

Lemma filter_none {A : Type} (f : A -> bool) (l : list A) :
  Forall (fun x => f x = false) l -> filter f l = [].
Proof.
  induction 1 as [|x t Hx _ IH]; [reflexivity|].
  cbn [filter]. now rewrite Hx, IH.
Qed.

(** The rows of [sortData]'s result that are not benchmarks are the
    sorted regular stocks. *)
Lemma otherRows_sortData
    (localeCompare : string -> string -> Z)
    (data : list Row) (column : Column) (direction : Direction) :
  otherRows (sortData localeCompare data column direction) =
  sort (compareRows localeCompare column direction) (otherRows data).
Proof.
  unfold sortData, otherRows at 1. rewrite filter_app.
  rewrite filter_none, filter_all; [reflexivity | |].
  - eapply Permutation_Forall; [apply Permutation_sym, sort_perm|].
    apply Forall_forall. intros r Hr. apply filter_In in Hr. tauto.
  - eapply Permutation_Forall; [apply Permutation_sym, sort_perm|].
    apply Forall_forall. intros r Hr. apply filter_In in Hr.
    destruct Hr as [_ Hr]. now rewrite Hr.
Qed.

Lemma sort_keeps {A : Type} (c : A -> A -> num) (Q : A -> Prop) (l : list A) :
  Forall Q l -> Forall Q (sort c l).
Proof.
  intro H. eapply Permutation_Forall; [apply Permutation_sym, sort_perm | exact H].
Qed.


Lemma rowsOf_app (sym : string) (l1 l2 : list Row) :
  rowsOf sym (l1 ++ l2) = rowsOf sym l1 ++ rowsOf sym l2.
Proof. apply filter_app. Qed.

Lemma rowsOf_same (sym : string) (l : list Row) :
  rowsOf sym (rowsOf sym l) = rowsOf sym l.
Proof.
  apply filter_all. apply Forall_forall. intros r Hr.
  now apply filter_In in Hr.
Qed.

Lemma rowsOf_other (sym sym' : string) (l : list Row) :
  sym <> sym' -> rowsOf sym (rowsOf sym' l) = [].
Proof.
  intro Hne. apply filter_none. apply Forall_forall. intros r Hr.
  apply filter_In in Hr. destruct Hr as [_ Hr]. apply String.eqb_eq in Hr.
  apply String.eqb_neq. congruence.
Qed.

Lemma rowsOf_regular (sym : string) (l : list Row) :
  In sym benchmarks -> Forall (fun r => isBenchmark r = false) l -> rowsOf sym l = [].
Proof.
  intros Hsym H. apply filter_none. eapply Forall_impl; [|exact H].
  intros r Hr. apply String.eqb_neq. intro C.
  destruct (isBenchmark_false r Hr) as (H1 & H2 & H3).
  destruct Hsym as [<- | [<- | [<- | []]]]; congruence.
Qed.

Lemma otherRows_regular (l : list Row) :
  Forall (fun r => isBenchmark r = false) l -> otherRows l = l.
Proof.
  intro H. apply filter_all. eapply Forall_impl; [|exact H].
  intros r Hr. now rewrite Hr.
Qed.

Lemma otherRows_benchmarkRows (l : list Row) : otherRows (benchmarkRows l) = [].
Proof.
  apply filter_none. unfold benchmarkRows. rewrite !Forall_app.
  repeat split; apply Forall_rowsOf; intros y Hy;
    unfold isBenchmark; rewrite Hy; reflexivity.
Qed.

(** The shape [sortData] gives is kept by [sortData]. *)
Lemma benchmarkRows_of_sorted (l others : list Row) :
  Forall (fun r => isBenchmark r = false) others ->
  benchmarkRows (benchmarkRows l ++ others) = benchmarkRows l /\
  otherRows (benchmarkRows l ++ others) = others.
Proof.
  intro Hreg. split.
  - unfold benchmarkRows. rewrite !rowsOf_app, !rowsOf_same.
    rewrite !(rowsOf_other "QQQ" "SPY"), !(rowsOf_other "QQQ" "IWM"),
            !(rowsOf_other "SPY" "QQQ"), !(rowsOf_other "SPY" "IWM"),
            !(rowsOf_other "IWM" "QQQ"), !(rowsOf_other "IWM" "SPY")
      by discriminate.
    rewrite (rowsOf_regular "QQQ" others), (rowsOf_regular "SPY" others),
            (rowsOf_regular "IWM" others) by (try exact Hreg; cbn; auto).
    repeat first [rewrite app_nil_r | progress cbn [app]]. reflexivity.
  - unfold otherRows at 1. rewrite filter_app.
    fold (otherRows (benchmarkRows l)). fold (otherRows others).
    now rewrite otherRows_benchmarkRows, otherRows_regular.
Qed.

Lemma otherRows_are_regular (l : list Row) :
  Forall (fun r => isBenchmark r = false) (otherRows l).
Proof.
  apply Forall_forall. intros r Hr. apply filter_In in Hr.
  destruct Hr as [_ Hr]. now apply negb_true_iff.
Qed.

(** C8.  When the keys of the non-benchmark rows in the chosen column
    are pairwise distinct - the comparator of the column returns zero on
    no two of them - the descending sort gives these rows in exactly the
    reverse of their ascending order, after the same benchmark rows,
    whether it is applied to the same data or to the result of the
    ascending sort. *)
Theorem descending_reverses_ascending
    (localeCompare : string -> string -> Z) (data : list Row) (column : Column) :
  Collation localeCompare ->
  Forall rowOk data ->
  NoDupA (ties localeCompare column) (otherRows data) ->
  exists ascending : list Row,
    Permutation ascending (otherRows data) /\
    sortData localeCompare data column asc = benchmarkRows data ++ ascending /\
    sortData localeCompare data column desc =
      benchmarkRows data ++ rev ascending /\
    sortData localeCompare (sortData localeCompare data column asc) column desc =
      benchmarkRows data ++ rev ascending.
Proof.
  intros Hcoll Hok Hn.
  assert (Hoth : Forall rowOk (otherRows data)) by now apply Forall_otherRows.
  set (ascending := sort (compareRows localeCompare column asc) (otherRows data)).
  assert (Hperm : Permutation ascending (otherRows data)) by apply sort_perm.
  assert (Hasc : sortData localeCompare data column asc =
                 benchmarkRows data ++ ascending)
    by (unfold sortData; now rewrite sort_benchmarks).
  assert (Hreg : Forall (fun r => isBenchmark r = false) ascending)
    by (apply sort_keeps, otherRows_are_regular).
  destruct (benchmarkRows_of_sorted data ascending Hreg) as [Hb Ho].
  exists ascending. split; [exact Hperm|]. split; [exact Hasc|]. split.
  - unfold sortData. rewrite sort_benchmarks. f_equal.
    apply (descending_is_reverse localeCompare column Hcoll); auto.
  - rewrite Hasc. unfold sortData at 1. rewrite sort_benchmarks.
    fold (otherRows (benchmarkRows data ++ ascending)). rewrite Hb, Ho. f_equal.
    apply (descending_is_reverse localeCompare column Hcoll); auto.
Qed.

(** *** Code-point order is a collation *)

Lemma string_lt_irrefl (a : string) : ~ OrdersEx.String_as_OT.lt a a.
Proof. apply (StrictOrder_Irreflexive (R := OrdersEx.String_as_OT.lt)). Qed.

Lemma string_lt_trans (a b c : string) :
  OrdersEx.String_as_OT.lt a b -> OrdersEx.String_as_OT.lt b c ->
  OrdersEx.String_as_OT.lt a c.
Proof. apply (StrictOrder_Transitive (R := OrdersEx.String_as_OT.lt)). Qed.

Lemma codePoint_cases (a b : string) :
  (a = b /\ codePointCompare a b = 0) \/
  (OrdersEx.String_as_OT.lt a b /\ codePointCompare a b = -1) \/
  (OrdersEx.String_as_OT.lt b a /\ codePointCompare a b = 1).
Proof.
  unfold codePointCompare.
  destruct (OrdersEx.String_as_OT.compare_spec a b) as [E | L | G]; auto.
Qed.

Lemma codePoint_le (a b : string) :
  codePointCompare a b <= 0 <-> a = b \/ OrdersEx.String_as_OT.lt a b.
Proof.
  destruct (codePoint_cases a b) as [[E H] | [[L H] | [G H]]]; rewrite H.
  - split; [now left | lia].
  - split; [now right | lia].
  - split; [lia|]. intros [E | L].
    + subst. exfalso. apply (string_lt_irrefl b G).
    + exfalso. apply (string_lt_irrefl a). now apply (string_lt_trans a b a).
Qed.

Lemma codePoint_lt (a b : string) :
  codePointCompare a b < 0 <-> OrdersEx.String_as_OT.lt a b.
Proof.
  destruct (codePoint_cases a b) as [[E H] | [[L H] | [G H]]]; rewrite H.
  - subst. split; [lia|]. intro C. exfalso. apply (string_lt_irrefl b C).
  - split; [auto | lia].
  - split; [lia|]. intro L. exfalso.
    apply (string_lt_irrefl a). now apply (string_lt_trans a b a).
Qed.

Lemma codePoint_gt (a b : string) :
  0 < codePointCompare a b <-> OrdersEx.String_as_OT.lt b a.
Proof.
  destruct (codePoint_cases a b) as [[E H] | [[L H] | [G H]]]; rewrite H.
  - subst. split; [lia|]. intro C. exfalso. apply (string_lt_irrefl b C).
  - split; [lia|]. intro C. exfalso.
    apply (string_lt_irrefl a). now apply (string_lt_trans a b a).
  - split; [auto | lia].
Qed.

Lemma codePoint_collation : Collation codePointCompare.
Proof.
  split.
  - intros a b. now rewrite codePoint_lt, codePoint_gt.
  - intros a b c. rewrite !codePoint_le.
    intros [-> | H1] [-> | H2]; auto. right.
    now apply (string_lt_trans a b c).
Qed.

(** *** The theorems at a concrete table *)

Lemma table_rowOk : Forall rowOk Examples.table.
Proof.
  repeat (apply Forall_cons;
          [repeat split; right; eexists; reflexivity|]).
  apply Forall_nil.
Defined.

Example sort_by_vlRatio_descending :
  sortData codePointCompare Examples.table c_vlRatio desc =
  [Examples.rowQQQ; Examples.rowSPY; Examples.rowIWM;
   Examples.rowNVDA; Examples.rowTSLA; Examples.rowAAPL].
Proof. vm_compute. reflexivity. Qed.

Example sort_by_symbol_ascending :
  sortData codePointCompare Examples.table c_symbol asc =
  [Examples.rowQQQ; Examples.rowSPY; Examples.rowIWM;
   Examples.rowAAPL; Examples.rowNVDA; Examples.rowTSLA].
Proof. vm_compute. reflexivity. Qed.

(** C4 at the table, sorted by volume ratio, descending. *)
Lemma sortData_pins_benchmarks_witness :
  exists sortedOthers : list Row,
    sortData codePointCompare Examples.table c_vlRatio desc =
      [Examples.rowQQQ; Examples.rowSPY; Examples.rowIWM] ++ sortedOthers /\
    Permutation sortedOthers (otherRows Examples.table) /\
    StronglySorted (inOrder codePointCompare c_vlRatio desc) sortedOthers.
Proof.
  destruct (sortData_pins_benchmarks codePointCompare Examples.table c_vlRatio desc)
    as [sortedOthers (Heq & Hperm & Hsorted)].
  exists sortedOthers.
  split; [exact Heq|]. split; [exact Hperm|].
  exact (Hsorted codePoint_collation table_rowOk).
Defined.

Lemma table_distinct_symbols :
  NoDupA (ties codePointCompare c_symbol) (otherRows Examples.table).
Proof.
  change (otherRows Examples.table)
    with [Examples.rowTSLA; Examples.rowAAPL; Examples.rowNVDA].
  repeat (apply NoDupA_cons;
          [rewrite InA_alt; intros [y [E Hy]]; cbn [In] in Hy;
           repeat (destruct Hy as [<- | Hy];
                   [apply ties_symbol in E; vm_compute in E; discriminate E|]);
           exact Hy|]).
  apply NoDupA_nil.
Defined.

(** C8 at the table, on the symbol column. *)
Lemma descending_reverses_ascending_witness :
  exists ascending : list Row,
    Permutation ascending (otherRows Examples.table) /\
    sortData codePointCompare Examples.table c_symbol asc =
      benchmarkRows Examples.table ++ ascending /\
    sortData codePointCompare Examples.table c_symbol desc =
      benchmarkRows Examples.table ++ rev ascending /\
    sortData codePointCompare
      (sortData codePointCompare Examples.table c_symbol asc) c_symbol desc =
      benchmarkRows Examples.table ++ rev ascending.
Proof.
  apply (descending_reverses_ascending codePointCompare Examples.table c_symbol
           codePoint_collation table_rowOk table_distinct_symbols).
Defined.

Lemma canonical_collation : Collation canonicalCompare.
Proof.
  split.
  - intros a b. apply (collation_antisym _ codePoint_collation).
  - intros a b c. apply (collation_trans _ codePoint_collation).
Qed.

(** C8 as stated fails for two spellings of one symbol: as strings the
    keys are distinct, the collation returns zero on them, and the stable
    sort leaves the two rows in place in both directions. *)
Lemma equivalent_spellings_are_not_reversed : ~ reversalAsStated canonicalCompare.
Proof.
  intro H.
  destruct (H MoreExamples.spellings c_symbol) as [C | C].
  - repeat (apply Forall_cons;
            [repeat split; right; eexists; reflexivity|]).
    apply Forall_nil.
  - repeat (apply Forall_cons; [reflexivity|]). apply Forall_nil.
  - repeat (apply NoDupA_cons;
            [rewrite InA_alt; intros [y [E Hy]]; cbn [In] in Hy;
             repeat (destruct Hy as [<- | Hy]; [vm_compute in E; discriminate E|]);
             exact Hy|]).
    apply NoDupA_nil.
  - vm_compute in C. discriminate C.
  - vm_compute in C. discriminate C.
Qed.

Example spellings_sorted_by_symbol :
  canonicalCompare MoreExamples.ringDecomposed MoreExamples.ringComposed = 0 /\
  MoreExamples.ringDecomposed <> MoreExamples.ringComposed /\
  sortData canonicalCompare MoreExamples.spellings c_symbol asc =
    [MoreExamples.rowDecomposed; MoreExamples.rowComposed] /\
  sortData canonicalCompare MoreExamples.spellings c_symbol desc =
    [MoreExamples.rowDecomposed; MoreExamples.rowComposed].
Proof. repeat split; try (vm_compute; reflexivity). discriminate. Qed.

Example sort_by_symbol_descending :
  map symbol (sortData codePointCompare Examples.table c_symbol desc) =
  ["QQQ"; "SPY"; "IWM"; "TSLA"; "NVDA"; "AAPL"]%string.
Proof. vm_compute. reflexivity. Qed.

End SortFacts.

(* ================================================================== *)
(** * Further properties of the server *)
(* ================================================================== *)

Module ServerExtras.
Import JS Server Spec ServerSpec ReductionFacts HandlerFacts.

(** *** The target index *)

Lemma findIndexFrom_none {A : Type} (p : A -> bool) (arr : list A) (i : Z) :
  (forall x, In x arr -> p x = false) -> findIndexFrom p arr i = -1.
Proof.
  revert i. induction arr as [|x rest IH]; intros i H; [reflexivity|].
  cbn [findIndexFrom]. rewrite (H x) by now left.
  apply IH. intros y Hy. apply H. now right.
Qed.

Lemma findIndexFrom_first {A : Type} (p : A -> bool) (arr : list A) (i : Z)
    (n : nat) (t : A) :
  nth_error arr n = Some t -> p t = true ->
  (forall j t', (j < n)%nat -> nth_error arr j = Some t' -> p t' = false) ->
  findIndexFrom p arr i = i + Z.of_nat n.
Proof.
  revert i n. induction arr as [|x rest IH]; intros i n Hn Ht Hbefore.
  - destruct n; discriminate Hn.
  - destruct n as [|n]; cbn [findIndexFrom].
    + injection Hn as ->. rewrite Ht. lia.
    + rewrite (Hbefore 0%nat x) by (try lia; reflexivity).
      rewrite (IH (i + 1) n Hn Ht); [lia|].
      intros j t' Hj Hj'. apply (Hbefore (S j) t'); [lia | exact Hj'].
Qed.

(** X1.  Without a date (missing, [null] or empty) the target is the last
    session.  With a date, it is the first session whose day string
    equals that of the date, and the last session when there is none. *)
Theorem targetIndex_resolution (env : Env) (ts : list Z) (date : option string) :
  let last := Z.of_nat (List.length ts) - 1 in
  let sameDay := fun (d : string) (t : Z) =>
    String.eqb (toDateString env (Fin (inject_Z (t * 1000))))
               (toDateString env (dateParse env d)) in
  (dateGiven date = None -> targetIndexOf env ts date = last) /\
  (forall d : string, dateGiven date = Some d ->
     (forall t, In t ts -> sameDay d t = false) ->
     targetIndexOf env ts date = last) /\
  (forall (d : string) (n : nat) (t : Z),
     dateGiven date = Some d ->
     nth_error ts n = Some t -> sameDay d t = true ->
     (forall j t', (j < n)%nat -> nth_error ts j = Some t' -> sameDay d t' = false) ->
     targetIndexOf env ts date = Z.of_nat n).
Proof.
  cbv zeta. unfold targetIndexOf. split; [|split].
  - intros ->. reflexivity.
  - intros d -> Hnone. unfold findIndex.
    rewrite findIndexFrom_none by exact Hnone. reflexivity.
  - intros d n t -> Hn Ht Hbefore. unfold findIndex.
    rewrite (findIndexFrom_first _ ts 0 n t Hn Ht Hbefore).
    replace (0 + Z.of_nat n =? -1) with false by (symmetry; apply Z.eqb_neq; lia).
    lia.
Qed.

(** *** The empty series *)

(** X2.  A chart without sessions is reduced without an error: for every
    date the volumes and the price change are [0], the price is
    [undefined] and the timestamp is [NaN], whatever the other arrays
    hold. *)
Theorem empty_series_metrics
    (env : Env) (sym : string) (date : option string) (data : ChartData) :
  timestamps data = [] ->
  let s := reduceChart env sym date data in
  Stock.symbol s = sym /\
  Stock.currentVolume s = VNum (Fin 0) /\
  Stock.avgVolume s = Fin 0 /\
  Stock.vlRatio s = Fin 0 /\
  Stock.price s = VUndef /\
  isQ (Stock.priceChange s) 0 /\
  Stock.timestamp s = NaN /\
  Stock.date s = toDateString env NaN.
Proof.
  intros Hts. cbv zeta. unfold reduceChart. rewrite Hts.
  assert (Hi : targetIndexOf env [] date = -1).
  { unfold targetIndexOf. destruct (dateGiven date); reflexivity. }
  rewrite Hi. cbn [Stock.symbol Stock.currentVolume Stock.avgVolume Stock.vlRatio
                   Stock.price Stock.priceChange Stock.timestamp Stock.date].
  assert (Hslice : volumeSlice (volumes data) (-1) = []).
  { unfold volumeSlice, slice.
    change (Z.max 0 (-1 - 9)) with 0. change (-1 + 1) with 0.
    change (0 <? 0) with false. cbv iota.
    rewrite Z.sub_diag. reflexivity. }
  assert (Havg : avgVolumeOf (volumes data) (-1) = Fin 0).
  { unfold avgVolumeOf. now rewrite Hslice. }
  repeat split; try reflexivity.
  - exact Havg.
  - unfold vlRatioOf. now rewrite Havg.
  - eexists. split; reflexivity.
Qed.

(** *** Failed fetches *)

Lemma symbols_of_nonNull (env : Env) (d : option string) (l : list string) :
  map Stock.symbol (nonNull (map (fun sym => stockOf env sym d) l)) =
  filter (fetched env) l.
Proof.
  induction l as [|x rest IH]; [reflexivity|].
  cbn [map filter]. unfold fetched at 1, stockOf at 1.
  destruct (yahoo env x) as [chart|]; cbn [nonNull map].
  - now rewrite IH.
  - exact IH.
Qed.

Lemma symbols_of_analysis (q sp iw : option Stock.t) (valid : list Stock.t) :
  map Result.symbol (map (analysisOf q sp iw) valid) = map Stock.symbol valid.
Proof. rewrite map_map. reflexivity. Qed.

Lemma settled_cases (env : Env) (d : option string) (items : list string) :
  let ok := filter (fetched env) (allSymbolsOf items) in
  (ok = [] ->
   settled env d items =
   json 500 (ErrorBody "Failed to fetch data for any symbols" None)) /\
  (ok <> [] ->
   exists data : list Result.t,
     settled env d items =
       json 200 (AnalysisBody data (now env) (requestDateOf d)) /\
     map Result.symbol data = ok).
Proof.
  cbv zeta. unfold settled.
  assert (Hsym := symbols_of_nonNull env d (allSymbolsOf items)).
  fold (validResultsOf env d items) in Hsym.
  destruct (validResultsOf env d items) as [|v rest] eqn:E.
  - cbn [map] in Hsym. rewrite <- Hsym. split; [reflexivity | congruence].
  - split.
    + intro C. rewrite C in Hsym. discriminate Hsym.
    + intros _. replace (Z.of_nat (List.length (v :: rest)) =? 0) with false
        by (symmetry; apply Z.eqb_neq; cbn [List.length]; lia).
      eexists. split; [reflexivity|].
      rewrite symbols_of_analysis. exact Hsym.
Qed.

Lemma responseOf_array (env : Env) (items : list string) (d : option string)
    (s : Scraper) :
  browser s = true \/ launchError env = None ->
  responseOf env {| symbols := SymArray items; date := d |} s =
  Some (settled env d items).
Proof.
  intro H. unfold responseOf. rewrite analyze_array.
  destruct (browser s); [reflexivity|].
  destruct H as [H | ->]; [discriminate H | reflexivity].
Qed.

(** X3.  When the fetch of every symbol fails - the benchmarks and the
    requested ones - the request is answered with status 500 and the
    message that no data could be fetched. *)
Theorem total_failure
    (env : Env) (items : list string) (d : option string) (s : Scraper) :
  browser s = true \/ launchError env = None ->
  (forall sym, In sym (allSymbolsOf items) -> yahoo env sym = None) ->
  responseOf env {| symbols := SymArray items; date := d |} s =
  Some (json 500 (ErrorBody "Failed to fetch data for any symbols" None)).
Proof.
  intros Hb Hall. rewrite (responseOf_array env items d s Hb). f_equal.
  apply (proj1 (settled_cases env d items)).
  induction (allSymbolsOf items) as [|x rest IH]; [reflexivity|].
  cbn [filter]. unfold fetched at 1. rewrite (Hall x) by now left.
  apply IH. intros sym Hsym. apply Hall. now right.
Qed.

(** X4.  When at least one fetch succeeds the answer is a success whose
    [data] holds, in the order of the fetches, exactly the symbols whose
    fetch succeeded: a failed symbol is dropped and nothing reports it. *)
Theorem failed_symbols_are_dropped
    (env : Env) (items : list string) (d : option string) (s : Scraper)
    (sym : string) :
  browser s = true \/ launchError env = None ->
  In sym (allSymbolsOf items) -> fetched env sym = true ->
  exists data : list Result.t,
    responseOf env {| symbols := SymArray items; date := d |} s =
      Some (json 200 (AnalysisBody data (now env) (requestDateOf d))) /\
    map Result.symbol data = filter (fetched env) (allSymbolsOf items) /\
    (forall x, In x (map Result.symbol data) <->
               In x (allSymbolsOf items) /\ fetched env x = true).
Proof.
  intros Hb Hin Hok. rewrite (responseOf_array env items d s Hb).
  destruct (proj2 (settled_cases env d items)) as [data [Hset Hsym]].
  - intro C. assert (Hf : In sym (filter (fetched env) (allSymbolsOf items)))
      by (apply filter_In; now split).
    rewrite C in Hf. destruct Hf.
  - exists data. split; [now rewrite Hset|]. split; [exact Hsym|].
    intro x. rewrite Hsym. apply filter_In.
Qed.

(** *** The fetches of a request *)

Lemma NoDup_dedupe (xs seen : list string) : NoDup (dedupe seen xs).
Proof.
  revert seen. induction xs as [|x rest IH]; intro seen; cbn [dedupe].
  - constructor.
  - destruct (existsb (String.eqb x) seen); [apply IH|].
    constructor; [|apply IH].
    rewrite in_dedupe. intros [_ H]. apply H. now left.
Qed.

Lemma filter_isFetch_gets (l : list string) :
  filter isFetch (map HttpGet l) = map HttpGet l.
Proof. induction l as [|x rest IH]; [reflexivity|]. cbn. now rewrite IH. Qed.

Lemma filter_launch_gets (l : list string) :
  filter (fun e => negb (isFetch e)) (map HttpGet l) = [].
Proof. induction l as [|x rest IH]; [reflexivity|]. cbn. exact IH. Qed.

(** X5.  A request with an array is served by one fetch per distinct
    symbol: first [QQQ], [SPY] and [IWM], then the requested symbols that
    are not benchmarks, none of them twice, whatever repetitions the
    request holds. *)
Theorem one_fetch_per_symbol
    (env : Env) (items : list string) (d : option string) (s : Scraper) :
  browser s = true \/ launchError env = None ->
  exists others : list string,
    fetchesOf (analyze env {| symbols := SymArray items; date := d |} s) =
      map HttpGet (benchmarks ++ others) /\
    NoDup (benchmarks ++ others) /\
    (forall x, In x others <-> In x items /\ ~ In x benchmarks).
Proof.
  intro Hb. exists (dedupe ["IWM"; "SPY"; "QQQ"]%string items).
  assert (Hall : allSymbolsOf items =
                 benchmarks ++ dedupe ["IWM"; "SPY"; "QQQ"]%string items)
    by reflexivity.
  split; [|split].
  - unfold fetchesOf. rewrite analyze_array, <- Hall.
    destruct (browser s).
    + apply filter_isFetch_gets.
    + destruct Hb as [Hb | ->]; [discriminate Hb|].
      cbn [traceOf fst snd filter isFetch]. apply filter_isFetch_gets.
  - rewrite <- Hall. apply NoDup_dedupe.
  - intro x. rewrite in_dedupe. unfold benchmarks. cbn [In]. tauto.
Qed.

(** *** The browser *)

Lemma analyze_effects (env : Env) (req : Body) (s : Scraper) :
  let r := analyze env req s in
  (browser s = true -> launches r = 0%nat /\ stateOf r = s) /\
  (browser s = false -> isArray (symbols req) = false ->
   launches r = 0%nat /\ stateOf r = s) /\
  (browser s = false -> isArray (symbols req) = true ->
   launches r = 1%nat /\
   stateOf r = match launchError env with
               | Some _ => s
               | None => {| browser := true |}
               end).
Proof.
  cbv zeta. destruct req as [sy d]. cbn [symbols].
  destruct (isArray sy) eqn:Harr.
  - destruct sy; try discriminate Harr.
    rewrite analyze_array. unfold launches, stateOf.
    destruct (browser s) eqn:Hb.
    + cbn [traceOf fst snd]. rewrite filter_launch_gets.
      repeat split; intros; try reflexivity; discriminate.
    + destruct (launchError env); cbn [traceOf fst snd filter isFetch negb];
        rewrite ?filter_launch_gets;
        repeat split; intros; try reflexivity; discriminate.
  - rewrite analyze_rejected by exact Harr.
    repeat split; intros; try reflexivity; discriminate.
Qed.

(** X6.  The browser is launched at most once per request, and never when
    it is already there; once a request has launched it with success, the
    next request - any request, in any environment - does not launch. *)
Theorem browser_launched_once
    (env1 env2 : Env) (req1 req2 : Body) (s : Scraper) :
  let r1 := analyze env1 req1 s in
  let r2 := analyze env2 req2 (stateOf r1) in
  (launches r1 <= 1)%nat /\
  (browser s = true -> launches r1 = 0%nat /\ launches r2 = 0%nat) /\
  (launches r1 = 1%nat -> launchError env1 = None -> launches r2 = 0%nat).
Proof.
  cbv zeta.
  destruct (analyze_effects env1 req1 s) as (Hup & Hrej & Harr).
  destruct (browser s) eqn:Hb.
  - destruct (Hup eq_refl) as [H0 Hs]. rewrite H0, Hs.
    destruct (analyze_effects env2 req2 s) as (Hup2 & _ & _).
    destruct (Hup2 Hb) as [H2 _]. rewrite H2.
    repeat split; intros; try lia; discriminate.
  - destruct (isArray (symbols req1)) eqn:Ha.
    + destruct (Harr eq_refl eq_refl) as [H1 Hs]. rewrite H1.
      split; [lia|]. split; [discriminate|].
      intros _ Hok. rewrite Hs, Hok.
      destruct (analyze_effects env2 req2 {| browser := true |}) as (Hup2 & _ & _).
      now destruct (Hup2 eq_refl).
    + destruct (Hrej eq_refl eq_refl) as [H0 Hs]. rewrite H0.
      split; [lia|]. split; [discriminate|]. intro C. discriminate C.
Qed.

(** X7.  When the launch of the browser fails, the request is answered
    with status 500, "Internal server error" and the message of the
    failure; no symbol is fetched, and the scraper is left without a
    browser, so that the next request launches again. *)
Theorem launch_failure
    (env env' : Env) (items : list string) (d : option string)
    (req' : Body) (s : Scraper) (msg : string) :
  browser s = false ->
  launchError env = Some msg ->
  let r := analyze env {| symbols := SymArray items; date := d |} s in
  answerOf r = Some (json 500 (ErrorBody "Internal server error" (Some msg))) /\
  fetchesOf r = [] /\
  stateOf r = s /\
  (isArray (symbols req') = true -> launches (analyze env' req' (stateOf r)) = 1%nat).
Proof.
  intros Hb Hmsg. cbv zeta. rewrite analyze_array, Hb, Hmsg.
  repeat split.
  intro Harr. cbn [stateOf fst].
  destruct (analyze_effects env' req' s) as (_ & _ & H).
  now destruct (H Hb Harr).
Qed.

(** *** The range of the volume ratio *)

Lemma sumQ_nonneg (qs : list Q) :
  Forall (fun q => (0 <= q)%Q) qs -> (0 <= sumQ qs)%Q.
Proof.
  induction 1 as [|q rest Hq _ IH]; unfold sumQ in *; cbn [fold_right]; lra.
Qed.

Lemma sumQ_member (qs : list Q) (c : Q) :
  Forall (fun q => (0 <= q)%Q) qs -> In c qs -> (c <= sumQ qs)%Q.
Proof.
  induction 1 as [|q rest Hq Hrest IH]; intro Hin; [destruct Hin|].
  unfold sumQ in *. cbn [fold_right]. destruct Hin as [-> | Hin].
  - assert (H := sumQ_nonneg rest Hrest). unfold sumQ in H. lra.
  - specialize (IH Hin). lra.
Qed.

Lemma finiteParts_nonneg (vs : list value) :
  Forall volumeOk vs -> Forall (fun q => (0 <= q)%Q) (finiteParts vs).
Proof.
  induction 1 as [|v rest Hv _ IH]; [constructor|].
  destruct Hv as [-> | [q [-> Hq]]]; cbn [finiteParts]; [exact IH|].
  now constructor.
Qed.

Lemma finiteParts_member (vs : list value) (c : Q) :
  In (VNum (Fin c)) vs -> In c (finiteParts vs).
Proof.
  induction vs as [|v rest IH]; intro H; [destruct H|].
  destruct H as [-> | H]; [now left|].
  destruct v as [| |[q| | |]]; cbn [finiteParts]; auto. right. auto.
Qed.

Lemma finiteParts_length (vs : list value) :
  (List.length (finiteParts vs) <= List.length vs)%nat.
Proof.
  induction vs as [|v rest IH]; [apply le_n|].
  destruct v as [| |[q| | |]]; cbn [finiteParts List.length]; lia.
Qed.

Lemma slice_window_length (vols : list value) (i : Z) :
  -1 <= i ->
  (List.length (slice vols (Z.max 0 (i - 9)) (i + 1)) <= 10)%nat.
Proof.
  intro Hi. unfold slice. rewrite length_firstn.
  destruct (Z.max 0 (i - 9) <? 0) eqn:E1; [apply Z.ltb_lt in E1; lia|].
  destruct (i + 1 <? 0) eqn:E2.
  - apply Z.ltb_lt in E2. lia.
  - apply Z.ltb_ge in E2. lia.
Qed.

(** X8.  With volumes that are [null] or whole numbers of shares, zero
    or more, the volume ratio is a number between [0] and [10]: the
    session of the target is one of the at most ten sessions of its own
    average. *)
Theorem vlRatio_at_most_ten
    (env : Env) (sym : string) (date : option string) (data : ChartData) :
  Forall wholeVolume (volumes data) ->
  exists r : Q,
    Stock.vlRatio (reduceChart env sym date data) = Fin r /\
    (0 <= r)%Q /\ (r <= 10)%Q.
Proof.
  intro Hwhole.
  assert (Hok : Forall volumeOk (volumes data)).
  { eapply Forall_impl; [|exact Hwhole]. intros v [-> | [n [-> Hn]]]; [now left|].
    right. eexists. split; [reflexivity|].
    change 0%Q with (inject_Z 0). now rewrite <- Zle_Qle. }
  clear Hwhole. cbn [reduceChart Stock.vlRatio].
  set (i := targetIndexOf env (timestamps data) date).
  set (vols := volumes data) in *.
  assert (Hjson : Forall jsonNumber vols)
    by (eapply Forall_impl; [|exact Hok]; apply volumeOk_jsonNumber).
  set (S := slice vols (Z.max 0 (i - 9)) (i + 1)).
  assert (HS : Forall volumeOk S).
  { apply Forall_forall. intros v Hv. apply in_slice in Hv.
    revert v Hv. now apply Forall_forall. }
  assert (Hnn := finiteParts_nonneg S HS).
  destruct (avgVolumeOf_mean vols i Hjson) as [Hempty Hmean]. fold S in Hempty, Hmean.
  unfold vlRatioOf.
  destruct (finiteParts S) as [|q0 rest] eqn:Epresent.
  { rewrite (Hempty eq_refl). exists 0%Q. cbn. repeat split; lra. }
  destruct Hmean as [a [Ha Hmean]]; [discriminate|]. rewrite Ha.
  destruct (gt (Fin a) (Fin 0)) eqn:G; [|exists 0%Q; repeat split; lra].
  apply gt_Fin in G.
  set (n := inject_Z (Z.of_nat (List.length (q0 :: rest)))) in *.
  assert (Hn1 : (0 < n)%Q) by (apply inject_Z_length_pos; discriminate).
  assert (Hn10 : (n <= 10)%Q).
  { unfold n. change 10%Q with (inject_Z 10). rewrite <- Zle_Qle.
    rewrite <- Epresent.
    assert (H1 := finiteParts_length S).
    assert (H2 := slice_window_length vols i
                    (proj1 (targetIndexOf_range env (timestamps data) date))).
    fold S in H2. lia. }
  assert (Hsum : (sumQ (q0 :: rest) == a * n)%Q).
  { unfold meanQ in Hmean. fold n in Hmean. rewrite Hmean. field. lra. }
  assert (Hcur : exists c : Q,
             toNumber (currentVolumeOf vols i) = Fin c /\ (0 <= c)%Q /\
             (c <= sumQ (q0 :: rest))%Q).
  { unfold currentVolumeOf, orElse.
    destruct (truthy (get vols i)) eqn:Ht.
    - destruct (truthy_finite vols i Hjson Ht) as [Hi0 [c [Hc Hne]]].
      assert (Hlen : i < Z.of_nat (List.length vols)).
      { unfold get in Hc. destruct (0 <=? i); [|discriminate Hc].
        destruct (Z_lt_ge_dec i (Z.of_nat (List.length vols))) as [L|L]; [exact L|].
        rewrite nth_overflow in Hc by lia. discriminate Hc. }
      assert (HinS : In (VNum (Fin c)) S).
      { unfold S. rewrite slice_indexRange by lia. rewrite <- Hc.
        apply in_map. apply in_indexRange. lia. }
      exists c. rewrite Hc. split; [reflexivity|].
      assert (Hc0 : (0 <= c)%Q).
      { rewrite Forall_forall in HS. destruct (HS _ HinS) as [C | [c' [E Hc']]];
          [discriminate C | injection E as <-; exact Hc']. }
      split; [exact Hc0|]. rewrite <- Epresent.
      apply sumQ_member; [now rewrite Epresent | now apply finiteParts_member].
    - exists 0%Q. split; [reflexivity|]. split; [lra|].
      rewrite <- Epresent. apply sumQ_nonneg. now rewrite Epresent. }
  destruct Hcur as [c [Hc [Hc0 Hcs]]]. rewrite Hc. cbn [div].
  rewrite Qeq_bool_false by lra.
  exists (c / a)%Q. split; [reflexivity|]. split.
  - apply Qle_shift_div_l; lra.
  - apply Qle_shift_div_r; [exact G|].
    apply Qle_trans with (a * n)%Q; [rewrite <- Hsum; exact Hcs|].
    assert (H : (a * n <= a * 10)%Q) by (apply Qmult_le_l; lra). lra.
Qed.

(** *** Missing values at the target *)

(** X9.  When the volume at the target is [null], [0] or not there, the
    current volume is [0], and with finite or [null] volumes the volume
    ratio is [0] - whatever the average is. *)
Theorem missing_volume_counts_as_zero
    (env : Env) (sym : string) (date : option string) (data : ChartData) :
  let i := targetIndexOf env (timestamps data) date in
  Forall jsonNumber (volumes data) ->
  truthy (get (volumes data) i) = false ->
  Stock.currentVolume (reduceChart env sym date data) = VNum (Fin 0) /\
  isQ (Stock.vlRatio (reduceChart env sym date data)) 0.
Proof.
  cbv zeta. intros Hjson Hfalsy.
  cbn [reduceChart Stock.currentVolume Stock.vlRatio].
  unfold vlRatioOf, currentVolumeOf, orElse. rewrite Hfalsy.
  split; [reflexivity|]. cbn [toNumber].
  destruct (avgVolumeOf_finite (volumes data)
              (targetIndexOf env (timestamps data) date) Hjson) as [a ->].
  destruct (gt (Fin a) (Fin 0)) eqn:G.
  - apply gt_Fin in G. cbn [div]. rewrite Qeq_bool_false by lra.
    eexists. split; [reflexivity|]. field. lra.
  - exists 0%Q. split; reflexivity.
Qed.

(** Rounding leaves a number that has no more than [d] decimals as it
    is. *)
Lemma toFixed_exact (d : nat) (q : Q) (z : Z) :
  (q == inject_Z z / pow10 d)%Q -> isQ (toFixed d (Fin q)) q.
Proof.
  intro Hq. assert (HP := pow10_pos d).
  assert (Hz : (q * pow10 d == inject_Z z)%Q) by (rewrite Hq; field; lra).
  assert (Hfloor : forall y : Z, Qfloor (inject_Z y + (1 # 2)) = y).
  { intro y. apply Z.le_antisymm.
    - assert (L := Qfloor_le (inject_Z y + (1 # 2))).
      assert (Hlt : (inject_Z (Qfloor (inject_Z y + (1 # 2))) < inject_Z (y + 1))%Q)
        by (rewrite inject_Z_plus; change (inject_Z 1) with 1%Q; lra).
      rewrite <- Zlt_Qlt in Hlt. lia.
    - rewrite <- (Qfloor_Z y) at 1. apply Qfloor_resp_le. lra. }
  cbn [toFixed]. destruct (Qle_bool 0 q) eqn:E.
  - eexists. split; [reflexivity|].
    unfold nearestUp. rewrite Hz, Hfloor, Hq. reflexivity.
  - eexists. split; [reflexivity|].
    assert (Hz' : (- q * pow10 d == inject_Z (- z))%Q)
      by (rewrite inject_Z_opp, <- Hz; ring).
    unfold nearestUp. rewrite Hz', Hfloor, inject_Z_opp, Hq. field. lra.
Qed.

(** X10.  When the close at the target is [null] and the previous close
    [p] is positive, [null] counts as [0] in the subtraction: the price
    change is -100 percent, and this is the value returned. *)
Theorem null_close_is_minus_hundred
    (env : Env) (sym : string) (date : option string) (data : ChartData) (p : Q) :
  let i := targetIndexOf env (timestamps data) date in
  get (closes data) i = VNull ->
  get (closes data) (i - 1) = VNum (Fin p) ->
  (0 < p)%Q ->
  Stock.price (reduceChart env sym date data) = VNull /\
  isQ (Stock.priceChange (reduceChart env sym date data)) (-100).
Proof.
  cbv zeta. intros Hc Hp Hpos.
  cbn [reduceChart Stock.price Stock.priceChange]. split; [exact Hc|].
  unfold priceChangeOf, previousPriceOf, orElse. rewrite Hp, Hc.
  cbn [truthy toNumber]. rewrite Qeq_bool_false by lra. cbn [negb toNumber].
  rewrite (proj2 (gt_Fin p 0) Hpos). cbn [sub neg add div].
  rewrite Qeq_bool_false by lra. cbn [mul].
  assert (Hv : ((0 + - p) / p * 100 == inject_Z (-10000) / pow10 2)%Q).
  { unfold pow10. change (inject_Z (10 ^ Z.of_nat 2)) with (inject_Z 100).
    change (inject_Z (-10000)) with (-10000)%Q. change (inject_Z 100) with 100%Q.
    field. lra. }
  destruct (toFixed_exact 2 _ _ Hv) as [r [Hr Er]].
  exists r. split; [exact Hr|]. rewrite Er. field. lra.
Qed.

(** *** No [NaN] and no infinity *)

Lemma round_finite (x : num) : finite x -> finite (round x).
Proof. intros [q ->]. eexists. reflexivity. Qed.

Lemma toFixed_keeps_finite (d : nat) (x : num) : finite x -> finite (toFixed d x).
Proof. intros [q ->]. apply toFixed_finite. Qed.

Lemma vlRatioOf_finite (vols : list value) (i : Z) :
  Forall jsonNumber vols -> finite (vlRatioOf vols i).
Proof.
  intro Hjson. unfold vlRatioOf.
  destruct (avgVolumeOf_finite vols i Hjson) as [a ->].
  destruct (gt (Fin a) (Fin 0)) eqn:G; [|now exists 0%Q].
  apply gt_Fin in G. unfold currentVolumeOf, orElse.
  destruct (truthy (get vols i)) eqn:Ht.
  - destruct (truthy_finite vols i Hjson Ht) as [_ [c [-> _]]].
    cbn [toNumber div]. rewrite Qeq_bool_false by lra. eexists. reflexivity.
  - cbn [toNumber div]. rewrite Qeq_bool_false by lra. eexists. reflexivity.
Qed.

Lemma finite_not_NaN (x : num) : finite x -> x <> NaN.
Proof. intros [q ->]. discriminate. Qed.

(** X21.  When every chart the quote service returns is as a parsed
    response has it - one close per timestamp, closes and volumes finite
    or [null] - no metric of any result is [NaN]: the guards on an empty
    window, on an average that is not positive and on a previous close
    that is not positive keep [0/0] out of the volume ratio, the average
    volume and the price change. *)
Theorem response_metrics_are_never_NaN
    (env : Env) (req : Body) (s : Scraper) (resp : Response) (r : Result.t) :
  (forall sym chart, yahoo env sym = Some chart -> chartOk chart) ->
  responseOf env req s = Some resp ->
  In r (dataOf resp) ->
  Result.vlRatio r <> NaN /\ Result.avgVolume r <> NaN /\
  Result.priceChange r <> NaN.
Proof.
  intros Hcharts Hresp Hin.
  destruct (data_inv env req s resp r Hresp Hin) as [stock [Hs Hr]].
  destruct (result_inv env req s resp r Hresp Hin) as [stock' [Hs' [Hv [Ha _]]]].
  assert (stock' = stock) by congruence. subst stock'.
  unfold stockOf in Hs.
  destruct (yahoo env (Result.symbol r)) as [chart|] eqn:E; [|discriminate Hs].
  injection Hs as <-. destruct (Hcharts _ chart E) as [Hcl Hvol].
  rewrite Hv, Ha, Hr. repeat split; apply finite_not_NaN.
  - now apply toFixed_keeps_finite, vlRatioOf_finite.
  - now apply round_finite, avgVolumeOf_finite.
  - now apply priceChange_finite.
Qed.

(** *** What every result holds *)

(** X11.  Every result of every response has the three comparisons
    [vs_QQQ], [vs_SPY] and [vs_IWM], and no other property in
    [comparisons]: the page can read all three without a check. *)
Theorem comparisons_always_present
    (env : Env) (req : Body) (s : Scraper) (resp : Response) (r : Result.t) :
  responseOf env req s = Some resp ->
  In r (dataOf resp) ->
  map fst (Result.comparisons r) = map vs benchmarks /\
  (forall B, In B benchmarks -> property (vs B) (Result.comparisons r) <> None).
Proof.
  intros Hresp Hin.
  destruct (data_inv env req s resp r Hresp Hin) as [stock [_ ->]].
  split; [reflexivity|].
  intros B [<- | [<- | [<- | []]]]; discriminate.
Qed.

(** *** The theorems at concrete inputs *)

(** X1 for the sessions of days 1 and 2 and the date of day 1. *)
Lemma targetIndex_resolution_witness :
  targetIndexOf MoreExamples.env1 [86400; 172800] (Some "1970-01-02"%string) = 0 /\
  targetIndexOf MoreExamples.env1 [86400; 172800] (Some "1970-02-01"%string) = 1 /\
  targetIndexOf MoreExamples.env1 [86400; 172800] (Some ""%string) = 1.
Proof.
  destruct (targetIndex_resolution MoreExamples.env1 [86400; 172800]
              (Some "1970-01-02"%string)) as (_ & _ & Hfirst).
  destruct (targetIndex_resolution MoreExamples.env1 [86400; 172800]
              (Some "1970-02-01"%string)) as (_ & Hnone & _).
  destruct (targetIndex_resolution MoreExamples.env1 [86400; 172800]
              (Some ""%string)) as (Hlatest & _ & _).
  split; [|split].
  - apply (Hfirst "1970-01-02"%string 0%nat 86400 eq_refl eq_refl eq_refl).
    intros j t' Hj. lia.
  - apply (Hnone "1970-02-01"%string eq_refl).
    intros t [<- | [<- | []]]; reflexivity.
  - apply (Hlatest eq_refl).
Defined.

Lemma empty_series_metrics_witness :
  let s := reduceChart Examples.env0 "NONE" None MoreExamples.noSessions in
  Stock.symbol s = "NONE"%string /\
  Stock.currentVolume s = VNum (Fin 0) /\
  Stock.avgVolume s = Fin 0 /\
  Stock.vlRatio s = Fin 0 /\
  Stock.price s = VUndef /\
  isQ (Stock.priceChange s) 0 /\
  Stock.timestamp s = NaN /\
  Stock.date s = toDateString Examples.env0 NaN.
Proof.
  apply (empty_series_metrics Examples.env0 "NONE" None MoreExamples.noSessions eq_refl).
Defined.

Lemma total_failure_witness :
  responseOf MoreExamples.envDown
    {| symbols := SymArray ["AAPL"%string]; date := None |} Examples.idle =
  Some (json 500 (ErrorBody "Failed to fetch data for any symbols" None)).
Proof.
  apply (total_failure MoreExamples.envDown ["AAPL"%string] None Examples.idle
           (or_intror eq_refl)).
  intros sym _. reflexivity.
Defined.

Lemma failed_symbols_are_dropped_witness :
  exists data : list Result.t,
    responseOf Examples.env0
      {| symbols := SymArray ["AAPL"; "ZZZZ"]%string; date := None |} Examples.idle =
      Some (json 200 (AnalysisBody data (now Examples.env0) (requestDateOf None))) /\
    map Result.symbol data =
      filter (fetched Examples.env0) (allSymbolsOf ["AAPL"; "ZZZZ"]%string) /\
    (forall x, In x (map Result.symbol data) <->
               In x (allSymbolsOf ["AAPL"; "ZZZZ"]%string) /\
               fetched Examples.env0 x = true).
Proof.
  apply (failed_symbols_are_dropped Examples.env0 ["AAPL"; "ZZZZ"]%string None
           Examples.idle "AAPL"%string (or_intror eq_refl)).
  - vm_compute. tauto.
  - reflexivity.
Defined.

Lemma one_fetch_per_symbol_witness :
  exists others : list string,
    fetchesOf (analyze Examples.env0
                 {| symbols := SymArray ["AAPL"; "QQQ"; "AAPL"]%string; date := None |}
                 Examples.idle) =
      map HttpGet (benchmarks ++ others) /\
    NoDup (benchmarks ++ others) /\
    (forall x, In x others <->
               In x ["AAPL"; "QQQ"; "AAPL"]%string /\ ~ In x benchmarks).
Proof.
  apply (one_fetch_per_symbol Examples.env0 ["AAPL"; "QQQ"; "AAPL"]%string None
           Examples.idle (or_intror eq_refl)).
Defined.

(** X6 for two requests in a row, the browser not yet launched. *)
Lemma browser_launched_once_witness :
  launches (analyze Examples.env0 (Examples.request []) Examples.idle) = 1%nat /\
  launches (analyze MoreExamples.env1 (Examples.request ["AAPL"%string])
              (stateOf (analyze Examples.env0 (Examples.request []) Examples.idle)))
    = 0%nat.
Proof.
  destruct (browser_launched_once Examples.env0 MoreExamples.env1
              (Examples.request []) (Examples.request ["AAPL"%string]) Examples.idle)
    as (_ & _ & Hnext).
  split; [reflexivity|]. apply Hnext; reflexivity.
Defined.

Lemma launch_failure_witness :
  let r := analyze MoreExamples.envNoBrowser
             {| symbols := SymArray ["AAPL"%string]; date := None |} Examples.idle in
  answerOf r =
    Some (json 500 (ErrorBody "Internal server error"
                      (Some "Failed to launch the browser process"%string))) /\
  fetchesOf r = [] /\
  stateOf r = Examples.idle /\
  (isArray (symbols (Examples.request [])) = true ->
   launches (analyze Examples.env0 (Examples.request []) (stateOf r)) = 1%nat).
Proof.
  apply (launch_failure MoreExamples.envNoBrowser Examples.env0 ["AAPL"%string] None
           (Examples.request []) Examples.idle
           "Failed to launch the browser process"%string eq_refl eq_refl).
Defined.

Lemma vlRatio_at_most_ten_witness :
  exists r : Q,
    Stock.vlRatio (reduceChart Examples.env0 "MSFT" None Examples.twoSessions) = Fin r /\
    (0 <= r)%Q /\ (r <= 10)%Q.
Proof.
  apply (vlRatio_at_most_ten Examples.env0 "MSFT" None Examples.twoSessions).
  repeat (apply Forall_cons;
          [right; first [ exists 1000; split; [reflexivity | lia]
                        | exists 3000; split; [reflexivity | lia] ]|]).
  apply Forall_nil.
Defined.

Lemma missing_volume_counts_as_zero_witness :
  Stock.currentVolume
    (reduceChart Examples.env0 "OPEN" None MoreExamples.openSession) = VNum (Fin 0) /\
  isQ (Stock.vlRatio (reduceChart Examples.env0 "OPEN" None MoreExamples.openSession)) 0.
Proof.
  apply (missing_volume_counts_as_zero Examples.env0 "OPEN" None
           MoreExamples.openSession).
  - ReductionFacts.json_list.
  - reflexivity.
Defined.

Lemma null_close_is_minus_hundred_witness :
  Stock.price (reduceChart Examples.env0 "OPEN" None MoreExamples.openSession) = VNull /\
  isQ (Stock.priceChange
         (reduceChart Examples.env0 "OPEN" None MoreExamples.openSession)) (-100).
Proof.
  apply (null_close_is_minus_hundred Examples.env0 "OPEN" None
           MoreExamples.openSession 100 eq_refl eq_refl).
  reflexivity.
Defined.

Lemma quotes_are_ok (sym : string) (chart : ChartData) :
  yahoo Examples.env0 sym = Some chart -> chartOk chart.
Proof.
  cbn [yahoo Examples.env0]. unfold Examples.quotes.
  repeat match goal with
         | |- context [String.eqb sym ?x] => destruct (String.eqb sym x)
         end;
    intro H; try discriminate H; injection H as <-;
    (split; [split; [reflexivity | ReductionFacts.json_list]
            | ReductionFacts.json_list]).
Defined.

Lemma response_metrics_are_never_NaN_witness :
  Result.vlRatio (Examples.resultAt 2) <> NaN /\
  Result.avgVolume (Examples.resultAt 2) <> NaN /\
  Result.priceChange (Examples.resultAt 2) <> NaN.
Proof.
  apply (response_metrics_are_never_NaN Examples.env0
           (Examples.request ["AAPL"; "MSFT"]%string) Examples.idle
           Examples.response0 (Examples.resultAt 2) quotes_are_ok
           response0_eq (resultAt_in 2 ltac:(lia))).
Defined.

Lemma comparisons_always_present_witness :
  map fst (Result.comparisons (Examples.resultAt 2)) = map vs benchmarks /\
  (forall B, In B benchmarks ->
             property (vs B) (Result.comparisons (Examples.resultAt 2)) <> None).
Proof.
  apply (comparisons_always_present Examples.env0
           (Examples.request ["AAPL"; "MSFT"]%string) Examples.idle
           Examples.response0 (Examples.resultAt 2)
           response0_eq (resultAt_in 2 ltac:(lia))).
Defined.

End ServerExtras.

(* ================================================================== *)
(** * Further properties of the page script *)
(* ================================================================== *)

Module TableExtras.
Import JS Client Spec SortSpec Frontend ReductionFacts SortFacts.

(** *** A sort that keeps two groups apart *)

Section Partition.
Context {A : Type}.
Variables cmp c1 c2 : A -> A -> num.
Variable P : A -> bool.
Hypothesis first_before_second :
  forall a b, P a = true -> P b = false ->
    gt (cmp a b) (Fin 0) = false /\ gt (cmp b a) (Fin 0) = true.
Hypothesis on_first : forall a b, P a = true -> P b = true -> cmp a b = c1 a b.
Hypothesis on_second : forall a b, P a = false -> P b = false -> cmp a b = c2 a b.

Lemma insert_first (x : A) (l1 l2 : list A) :
  P x = true ->
  Forall (fun y => P y = true) l1 -> Forall (fun y => P y = false) l2 ->
  insert cmp x (l1 ++ l2) = insert c1 x l1 ++ l2.
Proof.
  intros Hx H1 H2. induction H1 as [|y rest Hy _ IH].
  - cbn [app insert]. apply insert_here.
    eapply Forall_impl; [|exact H2]. intros b Hb.
    now destruct (first_before_second x b Hx Hb).
  - cbn [app insert]. rewrite (on_first x y Hx Hy).
    destruct (gt (c1 x y) (Fin 0)); [now rewrite IH | reflexivity].
Qed.

Lemma insert_second (x : A) (l1 l2 : list A) :
  P x = false ->
  Forall (fun y => P y = true) l1 -> Forall (fun y => P y = false) l2 ->
  insert cmp x (l1 ++ l2) = l1 ++ insert c2 x l2.
Proof.
  intros Hx H1 H2. rewrite insert_skip.
  - f_equal. induction H2 as [|y rest Hy _ IH]; [reflexivity|].
    cbn [insert]. rewrite (on_second x y Hx Hy).
    destruct (gt (c2 x y) (Fin 0)); [now rewrite IH | reflexivity].
  - eapply Forall_impl; [|exact H1]. intros a Ha.
    now destruct (first_before_second a x Ha Hx).
Qed.

Lemma sort_partition (l : list A) :
  sort cmp l =
  sort c1 (filter P l) ++ sort c2 (filter (fun x => negb (P x)) l).
Proof.
  induction l as [|x rest IH]; [reflexivity|].
  cbn [sort fold_right filter]. fold (sort cmp rest). rewrite IH.
  assert (H1 : Forall (fun y => P y = true) (sort c1 (filter P rest))).
  { apply sort_keeps. apply Forall_forall. intros y Hy.
    now apply filter_In in Hy. }
  assert (H2 : Forall (fun y => P y = false)
                 (sort c2 (filter (fun x => negb (P x)) rest))).
  { apply sort_keeps. apply Forall_forall. intros y Hy.
    apply filter_In in Hy. destruct Hy as [_ Hy]. now apply negb_true_iff. }
  destruct (P x) eqn:Hx; cbn [negb sort fold_right].
  - now apply insert_first.
  - now apply insert_second.
Qed.

End Partition.

Lemma initial_sort_partition
    (localeCompare : string -> string -> Z) (rows : list Row) :
  sortDataWithBenchmarksFirst localeCompare rows =
  sort compareBenchmarks (filter isBenchmark rows) ++
  sort (compareRows localeCompare c_symbol asc)
       (filter (fun stock => negb (isBenchmark stock)) rows).
Proof.
  unfold sortDataWithBenchmarksFirst.
  apply (sort_partition (compareInitial localeCompare) compareBenchmarks
           (compareRows localeCompare c_symbol asc) isBenchmark).
  - intros a b Ha Hb. unfold compareInitial, isBenchmark in *.
    rewrite Ha, Hb. split; reflexivity.
  - intros a b Ha Hb. unfold compareInitial, isBenchmark in *.
    rewrite Ha, Hb. reflexivity.
  - intros a b Ha Hb. unfold compareInitial, isBenchmark in *.
    rewrite Ha, Hb. reflexivity.
Qed.

(** X12.  The first rendering of a response ([sortDataWithBenchmarksFirst])
    is what [sortData] gives for the symbol column, ascending: the
    benchmark rows in the order [QQQ], [SPY], [IWM], then the other rows
    by symbol. *)
Theorem initial_sort_is_symbol_sort
    (localeCompare : string -> string -> Z) (rows : list Row) :
  sortDataWithBenchmarksFirst localeCompare rows =
    sortData localeCompare rows c_symbol asc /\
  sortDataWithBenchmarksFirst localeCompare rows =
    benchmarkRows rows ++
    sort (compareRows localeCompare c_symbol asc) (otherRows rows).
Proof.
  rewrite initial_sort_partition. split.
  - reflexivity.
  - now rewrite sort_benchmarks.
Qed.

(** *** Sorting what is sorted *)

Section Sorted.
Context {A : Type}.
Variable cmp : A -> A -> num.

Lemma sort_leaves_sorted (l : list A) :
  StronglySorted (fun a b => gt (cmp a b) (Fin 0) = false) l -> sort cmp l = l.
Proof.
  induction 1 as [|x rest Hs IH Hx]; [reflexivity|].
  cbn [sort fold_right]. fold (sort cmp rest). rewrite IH.
  now apply insert_here.
Qed.

End Sorted.

Lemma symbol_order_spec
    (localeCompare : string -> string -> Z) (a b : Row) :
  gt (compareRows localeCompare c_symbol asc a b) (Fin 0) = false <->
  inOrder localeCompare c_symbol asc a b.
Proof. apply (compareStrings_spec localeCompare asc). Qed.

Lemma symbol_sort_fixed
    (localeCompare : string -> string -> Z) (rows : list Row) :
  Collation localeCompare ->
  sortData localeCompare (sortDataWithBenchmarksFirst localeCompare rows)
           c_symbol asc =
  sortDataWithBenchmarksFirst localeCompare rows.
Proof.
  intro Hcoll. rewrite initial_sort_partition, sort_benchmarks.
  fold (otherRows rows).
  set (others := sort (compareRows localeCompare c_symbol asc) (otherRows rows)).
  assert (Hreg : Forall (fun r => isBenchmark r = false) others)
    by (apply sort_keeps, otherRows_are_regular).
  assert (Hsorted : sort (compareRows localeCompare c_symbol asc) others = others).
  { apply sort_leaves_sorted. unfold others.
    apply StronglySorted_impl with (R := inOrder localeCompare c_symbol asc).
    - intros a b _ _ H. now apply symbol_order_spec.
    - apply (sort_sorted _ (fun _ => True)).
      + intros a b _ _. apply symbol_order_spec.
      + intros a b _ _. now apply inOrder_total.
      + intros a b c _ _ _. now apply inOrder_trans.
      + apply Forall_forall. intros; exact I. }
  unfold sortData. rewrite sort_benchmarks.
  destruct (benchmarkRows_of_sorted rows others Hreg) as [Hb Ho].
  fold (otherRows (benchmarkRows rows ++ others)). now rewrite Hb, Ho, Hsorted.
Qed.

(** X13.  For a consistent collation the first rendering is idempotent:
    sorting the sorted rows again - as the download does on the array the
    page keeps, and as a first click on the symbol header does - changes
    nothing. *)
Theorem initial_sort_idempotent
    (localeCompare : string -> string -> Z) (rows : list Row) :
  Collation localeCompare ->
  let shown := sortDataWithBenchmarksFirst localeCompare rows in
  sortDataWithBenchmarksFirst localeCompare shown = shown /\
  sortData localeCompare shown c_symbol asc = shown.
Proof.
  intro Hcoll. cbv zeta.
  assert (H := symbol_sort_fixed localeCompare rows Hcoll).
  split; [|exact H].
  rewrite initial_sort_partition at 1.
  unfold sortData in H. exact H.
Qed.

(** *** Stability *)

Section Stable.
Context {A : Type}.
Variable cmp : A -> A -> num.
Variable P : A -> Prop.
Variable t : A -> bool.
Hypothesis selected_tie :
  forall x y, P x -> P y -> t x = true -> t y = true ->
    gt (cmp x y) (Fin 0) = false.

Lemma filter_insert (x : A) (l : list A) :
  P x -> Forall P l -> filter t (insert cmp x l) = filter t (x :: l).
Proof.
  intros Hx Hl. induction Hl as [|y rest Hy _ IH]; [reflexivity|].
  cbn [insert]. destruct (gt (cmp x y) (Fin 0)) eqn:G; [|reflexivity].
  cbn [filter] in *. rewrite IH.
  destruct (t x) eqn:Tx; [|reflexivity].
  destruct (t y) eqn:Ty; [|reflexivity].
  rewrite (selected_tie x y Hx Hy Tx Ty) in G. discriminate G.
Qed.

Lemma filter_sort (l : list A) :
  Forall P l -> filter t (sort cmp l) = filter t l.
Proof.
  induction 1 as [|x rest Hx Hrest IH]; [reflexivity|].
  cbn [sort fold_right]. fold (sort cmp rest).
  rewrite filter_insert by (try exact Hx; now apply sort_keeps).
  cbn [filter]. now rewrite IH.
Qed.

End Stable.

Lemma compareRows_desc
    (localeCompare : string -> string -> Z) (col : Column) (a b : Row) :
  compareRows localeCompare col desc a b = compareRows localeCompare col asc b a.
Proof. destruct col; reflexivity. Qed.

(** X14.  [sortData] is stable on the regular stocks: for a consistent
    collation and rows of a parsed response, the rows that compare equal
    to a given row in the chosen column come out in the order they came
    in, in both directions. *)
Theorem sortData_is_stable
    (localeCompare : string -> string -> Z)
    (rows : list Row) (col : Column) (dir : Direction) (z : Row) :
  Collation localeCompare ->
  Forall rowOk rows -> rowOk z ->
  filter (comparesEqual localeCompare col z)
         (otherRows (sortData localeCompare rows col dir)) =
  filter (comparesEqual localeCompare col z) (otherRows rows).
Proof.
  intros Hcoll Hok Hz. rewrite otherRows_sortData.
  apply (filter_sort _ rowOk); [|now apply Forall_otherRows].
  intros x y Hx Hy Tx Ty. unfold comparesEqual in Tx, Ty.
  apply andb_true_iff in Tx, Ty. destruct Tx as [Tzx Txz], Ty as [Tzy Tyz].
  apply negb_true_iff in Tzx, Txz, Tzy, Tyz.
  apply (compareRows_spec localeCompare col asc) in Tzx, Txz, Tzy, Tyz; auto.
  destruct dir.
  - apply (compareRows_spec localeCompare col asc); auto.
    now apply (inOrder_trans localeCompare Hcoll col asc x z y).
  - rewrite compareRows_desc.
    apply (compareRows_spec localeCompare col asc); auto.
    now apply (inOrder_trans localeCompare Hcoll col asc y z x).
Qed.

(** *** Clicks on the headers *)

Lemma sortColumnEqb_eq (a b : SortColumn) : sortColumnEqb a b = true <-> a = b.
Proof.
  destruct a as [| |x], b as [| |y]; cbn; split; intro H;
    try reflexivity; try discriminate H.
  - destruct x, y; try discriminate H; reflexivity.
  - injection H as <-. destruct x; reflexivity.
Qed.

Lemma sort_constant {A : Type} (l : list A) : sort (fun _ _ => Fin 0) l = l.
Proof.
  induction l as [|x rest IH]; [reflexivity|].
  cbn [sort fold_right]. fold (sort (fun _ _ : A => Fin 0) rest). rewrite IH.
  destruct rest; reflexivity.
Qed.

Lemma sortData_shape
    (localeCompare : string -> string -> Z)
    (rows : list Row) (col : Column) (dir : Direction) :
  sortData localeCompare rows col dir =
  benchmarkRows rows ++ otherRows (sortData localeCompare rows col dir).
Proof.
  rewrite otherRows_sortData. unfold sortData. now rewrite sort_benchmarks.
Qed.

(** X15.  A click on a header does nothing before the first response.
    After one, it never changes the response the page keeps, it makes the
    clicked column the sort column, and what it renders is the benchmark
    rows in their fixed order followed by a rearrangement of the other
    rows; for an index outside the eight columns these other rows keep
    the order of the kept array. *)
Theorem sortTable_keeps_data
    (localeCompare : string -> string -> Z) (columnIndex : Z) (st : Analyzer) :
  (lastAnalysisData st = None -> sortTable localeCompare columnIndex st = (st, None)) /\
  (forall response : AnalysisData,
     lastAnalysisData st = Some response ->
     exists rendered : list Row,
       snd (sortTable localeCompare columnIndex st) = Some rendered /\
       lastAnalysisData (fst (sortTable localeCompare columnIndex st)) = Some response /\
       column (currentSort (fst (sortTable localeCompare columnIndex st))) =
         columnAt columnIndex /\
       rendered = benchmarkRows (data response) ++ otherRows rendered /\
       Permutation (otherRows rendered) (otherRows (data response)) /\
       (columnAt columnIndex = col_undefined ->
        otherRows rendered = otherRows (data response))).
Proof.
  split.
  - intro H. unfold sortTable. now rewrite H.
  - intros response H. unfold sortTable. rewrite H. cbn [fst snd].
    eexists. split; [reflexivity|]. split; [reflexivity|]. split.
    + destruct (sortColumnEqb (column (currentSort st)) (columnAt columnIndex)) eqn:E;
        cbn [currentSort column]; [now apply sortColumnEqb_eq | reflexivity].
    + split; [apply sortData_shape|]. rewrite otherRows_sortData.
      split; [apply sort_perm|].
      intros ->. cbn [switchColumn compareRows]. apply sort_constant.
Qed.

Lemma toggled_is_reverse
    (localeCompare : string -> string -> Z) (col : Column) (dir : Direction)
    (rows : list Row) :
  Collation localeCompare ->
  Forall rowOk rows -> NoDupA (ties localeCompare col) rows ->
  sort (compareRows localeCompare col (toggle dir)) rows =
  rev (sort (compareRows localeCompare col dir) rows).
Proof.
  intros Hcoll Hok Hn.
  assert (H := descending_is_reverse localeCompare col Hcoll rows rows Hok Hn
                 (Permutation_refl rows)).
  destruct dir; cbn [toggle]; [exact H|].
  rewrite H. now rewrite rev_involutive.
Qed.

(** X16.  Two clicks in a row on the same header: when the comparator
    of that column returns zero on no two of the regular stocks, the
    second click renders the benchmarks where they were and the regular
    stocks in the reverse of the order the first click rendered. *)
Theorem second_click_reverses
    (localeCompare : string -> string -> Z) (columnIndex : Z) (st : Analyzer)
    (response : AnalysisData) :
  Collation localeCompare ->
  lastAnalysisData st = Some response ->
  Forall rowOk (data response) ->
  NoDupA (ties localeCompare (switchColumn (columnAt columnIndex)))
         (otherRows (data response)) ->
  exists first second : list Row,
    snd (sortTable localeCompare columnIndex st) = Some first /\
    snd (sortTable localeCompare columnIndex
           (fst (sortTable localeCompare columnIndex st))) = Some second /\
    first = benchmarkRows (data response) ++ otherRows first /\
    second = benchmarkRows (data response) ++ rev (otherRows first).
Proof.
  intros Hcoll Hdata Hok Hn.
  set (col := columnAt columnIndex) in *.
  assert (Hfirst : exists d1 : Direction,
             sortTable localeCompare columnIndex st =
             ({| lastAnalysisData := Some response;
                 currentSort := {| column := col; direction := d1 |} |},
              Some (sortData localeCompare (data response) (switchColumn col) d1))).
  { unfold sortTable. rewrite Hdata. fold col.
    destruct (sortColumnEqb (column (currentSort st)) col) eqn:E.
    - apply sortColumnEqb_eq in E. rewrite E.
      exists (toggle (direction (currentSort st))). reflexivity.
    - exists asc. reflexivity. }
  destruct Hfirst as [d1 H1]. rewrite H1. cbn [fst snd].
  exists (sortData localeCompare (data response) (switchColumn col) d1).
  exists (sortData localeCompare (data response) (switchColumn col) (toggle d1)).
  split; [reflexivity|]. split.
  - unfold sortTable. cbn [lastAnalysisData currentSort column direction]. fold col.
    rewrite (proj2 (sortColumnEqb_eq col col) eq_refl). reflexivity.
  - split; [apply sortData_shape|].
    rewrite (sortData_shape localeCompare (data response) (switchColumn col) (toggle d1)).
    f_equal. rewrite !otherRows_sortData.
    apply toggled_is_reverse; auto. now apply Forall_otherRows.
Qed.

(** X17.  After the first rendering of a response in a fresh page, a
    click on the symbol header renders the same rows again: the first
    rendering is already the ascending symbol sort. *)
Theorem first_symbol_click_changes_nothing
    (localeCompare : string -> string -> Z) (response : AnalysisData) :
  Collation localeCompare ->
  let shown := snd (displayResults localeCompare response initial) in
  let page := fst (displayResults localeCompare response initial) in
  snd (sortTable localeCompare 0 page) = Some shown /\
  currentSort (fst (sortTable localeCompare 0 page)) =
    {| column := col_named c_symbol; direction := asc |}.
Proof.
  intro Hcoll. cbv zeta. unfold displayResults, sortTable, initial.
  cbn [fst snd lastAnalysisData currentSort column direction data].
  change (columnAt 0) with (col_named c_symbol).
  cbn [sortColumnEqb switchColumn fst snd direction].
  split; [|reflexivity]. f_equal.
  apply (symbol_sort_fixed localeCompare (data response) Hcoll).
Qed.

(** *** The theorems at the concrete table *)

Lemma initial_sort_idempotent_witness :
  let shown := sortDataWithBenchmarksFirst codePointCompare Examples.table in
  sortDataWithBenchmarksFirst codePointCompare shown = shown /\
  sortData codePointCompare shown c_symbol asc = shown.
Proof.
  apply (initial_sort_idempotent codePointCompare Examples.table codePoint_collation).
Defined.

Lemma tiedTable_rowOk : Forall rowOk MoreExamples.tiedTable.
Proof.
  repeat (apply Forall_cons;
          [repeat split; right; eexists; reflexivity|]).
  apply Forall_nil.
Defined.

(** X14 at a table with ties, sorted by price change, descending: the
    rows that tie with [TSLA]. *)
Lemma sortData_is_stable_witness :
  filter (comparesEqual codePointCompare c_priceChange Examples.rowTSLA)
         (otherRows (sortData codePointCompare MoreExamples.tiedTable
                       c_priceChange desc)) =
  filter (comparesEqual codePointCompare c_priceChange Examples.rowTSLA)
         (otherRows MoreExamples.tiedTable).
Proof.
  apply (sortData_is_stable codePointCompare MoreExamples.tiedTable c_priceChange
           desc Examples.rowTSLA codePoint_collation tiedTable_rowOk).
  repeat split; right; eexists; reflexivity.
Defined.

Example ties_keep_their_order :
  map symbol (sortData codePointCompare MoreExamples.tiedTable c_priceChange asc) =
    ["QQQ"; "SPY"; "AAPL"; "AMD"; "TSLA"; "MSFT"]%string /\
  map symbol (sortData codePointCompare MoreExamples.tiedTable c_priceChange desc) =
    ["QQQ"; "SPY"; "TSLA"; "MSFT"; "AAPL"; "AMD"]%string /\
  map symbol
    (filter (comparesEqual codePointCompare c_priceChange Examples.rowTSLA)
       (otherRows MoreExamples.tiedTable)) = ["TSLA"; "MSFT"]%string.
Proof. repeat split; vm_compute; reflexivity. Qed.

Lemma shownPage_data :
  lastAnalysisData MoreExamples.shownPage =
  Some {| data := sortDataWithBenchmarksFirst codePointCompare Examples.table;
          timestamp := timestamp MoreExamples.received;
          requestDate := requestDate MoreExamples.received |}.
Proof. reflexivity. Defined.

Lemma shown_rowOk :
  Forall rowOk (sortDataWithBenchmarksFirst codePointCompare Examples.table).
Proof.
  unfold sortDataWithBenchmarksFirst. apply sort_keeps. exact table_rowOk.
Defined.

Lemma shown_distinct_prices :
  NoDupA (ties codePointCompare c_price)
         (otherRows (sortDataWithBenchmarksFirst codePointCompare Examples.table)).
Proof.
  change (otherRows (sortDataWithBenchmarksFirst codePointCompare Examples.table))
    with [Examples.rowAAPL; Examples.rowNVDA; Examples.rowTSLA].
  repeat (apply NoDupA_cons;
          [rewrite InA_alt; intros [y [[r [E Hr]] Hy]]; cbn [In] in Hy;
           repeat (destruct Hy as [<- | Hy];
                   [vm_compute in E; injection E as <-;
                    vm_compute in Hr; discriminate Hr|]);
           exact Hy|]).
  apply NoDupA_nil.
Defined.

(** X16 at the shown page: two clicks on the price header. *)
Lemma second_click_reverses_witness :
  exists first second : list Row,
    snd (sortTable codePointCompare 6 MoreExamples.shownPage) = Some first /\
    snd (sortTable codePointCompare 6
           (fst (sortTable codePointCompare 6 MoreExamples.shownPage))) = Some second /\
    first = benchmarkRows (sortDataWithBenchmarksFirst codePointCompare Examples.table)
            ++ otherRows first /\
    second = benchmarkRows (sortDataWithBenchmarksFirst codePointCompare Examples.table)
             ++ rev (otherRows first).
Proof.
  apply (second_click_reverses codePointCompare 6 MoreExamples.shownPage _
           codePoint_collation shownPage_data shown_rowOk shown_distinct_prices).
Defined.

Example two_price_clicks :
  option_map (map symbol) (snd (sortTable codePointCompare 6 MoreExamples.shownPage)) =
    Some ["QQQ"; "SPY"; "IWM"; "NVDA"; "AAPL"; "TSLA"]%string /\
  option_map (map symbol)
    (snd (sortTable codePointCompare 6
            (fst (sortTable codePointCompare 6 MoreExamples.shownPage)))) =
    Some ["QQQ"; "SPY"; "IWM"; "TSLA"; "AAPL"; "NVDA"]%string.
Proof. split; vm_compute; reflexivity. Qed.

Lemma first_symbol_click_changes_nothing_witness :
  let shown := snd (displayResults codePointCompare MoreExamples.received initial) in
  let page := fst (displayResults codePointCompare MoreExamples.received initial) in
  snd (sortTable codePointCompare 0 page) = Some shown /\
  currentSort (fst (sortTable codePointCompare 0 page)) =
    {| column := col_named c_symbol; direction := asc |}.
Proof.
  apply (first_symbol_click_changes_nothing codePointCompare MoreExamples.received
           codePoint_collation).
Defined.

End TableExtras.

Module PageExtras.
Import Ascii JS Server Spec Frontend HandlerFacts.

(** *** The comparison badges *)

Lemma ratio_one_is_neutral (c : Comparison.t) (stockSymbol benchmarkType : string) :
  isQ (Comparison.ratio c) 1 ->
  createComparisonBadge (cellOverJSON c) stockSymbol benchmarkType =
  if String.eqb stockSymbol benchmarkType then NoCompare
  else Shown "badge-neutral" "fas fa-minus" "Neutral" (Cell.ratio (cellOverJSON c)).
Proof.
  intros [q [Hq Eq1]]. unfold createComparisonBadge, cellOverJSON.
  cbn [Cell.ratio Cell.status]. rewrite Hq. cbn [numberOverJSON isOne].
  rewrite (proj2 (Qeq_bool_iff q 1) Eq1).
  destruct (String.eqb stockSymbol benchmarkType); reflexivity.
Qed.

(** X18.  When the fetch of a benchmark fails, or the benchmark did not
    move, the table shows "Neutral" in that benchmark's column for every
    other symbol - not the status "weaker" that the response carries -
    and the dash in the benchmark's own row. *)
Theorem default_comparison_shows_neutral
    (env : Env) (req : Body) (s : Scraper) (resp : Response)
    (B : string) (r : Result.t) :
  In B benchmarks ->
  responseOf env req s = Some resp ->
  In r (dataOf resp) ->
  stockOf env B (date req) = None \/
  (exists (b : Stock.t) (z : Q),
      stockOf env B (date req) = Some b /\ Stock.priceChange b = Fin z /\ (z == 0)%Q) ->
  exists c : Comparison.t,
    property (vs B) (Result.comparisons r) = Some c /\
    Comparison.status c = weaker /\
    createComparisonBadge (cellOverJSON c) (Result.symbol r) B =
    if String.eqb (Result.symbol r) B then NoCompare
    else Shown "badge-neutral" "fas fa-minus" "Neutral" (Cell.ratio (cellOverJSON c)).
Proof.
  intros HB Hresp Hin Hdefault.
  destruct (result_inv env req s resp r Hresp Hin) as [stock [_ [_ [_ Hc]]]].
  assert (Hone : compareTo (stockOf env B (date req)) stock = Fin 1).
  { destruct Hdefault as [-> | [b [z [-> [Hz Hz0]]]]]; [reflexivity|].
    cbn [compareTo]. rewrite Hz. cbn [strictNeq].
    now rewrite (proj2 (Qeq_bool_iff z 0) Hz0). }
  eexists. split; [apply (Hc B HB)|]. rewrite Hone.
  destruct (comparison_of_one 1 (Qeq_refl 1)) as [Hratio Hstatus].
  split; [exact Hstatus|]. now apply ratio_one_is_neutral.
Qed.

(** *** Reading the symbols *)

Lemma toUpperChar_facts (c : ascii) :
  Text.isLowerCase (Text.toUpperChar c) = false /\
  Text.isWhiteSpace (Text.toUpperChar c) = Text.isWhiteSpace c /\
  Text.notComma (Text.toUpperChar c) = Text.notComma c /\
  (Text.isLowerCase c = false -> Text.toUpperChar c = c).
Proof.
  destruct c as [b0 b1 b2 b3 b4 b5 b6 b7].
  destruct b0, b1, b2, b3, b4, b5, b6, b7;
    vm_compute; repeat split; intro H; first [reflexivity | discriminate H].
Qed.

Lemma tickerChar_facts (c : ascii) :
  Text.isTickerChar c = true ->
  Text.notComma c = true /\ Text.isWhiteSpace c = false /\ Text.isLowerCase c = false.
Proof.
  unfold Text.isTickerChar. rewrite !andb_true_iff, !negb_true_iff. tauto.
Qed.

Lemma toUpperCase_clean (s : string) :
  Text.allChars Text.isTickerChar s = true -> Text.toUpperCase s = s.
Proof.
  induction s as [|c rest IH]; [reflexivity|].
  cbn [Text.allChars Text.toUpperCase]. intro H. apply andb_true_iff in H.
  destruct H as [Hc Hrest]. rewrite (IH Hrest).
  destruct (tickerChar_facts c Hc) as (_ & _ & Hl).
  now rewrite (proj2 (proj2 (proj2 (toUpperChar_facts c))) Hl).
Qed.

Lemma trimEnd_clean (s : string) :
  Text.allChars Text.isTickerChar s = true -> Text.trimEnd s = s.
Proof.
  induction s as [|c rest IH]; [reflexivity|].
  cbn [Text.allChars Text.trimEnd]. intro H. apply andb_true_iff in H.
  destruct H as [Hc Hrest]. rewrite (IH Hrest).
  destruct (tickerChar_facts c Hc) as (_ & Hw & _).
  destruct rest; [now rewrite Hw | reflexivity].
Qed.

Lemma trimStart_clean (s : string) :
  Text.allChars Text.isTickerChar s = true -> Text.trimStart s = s.
Proof.
  destruct s as [|c rest]; [reflexivity|].
  cbn [Text.allChars Text.trimStart]. intro H. apply andb_true_iff in H.
  destruct H as [Hc _]. destruct (tickerChar_facts c Hc) as (_ & Hw & _).
  now rewrite Hw.
Qed.

Lemma split_clean (s : string) :
  Text.allChars Text.isTickerChar s = true -> Text.split Text.comma s = [s].
Proof.
  induction s as [|c rest IH]; [reflexivity|].
  cbn [Text.allChars Text.split]. intro H. apply andb_true_iff in H.
  destruct H as [Hc Hrest]. rewrite (IH Hrest).
  destruct (tickerChar_facts c Hc) as (Hn & _ & _).
  unfold Text.notComma in Hn. apply negb_true_iff in Hn. now rewrite Hn.
Qed.

Lemma split_clean_app (s rest : string) :
  Text.allChars Text.isTickerChar s = true ->
  Text.split Text.comma (s ++ String Text.comma rest) =
  s :: Text.split Text.comma rest.
Proof.
  induction s as [|c s' IH]; intro H.
  - cbn [append Text.split]. now rewrite Ascii.eqb_refl.
  - cbn [Text.allChars] in H. apply andb_true_iff in H. destruct H as [Hc Hrest].
    cbn [append Text.split]. rewrite (IH Hrest).
    destruct (tickerChar_facts c Hc) as (Hn & _ & _).
    unfold Text.notComma in Hn. apply negb_true_iff in Hn. now rewrite Hn.
Qed.

Lemma join_cons (sep x y : string) (rest : list string) :
  Text.join sep (x :: y :: rest) = (x ++ sep ++ Text.join sep (y :: rest))%string.
Proof. reflexivity. Qed.

Lemma split_prefill (x : string) (rest : list string) :
  Forall cleanSymbol (x :: rest) ->
  Text.split Text.comma (prefill (x :: rest)) = x :: map (String " ") rest.
Proof.
  revert x. induction rest as [|y rest IH]; intros x H.
  - inversion H as [|? ? [_ Hx] _]; subst. now apply split_clean.
  - inversion H as [|? ? [_ Hx] Hrest]; subst.
    unfold prefill in *. rewrite join_cons.
    change (x ++ ", " ++ Text.join ", " (y :: rest))%string
      with (x ++ String Text.comma (String " " (Text.join ", " (y :: rest))))%string.
    rewrite (split_clean_app x _ Hx). f_equal.
    cbn [Text.split]. change (Ascii.eqb " " Text.comma) with false. cbv iota.
    now rewrite (IH y Hrest).
Qed.

Lemma read_clean (x : string) :
  cleanSymbol x -> Text.toUpperCase (Text.trim x) = x.
Proof.
  intros [_ H]. unfold Text.trim.
  now rewrite (trimStart_clean x H), (trimEnd_clean x H), (toUpperCase_clean x H).
Qed.

Lemma read_spaced (x : string) :
  cleanSymbol x -> Text.toUpperCase (Text.trim (String " " x)) = x.
Proof.
  intros Hx. unfold Text.trim. cbn [Text.trimStart].
  change (Text.isWhiteSpace " ") with true. cbv iota.
  apply (read_clean x Hx).
Qed.

Lemma keep_clean (l : list string) :
  Forall cleanSymbol l ->
  filter (fun symbol => negb (Nat.eqb (String.length symbol) 0)) l = l.
Proof.
  induction 1 as [|x rest [Hne _] _ IH]; [reflexivity|].
  cbn [filter]. rewrite IH. destruct x; [congruence | reflexivity].
Qed.

(** X19.  What [prefillStockSymbols] writes, [getSymbolsFromInput] reads
    back: for every list of clean symbols - not empty, of ASCII
    characters without commas, white space or lower-case letters - the
    symbols read from the joined text are the list itself. *)
Theorem prefill_round_trip (stocks : list string) :
  Forall cleanSymbol stocks ->
  getSymbolsFromInput (prefill stocks) = stocks.
Proof.
  intro H. unfold getSymbolsFromInput.
  destruct stocks as [|x rest]; [reflexivity|].
  rewrite (split_prefill x rest H). cbn [map].
  inversion H as [|? ? Hx Hrest]; subst.
  rewrite (read_clean x Hx), map_map.
  replace (map (fun s => Text.toUpperCase (Text.trim (String " " s))) rest)
    with rest.
  - now apply keep_clean.
  - clear H. induction Hrest as [|y rest' Hy _ IH]; [reflexivity|].
    cbn [map]. now rewrite (read_spaced y Hy), <- IH.
Qed.

Lemma split_no_comma (s : string) :
  Forall (fun piece => Text.allChars Text.notComma piece = true)
         (Text.split Text.comma s).
Proof.
  induction s as [|c rest IH]; [repeat constructor|].
  cbn [Text.split]. destruct (Ascii.eqb c Text.comma) eqn:E.
  - now constructor.
  - destruct (Text.split Text.comma rest) as [|piece pieces].
    + repeat constructor. cbn [Text.allChars]. unfold Text.notComma. now rewrite E.
    + inversion IH as [|? ? Hp Hps]; subst. constructor; [|exact Hps].
      cbn [Text.allChars]. unfold Text.notComma at 1. now rewrite E.
Qed.

Lemma allChars_trimStart (p : ascii -> bool) (s : string) :
  Text.allChars p s = true -> Text.allChars p (Text.trimStart s) = true.
Proof.
  induction s as [|c rest IH]; [reflexivity|].
  cbn [Text.trimStart]. intro H. destruct (Text.isWhiteSpace c); [|exact H].
  cbn [Text.allChars] in H. apply andb_true_iff in H. now apply IH.
Qed.

Lemma allChars_trimEnd (p : ascii -> bool) (s : string) :
  Text.allChars p s = true -> Text.allChars p (Text.trimEnd s) = true.
Proof.
  induction s as [|c rest IH]; [reflexivity|].
  cbn [Text.allChars Text.trimEnd]. intro H. apply andb_true_iff in H.
  destruct H as [Hc Hrest]. specialize (IH Hrest).
  destruct (Text.trimEnd rest) as [|c' kept].
  - destruct (Text.isWhiteSpace c); [reflexivity|].
    cbn [Text.allChars]. now rewrite Hc.
  - cbn [Text.allChars] in *. now rewrite Hc.
Qed.

Lemma allChars_toUpperCase_comma (s : string) :
  Text.allChars Text.notComma s = true ->
  Text.allChars Text.notComma (Text.toUpperCase s) = true.
Proof.
  induction s as [|c rest IH]; [reflexivity|].
  cbn [Text.allChars Text.toUpperCase]. intro H. apply andb_true_iff in H.
  destruct H as [Hc Hrest].
  rewrite (proj1 (proj2 (proj2 (toUpperChar_facts c)))), Hc. now apply IH.
Qed.

Lemma toUpperCase_no_lower (s : string) :
  Text.allChars (fun c => negb (Text.isLowerCase c)) (Text.toUpperCase s) = true.
Proof.
  induction s as [|c rest IH]; [reflexivity|].
  cbn [Text.allChars Text.toUpperCase].
  now rewrite (proj1 (toUpperChar_facts c)), IH.
Qed.

Lemma firstChar_trimStart (s : string) :
  Text.edgeOk (Text.firstChar (Text.trimStart s)).
Proof.
  induction s as [|c rest IH]; [exact I|].
  cbn [Text.trimStart]. destruct (Text.isWhiteSpace c) eqn:E; [exact IH | exact E].
Qed.

Lemma firstChar_trimEnd (s : string) :
  Text.edgeOk (Text.firstChar s) -> Text.edgeOk (Text.firstChar (Text.trimEnd s)).
Proof.
  destruct s as [|c rest]; [auto|]. cbn [Text.trimEnd Text.firstChar]. intro H.
  destruct (Text.trimEnd rest); [|exact H].
  destruct (Text.isWhiteSpace c); [exact I | exact H].
Qed.

Lemma lastChar_trimEnd (s : string) :
  Text.edgeOk (Text.lastChar (Text.trimEnd s)).
Proof.
  induction s as [|c rest IH]; [exact I|].
  cbn [Text.trimEnd]. destruct (Text.trimEnd rest) as [|c' kept].
  - destruct (Text.isWhiteSpace c) eqn:E; [exact I | exact E].
  - exact IH.
Qed.

Lemma firstChar_toUpperCase (s : string) :
  Text.edgeOk (Text.firstChar s) ->
  Text.edgeOk (Text.firstChar (Text.toUpperCase s)).
Proof.
  destruct s as [|c rest]; [auto|]. cbn [Text.toUpperCase Text.firstChar Text.edgeOk].
  now rewrite (proj1 (proj2 (toUpperChar_facts c))).
Qed.

Lemma lastChar_toUpperCase (s : string) :
  Text.edgeOk (Text.lastChar s) ->
  Text.edgeOk (Text.lastChar (Text.toUpperCase s)).
Proof.
  induction s as [|c rest IH]; [auto|].
  cbn [Text.toUpperCase]. destruct rest as [|c' rest'].
  - cbn [Text.toUpperCase Text.lastChar Text.edgeOk].
    now rewrite (proj1 (proj2 (toUpperChar_facts c))).
  - exact IH.
Qed.

(** X20.  Whatever ASCII text the field holds, every symbol read from it
    is not empty, has no comma and no lower-case letter, and neither
    starts nor ends with white space. *)
Theorem symbols_read_are_well_formed (input : string) :
  Text.asciiText input ->
  Forall readSymbol (getSymbolsFromInput input).
Proof.
  intros _. unfold getSymbolsFromInput. apply Forall_forall. intros sym Hsym.
  apply filter_In in Hsym. destruct Hsym as [Hin Hlen].
  apply in_map_iff in Hin. destruct Hin as [piece [<- Hpiece]].
  assert (Hcomma : Text.allChars Text.notComma piece = true).
  { assert (H := split_no_comma input). rewrite Forall_forall in H. now apply H. }
  unfold readSymbol, Text.trim in *. repeat split.
  - intro C. rewrite C in Hlen. discriminate Hlen.
  - now apply allChars_toUpperCase_comma, allChars_trimEnd, allChars_trimStart.
  - apply toUpperCase_no_lower.
  - apply firstChar_toUpperCase, firstChar_trimEnd, firstChar_trimStart.
  - apply lastChar_toUpperCase, lastChar_trimEnd.
Qed.

(** *** The theorems at concrete inputs *)

(** X18 at the request for [AAPL] and [MSFT]: [QQQ] is not fetched. *)
Lemma default_comparison_shows_neutral_witness :
  exists c : Comparison.t,
    property (vs "QQQ") (Result.comparisons (Examples.resultAt 2)) = Some c /\
    Comparison.status c = weaker /\
    createComparisonBadge (cellOverJSON c) (Result.symbol (Examples.resultAt 2)) "QQQ" =
    if String.eqb (Result.symbol (Examples.resultAt 2)) "QQQ" then NoCompare
    else Shown "badge-neutral" "fas fa-minus" "Neutral" (Cell.ratio (cellOverJSON c)).
Proof.
  apply (default_comparison_shows_neutral Examples.env0
           (Examples.request ["AAPL"; "MSFT"]%string) Examples.idle
           Examples.response0 "QQQ"%string (Examples.resultAt 2)
           QQQ_in_benchmarks response0_eq (resultAt_in 2 ltac:(lia))
           (or_introl eq_refl)).
Defined.

Lemma defaultStocks_clean : Forall cleanSymbol defaultStocks.
Proof.
  repeat (apply Forall_cons; [split; [discriminate | reflexivity]|]).
  apply Forall_nil.
Defined.

(** X19 at the stocks the page starts with. *)
Lemma prefill_round_trip_witness :
  getSymbolsFromInput (prefill defaultStocks) = defaultStocks.
Proof. apply (prefill_round_trip defaultStocks defaultStocks_clean). Defined.

Example reading_a_field :
  getSymbolsFromInput " aapl, msft ,,Brk.b , " = ["AAPL"; "MSFT"; "BRK.B"]%string.
Proof. vm_compute. reflexivity. Qed.

Lemma field_is_ascii : Text.asciiText " aapl, msft ,,Brk.b , ".
Proof. vm_compute. tauto. Defined.

Lemma symbols_read_are_well_formed_witness :
  Forall readSymbol (getSymbolsFromInput " aapl, msft ,,Brk.b , ").
Proof.
  apply (symbols_read_are_well_formed " aapl, msft ,,Brk.b , " field_is_ascii).
Defined.

End PageExtras.
